(** * kmhd2spotify: the sync engine, embedded and verified

    A shallow embedding of the parts of the Go program that carry its
    algorithmic behaviour:

    - [internal/search/fuzzy_song_searcher.go]: the weighted catalog matcher;
    - [internal/api/kmhd.go]: the feed client (retry loop, tolerant parsing)
      and the duplicate service;
    - the [sync] command of package [cmd]: cycle filtering and the per-song
      sync loop;
    - [internal/types/types.go]: the data model.

    Modelling conventions.

    - Go [string] is a byte string: Rocq's [string] (a list of [ascii]), so
      [len] is [String.length].  [strings.TrimSpace] and [strings.ToLower] are
      embedded over ASCII text, which is Go's own fast path for strings
      without bytes above 0x7F.
    - Go [float64] is Rocq's primitive binary64 [float]: the kernel evaluates
      [+], [*], [/] and the comparisons with IEEE 754 round-to-nearest-even,
      as Go does on the same operands when it rounds every operation (no
      fused multiply-add, the case of amd64).  NaN is a value of the type: a
      statement about an order is written with the comparison Go evaluates.
    - Go [int] is [Z]; no quantity of the program approaches 2^63.
    - A pair [(T, error)] is [result T]; a possibly-nil pointer is an
      [option].
    - Calls to the remote services thread an explicit environment that holds
      the remote state, the log of remote calls and the console output.
    - Third-party and standard-library functions whose code is outside the
      repository (the fuzzy scorer, the JSON decoder, [time.Parse], the HTTP
      transport) are Section variables. *)

From Stdlib Require Import ZArith String Ascii List Bool Lia DecimalString DecimalNat.
From Stdlib Require Import Floats.
From stdpp Require Import base option list gmap strings.

Set Warnings "-inexact-float".
Set Default Proof Using "Type".

Local Open Scope string_scope.
Local Open Scope list_scope.

(* ===================================================================== *)
(** * Errors and results *)

(** Go's [error] values are only ever built with [fmt.Errorf] and printed, so
    an error is its message. *)
Definition error := string.

Inductive result (A : Type) : Type :=
| Ok (a : A)
| Err (e : error).
Arguments Ok {A} a.
Arguments Err {A} e.

Definition isOk {A} (r : result A) : bool :=
  match r with Ok _ => true | Err _ => false end.

(* ===================================================================== *)
(** * The [strings] package (ASCII text) *)

Module strings.

(** The six ASCII bytes [strings.TrimSpace] removes:
    tab, newline, vertical tab, form feed, carriage return, space. *)
Definition isSpace (c : ascii) : bool :=
  let n := N_of_ascii c in
  (N.leb 9 n && N.leb n 13) || N.eqb n 32.

Definition isEmpty (s : string) : bool :=
  match s with EmptyString => true | String _ _ => false end.

Fixpoint TrimLeft (s : string) : string :=
  match s with
  | EmptyString => EmptyString
  | String c s' => if isSpace c then TrimLeft s' else s
  end.

Fixpoint TrimRight (s : string) : string :=
  match s with
  | EmptyString => EmptyString
  | String c s' =>
      let t := TrimRight s' in
      if isSpace c && isEmpty t then EmptyString else String c t
  end.

Definition TrimSpace (s : string) : string := TrimRight (TrimLeft s).

Definition lowerByte (c : ascii) : ascii :=
  let n := N_of_ascii c in
  if N.leb 65 n && N.leb n 90 then ascii_of_N (n + 32) else c.

Fixpoint ToLower (s : string) : string :=
  match s with
  | EmptyString => EmptyString
  | String c s' => String (lowerByte c) (ToLower s')
  end.

(** [strings.Contains s substr]: [substr] occurs in [s] as a contiguous run
    of bytes; the empty string occurs everywhere. *)
Fixpoint Contains (s substr : string) : bool :=
  if String.prefix substr s then true
  else match s with
       | EmptyString => false
       | String _ s' => Contains s' substr
       end.

(** [strings.Join]. *)
Definition Join (elems : list string) (sep : string) : string :=
  String.concat sep elems.

(** Go's [len] on a string, as an [int]. *)
Definition len (s : string) : Z := Z.of_nat (String.length s).

(** A string that is empty or holds whitespace only. *)
Fixpoint isBlank (s : string) : bool :=
  match s with
  | EmptyString => true
  | String c s' => isSpace c && isBlank s'
  end.

Definition firstByte (s : string) : option ascii :=
  match s with EmptyString => None | String c _ => Some c end.

Fixpoint lastByte (s : string) : option ascii :=
  match s with
  | EmptyString => None
  | String c EmptyString => Some c
  | String _ s' => lastByte s'
  end.

(** No whitespace at either end. *)
Definition isTrimmed (s : string) : Prop :=
  (forall c, firstByte s = Some c -> isSpace c = false) /\
  (forall c, lastByte s = Some c -> isSpace c = false).

End strings.

(** [strconv.Itoa] / the [%d] verb, for the non-negative counts the program
  prints. *)
Definition itoa (n : nat) : string := NilZero.string_of_uint (Nat.to_uint n).

(* ===================================================================== *)
(** * [float64] *)

Module float64.

(** The conversion [float64(n)] of an integer: the nearest binary64 value,
    ties to even. *)
Definition ofInt (n : Z) : float :=
  SF2Prim (binary_normalize prec emax n 0 false).

End float64.

(* ===================================================================== *)
(** * The data model ([internal/types/types.go]) *)

(** [time.Time], as nanoseconds counted from Go's zero time, so that the zero
    value of the type is [0]. *)
Definition Time := Z.

Module Artist.
Record t := mk {
  ID : string;
  Name : string;
  URI : string;
  Genres : list string;
}.
End Artist.

Module Album.
Record t := mk {
  ID : string;
  Name : string;
  Type_ : string;
}.
End Album.

Module Track.
Record t := mk {
  ID : string;
  Name : string;
  URI : string;
  Artists : list Artist.t;
  Duration : Z;
  Album : Album.t;
}.
End Track.

Module Playlist.
Record t := mk {
  ID : string;
  Name : string;
  URI : string;
  TrackCount : Z;
  EmbedURL : string;
  IsIncoming : bool;
}.
End Playlist.

Module DuplicateResult.
Record t := mk {
  HasDuplicates : bool;
  DuplicateTracks : list Track.t;
  LastAdded : Time;
  ArtistName : string;
  Message : string;
}.
End DuplicateResult.

Module Song.
Record t := mk {
  Artist : string;
  Title : string;
  Album : string;
  PlayedAt : Time;
  RawText : string;
}.

(** [func (s *Song) IsValid() bool] *)
Definition IsValid (s : t) : bool :=
  negb (String.eqb (Artist s) "") && negb (String.eqb (Title s) "").

(** [func (s *Song) String() string] *)
Definition String_ (s : t) : string :=
  if negb (String.eqb (Album s) "")
  then Artist s +:+ " - " +:+ Title s +:+ " (" +:+ Album s +:+ ")"
  else Artist s +:+ " - " +:+ Title s.
End Song.

Module SongCollection.
Record t := mk {
  Songs : list Song.t;
  LastUpdated : Time;
  Source : string;
}.

(** [func (sc *SongCollection) AddSong(song Song)] *)
Definition AddSong (sc : t) (song : Song.t) : t :=
  mk (Songs sc ++ [song]) (LastUpdated sc) (Source sc).
End SongCollection.

(* ===================================================================== *)
(** * The remote catalog service and the environment of a run *)

(** The methods of [types.SpotifyService] the sync engine calls.  The remote
    catalog is stateful (a playlist grows when tracks are added), so every
    method takes the remote state [W] and returns the new one. *)
Record SpotifyService (W : Type) := {
  SearchArtist : string -> W -> result Artist.t * W;
  GetArtistTopTracks : string -> W -> result (list Track.t) * W;
  AddTracksToPlaylist : string -> list string -> W -> option error * W;
  CheckTracksInPlaylist : string -> list string -> W -> result (list bool) * W;
}.
Arguments SearchArtist {W} _ _ _.
Arguments GetArtistTopTracks {W} _ _ _.
Arguments AddTracksToPlaylist {W} _ _ _ _.
Arguments CheckTracksInPlaylist {W} _ _ _ _.

(** One entry of the log of remote calls. *)
Inductive Call :=
| CallSearchArtist (query : string)
| CallGetArtistTopTracks (artistID : string)
| CallAddTracksToPlaylist (playlistID : string) (trackIDs : list string)
| CallCheckTracksInPlaylist (playlistID : string) (trackIDs : list string).

(** What [syncSongsToSpotify] prints with [fmt.Printf], one constructor per
    format string, carrying the values it formats. *)
Inductive Output :=
| OutFoundOnKMHD (song : string)
| OutCouldNotFind (err : error)
| OutLowConfidence (overall : float)
| OutFoundMatch (artist track : string) (artistConf songConf overall : float)
| OutAlreadyInPlaylist (track : string)
| OutFailedToAdd (err : error)
| OutAdded (track : string)
| OutSummary (processed synced skipped : Z) (playlist : string).

Record Env (W : Type) := mkEnv {
  remote : W;
  calls : list Call;
  stdout : list Output;
}.
Arguments mkEnv {W} _ _ _.
Arguments remote {W} _.
Arguments calls {W} _.
Arguments stdout {W} _.

(** Computations that call the remote service and print. *)
Definition M (W A : Type) : Type := Env W -> A * Env W.

Definition ret {W A} (a : A) : M W A := fun e => (a, e).

Definition bind {W A B} (m : M W A) (k : A -> M W B) : M W B :=
  fun e => let '(a, e') := m e in k a e'.

Declare Scope go_scope.
Delimit Scope go_scope with go.
Notation "'let*' x ':=' m 'in' k" := (bind m (fun x => k))
  (at level 10, x pattern, m at level 100, k at level 200) : go_scope.

Definition print {W} (o : Output) : M W unit :=
  fun e => (tt, mkEnv (remote e) (calls e) (stdout e ++ [o])).

Definition remoteCall {W A} (c : Call) (f : W -> A * W) : M W A :=
  fun e => let '(a, w) := f (remote e) in
           (a, mkEnv w (calls e ++ [c]) (stdout e)).

(* ===================================================================== *)
(** * The catalog matcher ([internal/search/fuzzy_song_searcher.go]) *)

Module SongMatch.
Record t := mk {
  Artist : Artist.t;
  Track : Track.t;
  ArtistQuery : string;
  SongQuery : string;
  AlbumQuery : string;
  ArtistConfidence : float;
  SongConfidence : float;
  AlbumConfidence : float;
  OverallConfidence : float;
}.

(** [func (sm SongMatch) IsHighConfidence() bool] *)
Definition IsHighConfidence (sm : t) : bool :=
  (0.8 <=? OverallConfidence sm)%float.

(** [func (sm SongMatch) IsLowConfidence() bool] *)
Definition IsLowConfidence (sm : t) : bool :=
  (OverallConfidence sm <? 0.5)%float.
End SongMatch.

(** The state of the selection loop of [FindBestSongMatchWithAlbum]: its four
    [best...] variables. *)
Record Best := mkBest {
  bestTrack : Track.t;
  bestSongConfidence : float;
  bestAlbumConfidence : float;
  bestOverallConfidence : float;
}.

Section Matcher.

(** [fuzzy.Find(pattern, []string{item})] of github.com/sahilm/fuzzy, whose
    code is not part of the repository: [Some score] when the single item
    matches (the score of [matches[0]]), [None] when [len(matches) == 0]. *)
Variable fuzzyFind : string -> string -> option Z.

Local Open Scope float_scope.

(** [func (f *FuzzySongSearcher) calculateMatchConfidence(query, itemName string) float64] *)
Definition calculateMatchConfidence (query itemName : string) : float :=
  let normalizedQuery := strings.ToLower (strings.TrimSpace query) in
  let normalizedItem := strings.ToLower (strings.TrimSpace itemName) in
  if String.eqb normalizedQuery normalizedItem then 1.0
  else if strings.Contains normalizedItem normalizedQuery then
    let ratio := float64.ofInt (strings.len normalizedQuery)
                 / float64.ofInt (strings.len normalizedItem) in
    0.8 + (ratio * 0.2)
  else if strings.Contains normalizedQuery normalizedItem then
    let ratio := float64.ofInt (strings.len normalizedItem)
                 / float64.ofInt (strings.len normalizedQuery) in
    0.7 + (ratio * 0.2)
  else
    match fuzzyFind normalizedQuery normalizedItem with
    | Some score =>
        let fuzzyScore := float64.ofInt score in
        let maxExpectedScore := float64.ofInt (strings.len normalizedQuery * 2) in
        let confidence := (fuzzyScore / maxExpectedScore) * 0.7 in
        let confidence := if 0.7 <? confidence then 0.7 else confidence in
        let confidence := if confidence <? 0.1 then 0.1 else confidence in
        confidence
    | None => 0.1
    end.

(** [func (f *FuzzySongSearcher) calculateAlbumConfidence(albumQuery string, track *types.Track) float64];
    the pointer may be nil. *)
Definition calculateAlbumConfidence (albumQuery : string) (track : option Track.t) : float :=
  if String.eqb (strings.TrimSpace albumQuery) "" then 0.5
  else
    match track with
    | None => 0.5
    | Some tr =>
        if String.eqb (strings.TrimSpace (Album.Name (Track.Album tr))) "" then 0.5
        else calculateMatchConfidence albumQuery (Album.Name (Track.Album tr))
    end.

(** One iteration of the loop [for i := 1; i < len(tracks); i++]. *)
Definition considerTrack (songQuery albumQuery : string) (artistConfidence : float)
    (best : Best) (track : Track.t) : Best :=
  let trackSongConfidence := calculateMatchConfidence songQuery (Track.Name track) in
  let trackAlbumConfidence := calculateAlbumConfidence albumQuery (Some track) in
  let trackOverallConfidence :=
    (artistConfidence * 0.5) + (trackSongConfidence * 0.35) + (trackAlbumConfidence * 0.15) in
  if bestOverallConfidence best <? trackOverallConfidence
  then mkBest track trackSongConfidence trackAlbumConfidence trackOverallConfidence
  else best.

(** The selection over a non-empty track list [track0 :: rest]: the
    initialisation from [tracks[0]] and the loop over the other tracks. *)
Definition selectBest (songQuery albumQuery : string) (artistConfidence : float)
    (track0 : Track.t) (rest : list Track.t) : Best :=
  let bestSongConfidence := calculateMatchConfidence songQuery (Track.Name track0) in
  let bestAlbumConfidence := calculateAlbumConfidence albumQuery (Some track0) in
  let bestOverallConfidence :=
    (artistConfidence * 0.5) + (bestSongConfidence * 0.35) + (bestAlbumConfidence * 0.15) in
  fold_left (considerTrack songQuery albumQuery artistConfidence) rest
    (mkBest track0 bestSongConfidence bestAlbumConfidence bestOverallConfidence).

Context {W : Type}.
Variable spotify : SpotifyService W.

Local Open Scope go_scope.

(** [func (f *FuzzySongSearcher) FindBestSongMatchWithAlbum(artistQuery, songQuery, albumQuery string)],
    returning a [SongMatch] pointer and an [error] *)
Definition FindBestSongMatchWithAlbum (artistQuery songQuery albumQuery : string)
    : M W (result SongMatch.t) :=
  if String.eqb (strings.TrimSpace artistQuery) "" then
    ret (Err "artist query cannot be empty")
  else
    let* r := remoteCall (CallSearchArtist artistQuery)
                (SearchArtist spotify artistQuery) in
    match r with
    | Err err => ret (Err ("failed to search for artist: " +:+ err))
    | Ok artist =>
        let artistConfidence := calculateMatchConfidence artistQuery (Artist.Name artist) in
        let* r := remoteCall (CallGetArtistTopTracks (Artist.ID artist))
                    (GetArtistTopTracks spotify (Artist.ID artist)) in
        match r with
        | Err err => ret (Err ("failed to get artist tracks: " +:+ err))
        | Ok [] => ret (Err ("no tracks found for artist " +:+ Artist.Name artist))
        | Ok (track0 :: rest) =>
            if String.eqb (strings.TrimSpace songQuery) "" then
              let albumConfidence := calculateAlbumConfidence albumQuery (Some track0) in
              let overallConfidence :=
                ((artistConfidence * 0.5) + (1.0 * 0.35) + (albumConfidence * 0.15))%float in
              ret (Ok (SongMatch.mk artist track0 artistQuery "" albumQuery
                         artistConfidence 1.0 albumConfidence overallConfidence))
            else
              let best := selectBest songQuery albumQuery artistConfidence track0 rest in
              let overallConfidence := bestOverallConfidence best in
              ret (Ok (SongMatch.mk artist (bestTrack best) artistQuery songQuery albumQuery
                         artistConfidence (bestSongConfidence best)
                         (bestAlbumConfidence best) overallConfidence))
        end
    end.

(** [func (f *FuzzySongSearcher) FindBestSongMatch(artistQuery, songQuery string)] *)
Definition FindBestSongMatch (artistQuery songQuery : string) : M W (result SongMatch.t) :=
  FindBestSongMatchWithAlbum artistQuery songQuery "".

End Matcher.

(* ===================================================================== *)
(** * The feed client ([internal/api/kmhd.go]) *)

Module CompleteTrack.
Record t := mk {
  ID : string;
  Duration : Z;
  StartTime : string;
  ArtistName : string;
  TrackName : string;
  CollectionName : string;
  ArtistID : Z;
  CollectionID : Z;
  TrackID : Z;
  PreviewURL : string;
  ArtworkURL30 : string;
  ArtworkURL60 : string;
  ArtworkURL100 : string;
  ReleaseDate : string;
  Country : string;
  Currency : string;
  PrimaryGenre : string;
}.
End CompleteTrack.

Module MinimalTrack.
Record t := mk {
  ID : string;
  Duration : Z;
  StartTime : string;
  ArtistName : string;
  TrackName : string;
  CollectionName : string;
}.
End MinimalTrack.

(** A value of a [map[string]interface{}] decoded from JSON, as far as the
    type assertion [.(string)] can tell. *)
Inductive JSONValue :=
| JSONString (s : string)
| JSONOther.

(** [v, _ := m[key].(string)]: the string, or the empty string when the key
    is absent or holds another type. *)
Definition asString (m : gmap string JSONValue) (key : string) : string :=
  match m !! key with
  | Some (JSONString s) => s
  | _ => ""
  end.

Module Response.
Record t := mk {
  StatusCode : Z;
  Status : string;
  Body : string;
}.
End Response.

(** The two returns of [httpClient.Do]: an error, or a response. *)
Inductive DoResult :=
| DoError (err : error)
| DoResponse (resp : Response.t).

(** What a call of [FetchPlaylist] does on the network and the clock. *)
Inductive HttpEvent :=
| EvDo (attempt : nat)
| EvSleep (d : Z).

(** [time.Second], in nanoseconds. *)
Definition Second : Z := 1000000000.

Definition StatusOK : Z := 200.
Definition StatusBadGateway : Z := 502.
Definition StatusGatewayTimeout : Z := 504.

(** [time.Parse] layouts tried by [parseISO8601Timestamp], in order. *)
Definition timestampFormats : list string :=
  [ "2006-01-02T15:04:05Z07:00";
    "2006-01-02T15:04:05.999999999Z07:00";
    "2006-01-02T15:04:05.000Z07:00";
    "2006-01-02T15:04:05.000-07:00";
    "2006-01-02T15:04:05-07:00";
    "2006-01-02T15:04:05Z";
    "2006-01-02T15:04:05.000Z" ].

Section FeedClient.

(** Standard-library behaviour the client relies on. *)

(** [json.Unmarshal] into a [CompleteTrack], a [MinimalTrack] and a
    [map[string]interface{}]: [None] / [Err] when it returns an error. *)
Variable unmarshalComplete : string -> option CompleteTrack.t.
Variable unmarshalMinimal : string -> option MinimalTrack.t.
Variable unmarshalMap : string -> result (gmap string JSONValue).
(** [json.NewDecoder(body).Decode] into an [APIResponse], a slice of raw
    messages. *)
Variable decodeAPIResponse : string -> result (list string).
(** [time.Parse layout value]. *)
Variable timeParse : string -> string -> option Time.
(** The reading of [time.Now()] during the call. *)
Variable timeNow : Time.
(** [buildAPIURL] (time-zone conversion, formatting and escaping, all done by
    library calls) and [http.NewRequest] on its result. *)
Variable buildAPIURL : Time -> string.
Variable httpNewRequest : string -> option error.
(** [httpClient.Do(req)]: what the [attempt]-th request of this call meets. *)
Variable Do : nat -> DoResult.

(** [func (c *KMHDAPIClient) parseISO8601Timestamp(timestamp string) (time.Time, error)] *)
Definition parseISO8601Timestamp (timestamp : string) : result Time :=
  let fix try (formats : list string) : result Time :=
    match formats with
    | [] => Err ("unable to parse timestamp " +:+ timestamp +:+ " with any known ISO 8601 format")
    | format :: formats' =>
        match timeParse format timestamp with
        | Some parsedTime => Ok parsedTime
        | None => try formats'
        end
    end in
  try timestampFormats.

(** [func (c *KMHDAPIClient) mapTrackToSong(artistName, trackName, collectionName, startTime, rawJSON string)];
    it never returns an error. *)
Definition mapTrackToSong (artistName trackName collectionName startTime rawJSON : string)
    : Song.t :=
  let playedAt :=
    if negb (String.eqb startTime "") then
      match parseISO8601Timestamp startTime with
      | Err _ => timeNow
      | Ok parsedTime => parsedTime
      end
    else timeNow in
  Song.mk (strings.TrimSpace artistName) (strings.TrimSpace trackName)
          (strings.TrimSpace collectionName) playedAt rawJSON.

(** [func (c *KMHDAPIClient) parseTrackObject(rawTrack json.RawMessage)].
    Its error texts only reach the log; the quoting of [%q] is left out. *)
Definition parseTrackObject (rawTrack : string) : result Song.t :=
  let tryMap :=
    match unmarshalMap rawTrack with
    | Err err => Err ("failed to unmarshal track object: " +:+ err)
    | Ok rawMap =>
        let artistName := asString rawMap "artistName" in
        let trackName := asString rawMap "trackName" in
        let collectionName := asString rawMap "collectionName" in
        let startTime := asString rawMap "_start_time" in
        if String.eqb artistName "" || String.eqb trackName "" then
          Err ("missing required fields: artistName=" +:+ artistName
               +:+ ", trackName=" +:+ trackName)
        else Ok (mapTrackToSong artistName trackName collectionName startTime rawTrack)
    end in
  let tryMinimal :=
    match unmarshalMinimal rawTrack with
    | Some minimalTrack =>
        if negb (String.eqb (MinimalTrack.ArtistName minimalTrack) "")
           && negb (String.eqb (MinimalTrack.TrackName minimalTrack) "")
        then Ok (mapTrackToSong (MinimalTrack.ArtistName minimalTrack)
                   (MinimalTrack.TrackName minimalTrack)
                   (MinimalTrack.CollectionName minimalTrack)
                   (MinimalTrack.StartTime minimalTrack) rawTrack)
        else tryMap
    | None => tryMap
    end in
  match unmarshalComplete rawTrack with
  | Some completeTrack =>
      if negb (String.eqb (CompleteTrack.ArtistName completeTrack) "")
         && negb (String.eqb (CompleteTrack.TrackName completeTrack) "")
      then Ok (mapTrackToSong (CompleteTrack.ArtistName completeTrack)
                 (CompleteTrack.TrackName completeTrack)
                 (CompleteTrack.CollectionName completeTrack)
                 (CompleteTrack.StartTime completeTrack) rawTrack)
      else tryMinimal
  | None => tryMinimal
  end.

(** The body of the loop [for i, rawTrack := range apiResponse]. *)
Definition parseEntry (collection : SongCollection.t) (rawTrack : string)
    : SongCollection.t :=
  match parseTrackObject rawTrack with
  | Err _ => collection
  | Ok song =>
      if Song.IsValid song then SongCollection.AddSong collection song
      else collection
  end.

(** [func (c *KMHDAPIClient) parseResponse(apiResponse APIResponse)];
    it never returns an error. *)
Definition parseResponse (apiResponse : list string) : SongCollection.t :=
  fold_left parseEntry apiResponse (SongCollection.mk [] timeNow "kmhd_api").

(** The condition under which the retry loop does not [break]. *)
Definition mustRetry (r : DoResult) : bool :=
  match r with
  | DoError _ => true
  | DoResponse resp =>
      negb (negb (Z.eqb (Response.StatusCode resp) StatusBadGateway)
            && negb (Z.eqb (Response.StatusCode resp) StatusGatewayTimeout))
  end.

(** The loop [for attempt := 1; attempt <= maxRetries; attempt++].  [last]
    holds the loop's [resp, err] pair, [None] while both are nil.  [fuel]
    bounds the number of evaluations of the loop condition. *)
Fixpoint requestLoop (maxRetries fuel attempt : nat) (last : option DoResult)
    : list HttpEvent * option DoResult :=
  match fuel with
  | O => ([], last)
  | S fuel' =>
      if (maxRetries <? attempt)%nat then ([], last)
      else
        let r := Do attempt in
        if negb (mustRetry r) then ([EvDo attempt], Some r)
        else
          let sleep :=
            if (attempt <? maxRetries)%nat
            then [EvSleep (Z.of_nat attempt * 2 * Second)]
            else [] in
          let '(events, final) := requestLoop maxRetries fuel' (S attempt) (Some r) in
          (EvDo attempt :: sleep ++ events, final)
  end.

(** [func (c *KMHDAPIClient) FetchPlaylist(date time.Time)]:
    the network and clock events of the call, and its return. *)
Definition FetchPlaylist (date : Time) : list HttpEvent * result SongCollection.t :=
  match httpNewRequest (buildAPIURL date) with
  | Some err => ([], Err ("failed to create HTTP request: " +:+ err))
  | None =>
      let maxRetries := 3%nat in
      let '(events, final) := requestLoop maxRetries (S maxRetries) 1 None in
      (events,
       match final with
       | None => Err "nil response" (* both nil: never the case, see [requestLoop_three] *)
       | Some (DoError err) =>
           Err ("failed to make HTTP request after " +:+ itoa maxRetries
                +:+ " attempts: " +:+ err)
       | Some (DoResponse resp) =>
           if negb (Z.eqb (Response.StatusCode resp) StatusOK) then
             Err ("API returned status " +:+ itoa (Z.to_nat (Response.StatusCode resp))
                  +:+ ": " +:+ Response.Status resp)
           else
             match decodeAPIResponse (Response.Body resp) with
             | Err err => Err ("failed to decode JSON response: " +:+ err)
             | Ok apiResponse => Ok (parseResponse apiResponse)
             end
       end)
  end.

End FeedClient.

(* ===================================================================== *)
(** * The duplicate service (package [duplicate]) *)

(** The loop [for i, exists := range existsResults] of [CheckDuplicates]:
    [tracks[i]] is collected when [exists && i < len(tracks)]. *)
Fixpoint collectDuplicates (tracks : list Track.t) (i : nat) (existsResults : list bool)
    : list Track.t :=
  match existsResults with
  | [] => []
  | exists_ :: rest =>
      match (if exists_ then tracks !! i else None) with
      | Some track => track :: collectDuplicates tracks (S i) rest
      | None => collectDuplicates tracks (S i) rest
      end
  end.

Section DuplicateService.

Context {W : Type}.
Variable spotify : SpotifyService W.
(** The reading of [time.Now()] during the call. *)
Variable timeNow : Time.

Local Open Scope go_scope.

(** [func (d *DuplicateService) CheckDuplicates(playlistID string, tracks []types.Track)] *)
Definition CheckDuplicates (playlistID : string) (tracks : list Track.t)
    : M W (result DuplicateResult.t) :=
  if Nat.eqb (length tracks) 0 then
    ret (Ok (DuplicateResult.mk false [] 0%Z "" "No tracks to check"))
  else
    let trackIDs := map Track.ID tracks in
    let* r := remoteCall (CallCheckTracksInPlaylist playlistID trackIDs)
                (CheckTracksInPlaylist spotify playlistID trackIDs) in
    match r with
    | Err err => ret (Err ("failed to check tracks in playlist: " +:+ err))
    | Ok existsResults =>
        let duplicateTracks := collectDuplicates tracks 0 existsResults in
        let duplicateTrackNames := map Track.Name duplicateTracks in
        let hasDuplicates := (0 <? length duplicateTracks)%nat in
        let message :=
          if hasDuplicates
          then "Found " +:+ itoa (length duplicateTracks) +:+ " duplicate track(s): "
               +:+ strings.Join duplicateTrackNames ", "
          else "No duplicate tracks found" in
        ret (Ok (DuplicateResult.mk hasDuplicates duplicateTracks timeNow "" message))
    end.

End DuplicateService.

(* ===================================================================== *)
(** * The sync command (package [cmd]) *)

(** [fmt.Sprintf("%s - %s", song.Artist, song.Title)] *)
Definition songKey (song : Song.t) : string :=
  Song.Artist song +:+ " - " +:+ Song.Title song.

(** The variables [filterNewSongs] updates: its local [newSongs], the
    caller's cycle map [seenSongs], which it shares, and the package-level
    map [globalSeenSongs]. *)
Record Seen := mkSeen {
  newSongs : list Song.t;
  seenSongs : gmap string bool;
  globalSeenSongs : gmap string Time;
}.

(** The body of the loop [for i, song := range songs]; [now] is the reading
    of [time.Now()]. *)
Definition filterSong (now : Time) (st : Seen) (song : Song.t) : Seen :=
  if negb (Song.IsValid song) then st
  else
    let songKey := songKey song in
    let cycleSeenBefore := default false (seenSongs st !! songKey) in
    let globalSeenBefore := bool_decide (is_Some (globalSeenSongs st !! songKey)) in
    if cycleSeenBefore then st
    else if globalSeenBefore then st
    else mkSeen (newSongs st ++ [song])
                (<[songKey := true]> (seenSongs st))
                (<[songKey := now]> (globalSeenSongs st)).

(** [func filterNewSongs(songs []types.Song, seenSongs map[string]bool) []types.Song],
    with the two maps it reads and writes made explicit. *)
Definition filterNewSongs (now : Time) (songs : list Song.t)
    (seenSongs : gmap string bool) (globalSeenSongs : gmap string Time) : Seen :=
  fold_left (filterSong now) songs (mkSeen [] seenSongs globalSeenSongs).

(** The two counters of [syncSongsToSpotify]. *)
Record Tally := mkTally {
  syncedCount : Z;
  skippedCount : Z;
}.

Definition skip (t : Tally) : Tally := mkTally (syncedCount t) (skippedCount t + 1).
Definition synced (t : Tally) : Tally := mkTally (syncedCount t + 1) (skippedCount t).

Section Sync.

Variable fuzzyFind : string -> string -> option Z.
Context {W : Type}.
Variable spotify : SpotifyService W.

Local Open Scope go_scope.

(** The body of the loop [for i, song := range songs] of
    [syncSongsToSpotify]; every [continue] is a return of the tally. *)
Definition syncSong (targetPlaylist : Playlist.t) (tally : Tally) (song : Song.t)
    : M W Tally :=
  let* _ := print (OutFoundOnKMHD (Song.String_ song)) in
  let* r := FindBestSongMatchWithAlbum fuzzyFind spotify
              (Song.Artist song) (Song.Title song) (Song.Album song) in
  match r with
  | Err err =>
      let* _ := print (OutCouldNotFind err) in
      ret (skip tally)
  | Ok songMatch =>
      if (SongMatch.OverallConfidence songMatch <? 0.5)%float then
        let* _ := print (OutLowConfidence (SongMatch.OverallConfidence songMatch)) in
        ret (skip tally)
      else
        let* _ := print (OutFoundMatch
                           (Artist.Name (SongMatch.Artist songMatch))
                           (Track.Name (SongMatch.Track songMatch))
                           (SongMatch.ArtistConfidence songMatch)
                           (SongMatch.SongConfidence songMatch)
                           (SongMatch.OverallConfidence songMatch)) in
        let trackIDs := [Track.ID (SongMatch.Track songMatch)] in
        let* r := remoteCall
                    (CallCheckTracksInPlaylist (Playlist.ID targetPlaylist) trackIDs)
                    (CheckTracksInPlaylist spotify (Playlist.ID targetPlaylist) trackIDs) in
        let alreadyThere :=
          match r with
          | Err _ => false
          | Ok existing => (0 <? length existing)%nat && default false (existing !! 0%nat)
          end in
        if alreadyThere then
          let* _ := print (OutAlreadyInPlaylist (Track.Name (SongMatch.Track songMatch))) in
          ret (skip tally)
        else
          let* err := remoteCall
                        (CallAddTracksToPlaylist (Playlist.ID targetPlaylist) trackIDs)
                        (AddTracksToPlaylist spotify (Playlist.ID targetPlaylist) trackIDs) in
          match err with
          | Some err =>
              let* _ := print (OutFailedToAdd err) in
              ret (skip tally)
          | None =>
              let* _ := print (OutAdded (Track.Name (SongMatch.Track songMatch))) in
              ret (synced tally)
          end
  end.

(** The loop over [songs], threading the tally. *)
Fixpoint syncLoop (targetPlaylist : Playlist.t) (songs : list Song.t) (tally : Tally)
    : M W Tally :=
  match songs with
  | [] => ret tally
  | song :: songs' =>
      let* tally' := syncSong targetPlaylist tally song in
      syncLoop targetPlaylist songs' tally'
  end.

(** [func syncSongsToSpotify(songs, spotifyService, fuzzySongSearcher, targetPlaylist, seenSongs)].
    The Go function returns nothing; the final values of its two counters are
    returned here, and printed in its summary. *)
Definition syncSongsToSpotify (songs : list Song.t) (targetPlaylist : Playlist.t)
    : M W Tally :=
  let* tally := syncLoop targetPlaylist songs (mkTally 0 0) in
  if (0 <? length songs)%nat then
    let* _ := print (OutSummary (Z.of_nat (length songs)) (syncedCount tally)
                       (skippedCount tally) (Playlist.Name targetPlaylist)) in
    ret tally
  else ret tally.

End Sync.

(* ===================================================================== *)
(** * Vocabulary of the statements *)

(** The weighting law in the order the specification writes it. *)
Definition weighted (artistConfidence songConfidence albumConfidence : float) : float :=
  (0.5 * artistConfidence + 0.35 * songConfidence + 0.15 * albumConfidence)%float.


(** The normal form under which the matcher compares strings. *)
Definition normalize (s : string) : string :=
  strings.ToLower (strings.TrimSpace s).

(** The overall confidence the matcher computes for a candidate track. *)
Definition trackOverall (fuzzyFind : string -> string -> option Z)
    (artistConfidence : float) (songQuery albumQuery : string)
    (track : Track.t) : float :=
  weighted artistConfidence
    (calculateMatchConfidence fuzzyFind songQuery (Track.Name track))
    (calculateAlbumConfidence fuzzyFind albumQuery (Some track)).

(** The loop variables of the selection describe one track of the list: its
    position [i], its two confidences and its weighted overall confidence;
    no track of the list has a greater overall confidence, and no earlier
    track has an equal one. *)
Record BestOf (fuzzyFind : string -> string -> option Z)
    (artistConfidence : float) (songQuery albumQuery : string)
    (tracks : list Track.t) (i : nat) (b : Best) : Prop := {
  best_at : tracks !! i = Some (bestTrack b);
  best_song :
    bestSongConfidence b
    = calculateMatchConfidence fuzzyFind songQuery (Track.Name (bestTrack b));
  best_album :
    bestAlbumConfidence b
    = calculateAlbumConfidence fuzzyFind albumQuery (Some (bestTrack b));
  best_overall :
    bestOverallConfidence b
    = trackOverall fuzzyFind artistConfidence songQuery albumQuery (bestTrack b);
  best_max : forall j t, tracks !! j = Some t ->
    (bestOverallConfidence b
     <? trackOverall fuzzyFind artistConfidence songQuery albumQuery t)%float = false;
  best_first : forall j t, (j < i)%nat -> tracks !! j = Some t ->
    (trackOverall fuzzyFind artistConfidence songQuery albumQuery t
     =? bestOverallConfidence b)%float = false;
}.

(** Whether [filterNewSongs] skips a key in a given state: the key is marked
    in the cycle map or present in the process-lifetime map. *)
Definition seenBefore (st : Seen) (key : string) : bool :=
  default false (seenSongs st !! key)
  || bool_decide (is_Some (globalSeenSongs st !! key)).

(** The first song of each key that [isSeen] does not already hold, in list
    order. *)
Fixpoint firstNew (isSeen : string -> bool) (songs : list Song.t) : list Song.t :=
  match songs with
  | [] => []
  | song :: rest =>
      if isSeen (songKey song) then firstNew isSeen rest
      else song :: firstNew (fun k => String.eqb k (songKey song) || isSeen k) rest
  end.

(** The first valid song of each distinct "artist - title" key. *)
Definition firstPerKey (songs : list Song.t) : list Song.t :=
  firstNew (fun _ => false) (List.filter Song.IsValid songs).

(** A transient failure of one request: a network error, HTTP 502 or
    HTTP 504. *)
Definition isTransient (r : DoResult) : bool :=
  match r with
  | DoError _ => true
  | DoResponse resp =>
      Z.eqb (Response.StatusCode resp) 502 || Z.eqb (Response.StatusCode resp) 504
  end.

(** The requests among the events of a call. *)
Definition isRequest (ev : HttpEvent) : bool :=
  match ev with EvDo _ => true | EvSleep _ => false end.

(** What [FetchPlaylist] returns once a response is accepted: the decoded and
    parsed body. *)
Definition accepted (decodeAPIResponse : string -> result (list string))
    (parse : list string -> SongCollection.t) (resp : Response.t)
    : result SongCollection.t :=
  match decodeAPIResponse (Response.Body resp) with
  | Err err => Err ("failed to decode JSON response: " +:+ err)
  | Ok apiResponse => Ok (parse apiResponse)
  end.

(** The songs announced at the head of an iteration of the sync loop. *)
Fixpoint announced (out : list Output) : list string :=
  match out with
  | [] => []
  | OutFoundOnKMHD song :: out' => song :: announced out'
  | _ :: out' => announced out'
  end.




(** In a cycle that started with both maps empty, the two maps hold the same
    keys, all marked [true] and stamped [now]. *)
Definition inStep (now : Time) (st : Seen) : Prop :=
  forall k, (is_Some (globalSeenSongs st !! k) ->
             seenSongs st !! k = Some true /\ globalSeenSongs st !! k = Some now)
            /\ (default false (seenSongs st !! k) = true ->
                is_Some (globalSeenSongs st !! k)).

(** The return of [FetchPlaylist], by the last outcome of its retry loop. *)
Definition afterLoop (decodeAPIResponse : string -> result (list string))
    (parse : list string -> SongCollection.t) (final : DoResult)
    : result SongCollection.t :=
  match final with
  | DoError err =>
      Err ("failed to make HTTP request after 3 attempts: " +:+ err)
  | DoResponse resp =>
      if (Response.StatusCode resp =? 200)%Z
      then accepted decodeAPIResponse parse resp
      else Err ("API returned status " +:+ itoa (Z.to_nat (Response.StatusCode resp))
                +:+ ": " +:+ Response.Status resp)
  end.

(** The song emitted for a feed entry: built by [mapTrackToSong] from an
    artist name and a track name that are not blank. *)
Definition emittedFrom (timeParse : string -> string -> option Time) (timeNow : Time)
    (apiResponse : list string) (s : Song.t) : Prop :=
  exists raw artistName trackName collectionName startTime,
    raw ∈ apiResponse /\
    s = mapTrackToSong timeParse timeNow artistName trackName collectionName startTime raw /\
    strings.isBlank artistName = false /\
    strings.isBlank trackName = false.


(* ===================================================================== *)
(** * A small catalog to run the embedding on *)

Module Demo.

(** A stand-in for the fuzzy scorer: the pattern matches when its bytes
    occur in the item in order, and scores its length. *)
Fixpoint isSubsequence (pattern item : string) : bool :=
  match pattern, item with
  | EmptyString, _ => true
  | String _ _, EmptyString => false
  | String p pattern', String c item' =>
      if Ascii.eqb p c then isSubsequence pattern' item'
      else isSubsequence pattern item'
  end.

Definition fuzzyFind (pattern item : string) : option Z :=
  if isSubsequence pattern item then Some (strings.len pattern) else None.

Definition track (id name albumName : string) : Track.t :=
  Track.mk id name ("spotify:track:" +:+ id) [] 0
    (Album.mk ("album:" +:+ albumName) albumName "album").

Definition miles : Artist.t :=
  Artist.mk "a1" "Miles Davis" "spotify:artist:a1" ["jazz"].

Definition soWhat : Track.t := track "t1" "So What" "Kind of Blue".
Definition blueInGreen : Track.t := track "t2" "Blue in Green" "Kind of Blue".
Definition milestones : Track.t := track "t3" "Milestones" "Milestones".
Definition untitled : Track.t := track "t4" "Untitled" "".

Definition topTracks : list Track.t := [soWhat; blueInGreen; milestones; untitled].

(** The remote state is the list of track ids in the one playlist. *)
Definition service : SpotifyService (list string) := {|
  SearchArtist q w :=
    (if strings.Contains "miles davis" (normalize q) then Ok miles
     else Err ("no artists found for query: " +:+ q), w);
  GetArtistTopTracks id w :=
    (if String.eqb id "a1" then Ok topTracks
     else Err ("failed to get top tracks for artist " +:+ id), w);
  AddTracksToPlaylist _ ids w := (None, w ++ ids);
  CheckTracksInPlaylist _ ids w :=
    (Ok (map (fun id => existsb (String.eqb id) w) ids), w);
|}.

Definition env0 : Env (list string) := mkEnv [] [] [].

Definition playlist : Playlist.t :=
  Playlist.mk "p1" "KMHD-2025-10" "spotify:playlist:p1" 0 "" false.

(** A feed: two plays of the same title at different times, another title,
    and a record without a title. *)
Definition morningPlay : Song.t := Song.mk "Miles Davis" "So What" "Kind of Blue" 900%Z "{1}".
Definition eveningPlay : Song.t := Song.mk "Miles Davis" "So What" "Kind of Blue" 1700%Z "{2}".
Definition giantSteps : Song.t := Song.mk "John Coltrane" "Giant Steps" "Giant Steps" 1000%Z "{3}".
Definition noTitle : Song.t := Song.mk "Bill Evans" "" "" 1100%Z "{4}".

Definition feed : list Song.t := [morningPlay; giantSteps; noTitle; eveningPlay].

(** A toy wire format standing in for JSON: fields separated by [|], entries
    by [;]. *)
Fixpoint splitOn (sep : ascii) (s : string) : list string :=
  match s with
  | EmptyString => [EmptyString]
  | String c s' =>
      if Ascii.eqb c sep then EmptyString :: splitOn sep s'
      else match splitOn sep s' with
           | [] => [String c EmptyString]
           | field :: fields => String c field :: fields
           end
  end.

Definition field (n : nat) (raw : string) : string :=
  nth n (splitOn "|" raw) "".

Definition unmarshalComplete (raw : string) : option CompleteTrack.t := None.

Definition unmarshalMinimal (raw : string) : option MinimalTrack.t :=
  Some (MinimalTrack.mk "" 0 "" (field 0 raw) (field 1 raw) (field 2 raw)).

Definition unmarshalMap (raw : string) : result (gmap string JSONValue) :=
  Ok (<["artistName" := JSONString (field 0 raw)]>
      (<["trackName" := JSONString (field 1 raw)]> ∅)).

Definition decodeAPIResponse (body : string) : result (list string) :=
  Ok (splitOn ";" body).

Definition timeParse (layout value : string) : option Time := None.

Definition buildAPIURL (date : Time) : string :=
  "https://www.kmhd.org/pf/api/v3/content/fetch/playlist".

Definition httpNewRequest (url : string) : option error := None.

Definition body : string :=
  " Miles Davis |So What|Kind of Blue;   |Blue in Green|;John Coltrane|Giant Steps |".

(** A server that answers 502 twice and then 200. *)
Definition flaky (attempt : nat) : DoResult :=
  if (attempt <? 3)%nat then DoResponse (Response.mk 502 "502 Bad Gateway" "")
  else DoResponse (Response.mk 200 "200 OK" body).

(** A server that is down. *)
Definition down (attempt : nat) : DoResult :=
  DoError "connection refused".

Definition fetch (Do : nat -> DoResult) : list HttpEvent * result SongCollection.t :=
  FetchPlaylist unmarshalComplete unmarshalMinimal unmarshalMap decodeAPIResponse
    timeParse 42%Z buildAPIURL httpNewRequest Do 0%Z.

End Demo.

(* ===================================================================== *)
(** * More of the program: the search command, the playlist service, the
      scheduler and the catalog client *)

(** ** [searchSongs] (the [search] command of package [cmd]) *)



(** ** [FilterPlaylistsBySearch] ([internal/playlist/playlist.go]) *)


(** ** [GetCurrentlyPlaying] ([internal/api/kmhd.go]) *)

(** The extreme values of [time.Duration], an [int64] of nanoseconds. *)
Definition minDuration : Z := - 2 ^ 63.
Definition maxDuration : Z := 2 ^ 63 - 1.

(** [t.Sub(u)]: the difference, saturated at the extreme durations. *)
Definition Sub (t u : Time) : Z :=
  if (t - u <? minDuration)%Z then minDuration
  else if (maxDuration <? t - u)%Z then maxDuration
  else (t - u)%Z.

(** [time.Hour], in nanoseconds. *)
Definition Hour : Z := 3600 * Second.

(** The loop [for i := range collection.Songs] of [GetCurrentlyPlaying]: its
    variables [minTimeDiff] and [currentSong], the latter [None] while nil. *)
Definition closerSong (now : Time) (acc : Z * option Song.t) (song : Song.t)
    : Z * option Song.t :=
  let '(minTimeDiff, currentSong) := acc in
  let timeDiff := Sub now (Song.PlayedAt song) in
  if (0 <=? timeDiff)%Z && (timeDiff <? minTimeDiff)%Z
  then (timeDiff, Some song)
  else (minTimeDiff, currentSong).

(** [func (c *KMHDAPIClient) GetCurrentlyPlaying()], given what its call of
    [FetchPlaylist] returned and the reading [now] of the clock after it. *)
Definition GetCurrentlyPlaying (fetched : result SongCollection.t) (now : Time)
    : result Song.t :=
  match fetched with
  | Err err => Err ("failed to fetch current playlist: " +:+ err)
  | Ok collection =>
      match SongCollection.Songs collection with
      | [] => Err "no songs found in current playlist"
      | first :: _ =>
          let '(_, currentSong) :=
            fold_left (closerSong now) (SongCollection.Songs collection)
              ((24 * Hour)%Z, None) in
          match currentSong with
          | Some song => Ok song
          | None => Ok first
          end
      end
  end.

(** ** The scheduler's delay (the [sync] command of package [cmd]) *)

(** An [int64] result: the mathematical value wrapped into the 64-bit
    two's-complement range. *)
Definition wrap64 (z : Z) : Z := ((z + 2 ^ 63) mod 2 ^ 64 - 2 ^ 63)%Z.

(** [func generateSecureRandomInt(max int64) int64]: [randInt] is what
    [rand.Int(rand.Reader, big.NewInt(max))] returns, [unixNano] the reading
    of [time.Now().UnixNano()]; Go's [%] truncates towards zero. *)
Definition generateSecureRandomInt (randInt : Z -> result Z) (unixNano : Z) (max : Z) : Z :=
  match randInt max with
  | Err _ => Z.rem unixNano max
  | Ok n => n
  end.

(** [func calculateNextSyncTime(baseInterval time.Duration) time.Duration] *)
Definition calculateNextSyncTime (randInt : Z -> result Z) (unixNano : Z)
    (baseInterval : Z) : Z :=
  let randomOffset := wrap64 (generateSecureRandomInt randInt unixNano 3600 * Second) in
  wrap64 (baseInterval + randomOffset).

(** ** The monthly playlist (the [sync] command of package [cmd]) *)

(** The verbs [%04d] and [%02d] on a non-negative number: the decimal digits,
    padded with zeros on the left up to the width. *)
Fixpoint zeros (n : nat) : string :=
  match n with
  | O => EmptyString
  | S n' => String "0" (zeros n')
  end.

Definition padded (width n : nat) : string :=
  zeros (width - String.length (itoa n)) +:+ itoa n.

(** [fmt.Sprintf("%s-%04d-%02d", playlistNamePrefix, now.Year(), now.Month())] *)
Definition monthlyPlaylistName (prefix : string) (year month : nat) : string :=
  prefix +:+ "-" +:+ padded 4 year +:+ "-" +:+ padded 2 month.

(** One entry of the log of calls of [getOrCreateMonthlyPlaylist]. *)
Inductive PlaylistCall :=
| CallGetUserPlaylists (folderName : string)
| CallCreatePlaylist (name description : string) (public : bool).

Module Monthly.
(** What a call of [getOrCreateMonthlyPlaylist] leaves behind: its return,
    the remote state, the calls it made, and the arguments of the
    organization tip when it printed one. *)
Record t (W : Type) := mk {
  returned : result Playlist.t;
  world : W;
  made : list PlaylistCall;
  tip : option (string * string);
}.
Arguments mk {W} _ _ _ _.
Arguments returned {W} _.
Arguments world {W} _.
Arguments made {W} _.
Arguments tip {W} _.
End Monthly.

Section MonthlyPlaylist.

Context {W : Type}.
(** The two methods of [types.SpotifyService] the function calls. *)
Variable GetUserPlaylists : string -> W -> result (list Playlist.t) * W.
Variable CreatePlaylist : string -> string -> bool -> W -> result Playlist.t * W.
(** [now.Year()], [now.Month()] and [now.Month().String()] of the reading of
    [time.Now()]. *)
Variable year month : nat.
Variable monthName : string.



End MonthlyPlaylist.

(** ** [CheckArtistInPlaylist] (package [duplicate]) *)

Section ArtistDuplicates.

Context {W : Type}.
Variable spotify : SpotifyService W.
Variable timeNow : Time.
(** [t.Format("2006-01-02 15:04:05")] *)
Variable formatTime : Time -> string.

Local Open Scope go_scope.

(** [func (d *DuplicateService) CheckArtistInPlaylist(playlistID, artistID string)] *)
Definition CheckArtistInPlaylist (playlistID artistID : string)
    : M W (result DuplicateResult.t) :=
  let* r := remoteCall (CallGetArtistTopTracks artistID)
              (GetArtistTopTracks spotify artistID) in
  match r with
  | Err err => ret (Err ("failed to get artist top tracks: " +:+ err))
  | Ok [] => ret (Ok (DuplicateResult.mk false [] 0%Z "" "Artist has no tracks"))
  | Ok (track0 :: rest) =>
      let tracks := track0 :: rest in
      let artistName :=
        match Track.Artists track0 with
        | artist0 :: _ => Artist.Name artist0
        | [] => ""
        end in
      let* r := CheckDuplicates spotify timeNow playlistID tracks in
      match r with
      | Err err => ret (Err err)
      | Ok result =>
          let message :=
            if DuplicateResult.HasDuplicates result then
              "Artist '" +:+ artistName +:+ "' already has "
              +:+ itoa (length (DuplicateResult.DuplicateTracks result))
              +:+ " track(s) in this playlist (last added: "
              +:+ formatTime (DuplicateResult.LastAdded result)
              +:+ "). Use 'Add Anyway' to override."
            else
              "Artist '" +:+ artistName +:+ "' tracks not found in playlist, safe to add" in
          ret (Ok (DuplicateResult.mk
                     (DuplicateResult.HasDuplicates result)
                     (DuplicateResult.DuplicateTracks result)
                     (DuplicateResult.LastAdded result)
                     artistName message))
      end
  end.

End ArtistDuplicates.

(** ** [AddArtistToPlaylist] ([internal/playlist/playlist.go]) *)

Module AddResult.
Record t := mk {
  Success : bool;
  Artist : Artist.t;
  TracksAdded : list Track.t;
  Playlist : Playlist.t;
  WasDuplicate : bool;
  Message : string;
}.
End AddResult.

(** The zero values of [types.Artist] and [types.Playlist]. *)
Definition noArtist : Artist.t := Artist.mk "" "" "" [].
Definition noPlaylist : Playlist.t := Playlist.mk "" "" "" 0 "" false.

(** The method [CheckArtistInPlaylist] of a [types.DuplicateDetector]: it
    returns an error, or a result pointer that may be nil. *)
Definition DuplicateDetector (W : Type) : Type :=
  string -> string -> M W (result (option DuplicateResult.t)).

Section PlaylistService.

Context {W : Type}.
Variable spotify : SpotifyService W.
(** The field [duplicate] of the service, [None] when nil. *)
Variable duplicate : option (DuplicateDetector W).

Local Open Scope go_scope.

(** The message for a failed write: a rate-limit error is reported as such. *)
Definition addErrorMessage (err : error) : string :=
  if strings.Contains (strings.ToLower err) "rate limit"
     || strings.Contains (strings.ToLower err) "429"
  then "Rate limited by Spotify API. Please try again later."
  else "Failed to add tracks to playlist: " +:+ err.

(** The end of [AddArtistToPlaylist], from "Extract track IDs" on. *)
Definition addTopTracks (artist : Artist.t) (tracks : list Track.t) (playlistID : string)
    : M W (AddResult.t * option error) :=
  let wasDuplicate := false in
  let trackIDs := map Track.ID tracks in
  let* err := remoteCall (CallAddTracksToPlaylist playlistID trackIDs)
                (AddTracksToPlaylist spotify playlistID trackIDs) in
  match err with
  | Some err =>
      ret (AddResult.mk false artist tracks noPlaylist wasDuplicate (addErrorMessage err),
           Some err)
  | None =>
      ret (AddResult.mk true artist tracks noPlaylist wasDuplicate
             ("Successfully added " +:+ Artist.Name artist +:+ "'s top tracks to playlist"),
           None)
  end.

(** [func (p *PlaylistService) AddArtistToPlaylist(artistName, playlistID string, force bool)],
    returning its [AddResult] and its [error]. *)
Definition AddArtistToPlaylist (artistName playlistID : string) (force : bool)
    : M W (AddResult.t * option error) :=
  let* r := remoteCall (CallSearchArtist artistName) (SearchArtist spotify artistName) in
  match r with
  | Err err =>
      ret (AddResult.mk false noArtist [] noPlaylist false
             ("Failed to find artist: " +:+ err), Some err)
  | Ok artist =>
      let* r := remoteCall (CallGetArtistTopTracks (Artist.ID artist))
                  (GetArtistTopTracks spotify (Artist.ID artist)) in
      match r with
      | Err err =>
          ret (AddResult.mk false artist [] noPlaylist false
                 ("Failed to get artist's top tracks: " +:+ err), Some err)
      | Ok [] =>
          ret (AddResult.mk false artist [] noPlaylist false
                 "Artist has no tracks available", None)
      | Ok (track0 :: rest) =>
          let tracks := track0 :: rest in
          match (if negb force then duplicate else None) with
          | Some detector =>
              let* r := detector playlistID (Artist.ID artist) in
              match r with
              | Ok (Some duplicateResult) =>
                  if DuplicateResult.HasDuplicates duplicateResult then
                    ret (AddResult.mk false artist [] noPlaylist true
                           (DuplicateResult.Message duplicateResult), None)
                  else addTopTracks artist tracks playlistID
              | _ => addTopTracks artist tracks playlistID
              end
          | None => addTopTracks artist tracks playlistID
          end
      end
  end.

End PlaylistService.

(** The [DuplicateService] as the detector of a [PlaylistService]. *)
Definition duplicateService {W : Type} (spotify : SpotifyService W) (timeNow : Time)
    (formatTime : Time -> string) : DuplicateDetector W :=
  fun playlistID artistID e =>
    let '(r, e') := CheckArtistInPlaylist spotify timeNow formatTime playlistID artistID e in
    (match r with Ok result => Ok (Some result) | Err err => Err err end, e').

(** ** One cycle: [runSingleSync] (the [sync] command of package [cmd]) *)

(** What a cycle works on: the caller's cycle map, the package-level map and
    the environment of the remote calls. *)
Record Cycle (W : Type) := mkCycle {
  cycleSeen : gmap string bool;
  processSeen : gmap string Time;
  cycleEnv : Env W;
}.
Arguments mkCycle {W} _ _ _.
Arguments cycleSeen {W} _.
Arguments processSeen {W} _.
Arguments cycleEnv {W} _.

Section SingleSync.

Variable fuzzyFind : string -> string -> option Z.
Context {W : Type}.
Variable spotify : SpotifyService W.

(** [func runSingleSync(kmhdScraper, spotifyService, fuzzySongSearcher, targetPlaylist, seenSongs)]:
    [scraped] is what [kmhdScraper.ScrapePlaylist()] returns in this cycle,
    [now] the reading of [time.Now()] in [filterNewSongs]. *)
Definition runSingleSync (scraped : result SongCollection.t) (now : Time)
    (targetPlaylist : Playlist.t) (c : Cycle W) : Cycle W :=
  match scraped with
  | Err _ => c
  | Ok songCollection =>
      if Nat.eqb (length (SongCollection.Songs songCollection)) 0 then c
      else
        let st := filterNewSongs now (SongCollection.Songs songCollection)
                    (cycleSeen c) (processSeen c) in
        if Nat.eqb (length (newSongs st)) 0
        then mkCycle (seenSongs st) (globalSeenSongs st) (cycleEnv c)
        else
          let '(_, e') :=
            syncSongsToSpotify fuzzyFind spotify (newSongs st) targetPlaylist (cycleEnv c) in
          mkCycle (seenSongs st) (globalSeenSongs st) e'
  end.

End SingleSync.

(** ** The catalog client (package [spotify]) *)

(** A playlist item as [CheckTracksInPlaylist] reads it: the track pointer
    is nil, or the track has an id and a name. *)
Definition PlaylistItem : Type := option (string * string).

(** A track of the catalog library as [GetArtistTopTracks] reads it. *)
Module FullTrack.
Record t := mk {
  ID : string;
  Name : string;
  URI : string;
  Artists : list (string * string * string);
  Duration : Z;
  AlbumID : string;
  AlbumName : string;
  AlbumType : string;
}.
End FullTrack.

Section Client.

(** [c.IsAuthenticated()] and [c.RefreshToken()] in this call. *)
Variable isAuthenticated : bool.
Variable refreshToken : option error.
(** The library calls [GetPlaylistItems], [AddTracksToPlaylist] and
    [GetArtistsTopTracks]. *)
Variable getPlaylistItems : string -> result (list PlaylistItem).
Variable libAddTracks : string -> list string -> option error.
Variable libTopTracks : string -> result (list FullTrack.t).

(** The loop that fills [existingTracks]. *)
Definition existingTrackIDs (items : list PlaylistItem) : gmap string bool :=
  fold_left
    (fun existingTracks item =>
       match item with
       | Some (trackID, _) =>
           if negb (String.eqb trackID "") then <[trackID := true]> existingTracks
           else existingTracks
       | None => existingTracks
       end)
    items ∅.

(** [func (c *Client) CheckTracksInPlaylist(playlistID string, trackIDs []string) ([]bool, error)] *)
Definition Client_CheckTracksInPlaylist (playlistID : string) (trackIDs : list string)
    : result (list bool) :=
  if Nat.eqb (length trackIDs) 0 then Ok []
  else if negb isAuthenticated then Err "user not authenticated to Spotify"
  else
    match refreshToken with
    | Some err => Err ("failed to refresh token: " +:+ err)
    | None =>
        match getPlaylistItems playlistID with
        | Err err => Err ("failed to get playlist items: " +:+ err)
        | Ok items =>
            let existingTracks := existingTrackIDs items in
            Ok (map (fun trackID => default false (existingTracks !! trackID)) trackIDs)
        end
    end.

(** [func (c *Client) AddTracksToPlaylist(playlistID string, trackIDs []string) error] *)
Definition Client_AddTracksToPlaylist (playlistID : string) (trackIDs : list string)
    : option error :=
  if Nat.eqb (length trackIDs) 0 then Some "no tracks provided to add"
  else if negb isAuthenticated then Some "user not authenticated to Spotify"
  else
    match refreshToken with
    | Some err => Some ("failed to refresh token: " +:+ err)
    | None =>
        match libAddTracks playlistID trackIDs with
        | Some err =>
            Some ("failed to add tracks to playlist " +:+ playlistID +:+ ": " +:+ err)
        | None => None
        end
    end.

(** The conversion of one library track in [GetArtistTopTracks]. *)
Definition convertTrack (spotifyTrack : FullTrack.t) : Track.t :=
  Track.mk (FullTrack.ID spotifyTrack) (FullTrack.Name spotifyTrack)
    (FullTrack.URI spotifyTrack)
    (map (fun '(id, name, uri) => Artist.mk id name uri []) (FullTrack.Artists spotifyTrack))
    (FullTrack.Duration spotifyTrack)
    (Album.mk (FullTrack.AlbumID spotifyTrack) (FullTrack.AlbumName spotifyTrack)
       (FullTrack.AlbumType spotifyTrack)).

(** [func (c *Client) GetArtistTopTracks(artistID string) ([]Track, error)] *)
Definition Client_GetArtistTopTracks (artistID : string) : result (list Track.t) :=
  if negb isAuthenticated then Err "user not authenticated to Spotify"
  else
    match refreshToken with
    | Some err => Err ("failed to refresh token: " +:+ err)
    | None =>
        match libTopTracks artistID with
        | Err err =>
            Err ("failed to get top tracks for artist " +:+ artistID +:+ ": " +:+ err)
        | Ok topTracks =>
            if Nat.eqb (length topTracks) 0 then Ok []
            else
              let maxTracks :=
                if (length topTracks <? 5)%nat then length topTracks else 5%nat in
              Ok (map convertTrack (take maxTracks topTracks))
        end
    end.

End Client.

(** ** Vocabulary of the further statements *)



(** The song was played in the 24 hours before [now]. *)
Definition playedWithinDay (now : Time) (song : Song.t) : bool :=
  (0 <=? Sub now (Song.PlayedAt song))%Z && (Sub now (Song.PlayedAt song) <? 24 * Hour)%Z.

(** The variables of the loop of [GetCurrentlyPlaying] after the songs
    [seen]: no current song while none was played within the day; else the
    current song is the first of the most recently played ones. *)
Definition closestOf (now : Time) (seen : list Song.t) (acc : Z * option Song.t) : Prop :=
  match acc with
  | (minTimeDiff, None) =>
      minTimeDiff = (24 * Hour)%Z /\
      forall s, s ∈ seen -> playedWithinDay now s = false
  | (minTimeDiff, Some current) =>
      minTimeDiff = Sub now (Song.PlayedAt current) /\
      playedWithinDay now current = true /\
      exists i, seen !! i = Some current /\
        (forall s, s ∈ seen -> playedWithinDay now s = true ->
           (Sub now (Song.PlayedAt current) <= Sub now (Song.PlayedAt s))%Z) /\
        (forall j s, (j < i)%nat -> seen !! j = Some s -> playedWithinDay now s = true ->
           (Sub now (Song.PlayedAt current) < Sub now (Song.PlayedAt s))%Z)
  end.

Module Fixtures.

(** A feed read at time 1200: plays at 900, 1000 and 1100, and one announced
    for 1700. *)
Definition collection : SongCollection.t :=
  SongCollection.mk Demo.feed 1200%Z "kmhd_api".

(** A random source that works, and one that fails. *)
Definition randomOk (max : Z) : result Z := Ok 1234%Z.
Definition randomDown (max : Z) : result Z := Err "entropy source unavailable".

End Fixtures.


(** The number a string of decimal digits denotes, leading zeros included. *)
Definition readDecimal (s : string) : option nat :=
  option_map Nat.of_uint (NilEmpty.uint_of_string s).

Module PlaylistFixture.





End PlaylistFixture.





(** The cycle map marks only keys of the process-lifetime map. *)
Definition marksInProcess (st : Seen) : Prop :=
  forall k, default false (seenSongs st !! k) = true ->
            is_Some (globalSeenSongs st !! k).

(** The tracks whose membership flag is set, position by position; a flag
    without a track and a track without a flag count for nothing. *)
Fixpoint flagged (tracks : list Track.t) (flags : list bool) : list Track.t :=
  match tracks, flags with
  | track :: tracks', flag :: flags' =>
      if flag then track :: flagged tracks' flags' else flagged tracks' flags'
  | _, _ => []
  end.

(** The total time slept in a trace of [FetchPlaylist]. *)
Fixpoint slept (events : list HttpEvent) : Z :=
  match events with
  | [] => 0
  | EvSleep d :: rest => d + slept rest
  | EvDo _ :: rest => slept rest
  end.

(** The songs one feed entry contributes to the collection. *)
Definition entrySongs (parse : string -> result Song.t) (rawTrack : string) : list Song.t :=
  match parse rawTrack with
  | Ok song => if Song.IsValid song then [song] else []
  | Err _ => []
  end.

(** The playlist items hold a track with this id, and the id is not empty. *)
Definition held (items : list PlaylistItem) (trackID : string) : bool :=
  existsb
    (fun item =>
       match item with
       | Some (itemID, _) => negb (String.eqb itemID "") && String.eqb itemID trackID
       | None => false
       end)
    items.

(** A decoding that yields both names. *)
Definition named (artistName trackName : string) : bool :=
  negb (String.eqb artistName "") && negb (String.eqb trackName "").

Module ClientFixture.

Definition fullTrack (n : string) : FullTrack.t :=
  FullTrack.mk ("t" +:+ n) ("Track " +:+ n) ("spotify:track:t" +:+ n)
    [("a1", "Miles Davis", "spotify:artist:a1")] 0 "al1" "Kind of Blue" "album".

(** An artist with six top tracks. *)
Definition libTopTracks (artistID : string) : result (list FullTrack.t) :=
  if String.eqb artistID "a1" then Ok (map fullTrack ["1"; "2"; "3"; "4"; "5"; "6"])
  else Err "artist not found".

End ClientFixture.

Module TimeFixture.

(** A [time.Parse] that reads one instant, in the layout without offset. *)
Definition timeParse (layout value : string) : option Time :=
  if String.eqb layout "2006-01-02T15:04:05Z" && String.eqb value "2025-10-01T08:00:00Z"
  then Some 1759305600%Z else None.

End TimeFixture.

(** ** The browser identification sent with each feed request
       ([pkg/useragent/chrome.go]) *)

(** [func GetChromeUserAgentWithVersionForOS(version, goos string) string] *)
Definition GetChromeUserAgentWithVersionForOS (version goos : string) : string :=
  if String.eqb goos "linux" then
    "Mozilla/5.0 (X11; Linux x86_64) AppleWebKit/537.36 (KHTML, like Gecko) Chrome/"
    +:+ version +:+ " Safari/537.36"
  else if String.eqb goos "darwin" then
    "Mozilla/5.0 (Macintosh; Intel Mac OS X 10_15_7) AppleWebKit/537.36 (KHTML, like Gecko) Chrome/"
    +:+ version +:+ " Safari/537.36"
  else if String.eqb goos "windows" then
    "Mozilla/5.0 (Windows NT 10.0; Win64; x64) AppleWebKit/537.36 (KHTML, like Gecko) Chrome/"
    +:+ version +:+ " Safari/537.36"
  else
    "Mozilla/5.0 (X11; Linux x86_64) AppleWebKit/537.36 (KHTML, like Gecko) Chrome/"
    +:+ version +:+ " Safari/537.36".

(** [func getChromeAPIplatform(goos string) string] *)
Definition getChromeAPIplatform (goos : string) : string :=
  if String.eqb goos "linux" then "linux"
  else if String.eqb goos "darwin" then "mac"
  else if String.eqb goos "windows" then "win64"
  else "linux".

(** [func getFallbackUserAgent(goos string) string] *)
Definition getFallbackUserAgent (goos : string) : string :=
  if String.eqb goos "linux" then
    "Mozilla/5.0 (X11; Linux x86_64) AppleWebKit/537.36 (KHTML, like Gecko) Chrome/119.0.0.0 Safari/537.36"
  else if String.eqb goos "darwin" then
    "Mozilla/5.0 (Macintosh; Intel Mac OS X 10_15_7) AppleWebKit/537.36 (KHTML, like Gecko) Chrome/119.0.0.0 Safari/537.36"
  else if String.eqb goos "windows" then
    "Mozilla/5.0 (Windows NT 10.0; Win64; x64) AppleWebKit/537.36 (KHTML, like Gecko) Chrome/119.0.0.0 Safari/537.36"
  else
    "Mozilla/5.0 (X11; Linux x86_64) AppleWebKit/537.36 (KHTML, like Gecko) Chrome/119.0.0.0 Safari/537.36".

(** The address of the version history of a platform. *)
Definition versionHistoryURL (platform : string) : string :=
  "https://versionhistory.googleapis.com/v1/chrome/platforms/" +:+ platform
  +:+ "/channels/stable/versions?fields=versions(version)&filter=endtime=none".

Section UserAgent.

(** [client.Get(apiURL)], and the decoding of a body into the versions of a
    [ChromeVersionResponse]. *)
Variable httpGet : string -> DoResult.
Variable decodeVersions : string -> result (list string).

(** [func GetLatestChromeUserAgentForOS(goos string) string] *)
Definition GetLatestChromeUserAgentForOS (goos : string) : string :=
  let fallback := getFallbackUserAgent goos in
  let platform := getChromeAPIplatform goos in
  let apiURL := versionHistoryURL platform in
  match httpGet apiURL with
  | DoError _ => fallback
  | DoResponse resp =>
      if negb (Z.eqb (Response.StatusCode resp) StatusOK) then fallback
      else
        match decodeVersions (Response.Body resp) with
        | Err _ => fallback
        | Ok [] => fallback
        | Ok (latestVersion :: _) => GetChromeUserAgentWithVersionForOS latestVersion goos
        end
  end.

End UserAgent.

(** ** The configuration ([pkg/config/config.go]) and the construction of the
       feed client *)

Module SpotifyConfig.
Record t := mk {
  ClientID : string;
  ClientSecret : string;
  RedirectURL : string;
  PlaylistNamePrefix : string;
  TokenFilePath : string;
}.
End SpotifyConfig.

Module KMHDConfig.
Record t := mk {
  APIEndpoint : string;
  HTTPTimeout : Z;
}.
End KMHDConfig.

Module ServerConfig.
Record t := mk {
  Host : string;
  Port : Z;
}.
End ServerConfig.

Module Config.
Record t := mk {
  Spotify : SpotifyConfig.t;
  KMHD : KMHDConfig.t;
  Server : ServerConfig.t;
}.
End Config.

(** The verb [%d] on an [int]. *)
Definition formatInt (z : Z) : string :=
  if (z <? 0)%Z then "-" +:+ itoa (Z.to_nat (- z)) else itoa (Z.to_nat z).

(** [func (s ServerConfig) Address() string] *)
Definition Address (s : ServerConfig.t) : string :=
  let host := if String.eqb (ServerConfig.Host s) "" then "127.0.0.1"
              else ServerConfig.Host s in
  let port := if Z.eqb (ServerConfig.Port s) 0 then 8080%Z else ServerConfig.Port s in
  host +:+ ":" +:+ formatInt port.

Definition newline : string := String "010"%char EmptyString.

(** [func validateConfig(conf *Config) error]: the lines it prints, and the
    error. *)
Definition validateConfig (conf : Config.t) : list string * option error :=
  let errors := [] in
  let errors :=
    if (ServerConfig.Port (Config.Server conf) <? 1)%Z
       || (65535 <? ServerConfig.Port (Config.Server conf))%Z
    then errors ++ ["server port must be between 1 and 65535"] else errors in
  let printed := [] in
  let printed :=
    if String.eqb (SpotifyConfig.ClientID (Config.Spotify conf)) "" then
      printed ++
      ["Warning: SPOTIFY_CLIENT_ID is not set. The application will not be able to connect to Spotify.";
       "Please set your Spotify credentials to use the application."]
    else printed in
  let printed :=
    if String.eqb (SpotifyConfig.ClientSecret (Config.Spotify conf)) "" then
      printed ++
      ["Warning: SPOTIFY_CLIENT_SECRET is not set. The application will not be able to connect to Spotify."]
    else printed in
  let errors :=
    if String.eqb (KMHDConfig.APIEndpoint (Config.KMHD conf)) ""
    then errors ++ ["KMHD API endpoint is required"] else errors in
  let errors :=
    if (KMHDConfig.HTTPTimeout (Config.KMHD conf) <=? 0)%Z
    then errors ++ ["KMHD HTTP timeout must be greater than 0"] else errors in
  (printed,
   if (0 <? length errors)%nat then
     Some ("configuration errors:" +:+ newline +:+ "- "
           +:+ strings.Join errors (newline +:+ "- "))
   else None).

(** The fields of a [KMHDAPIClient] that [NewKMHDAPIClient] computes. *)
Module KMHDAPIClient.
Record t := mk {
  baseURL : string;
  Timeout : Z;
}.
End KMHDAPIClient.

(** [func NewKMHDAPIClient(cfg config.KMHDConfig) *KMHDAPIClient]; the
    product of durations wraps as [int64] does. *)
Definition NewKMHDAPIClient (cfg : KMHDConfig.t) : KMHDAPIClient.t :=
  let apiEndpoint :=
    if String.eqb (KMHDConfig.APIEndpoint cfg) ""
    then "https://www.kmhd.org/pf/api/v3/content/fetch/playlist"
    else KMHDConfig.APIEndpoint cfg in
  let timeout :=
    if (KMHDConfig.HTTPTimeout cfg <=? 0)%Z then (30 * Second)%Z
    else wrap64 (wrap64 (KMHDConfig.HTTPTimeout cfg) * Second) in
  KMHDAPIClient.mk apiEndpoint timeout.

Module ConfigFixture.

Definition conf : Config.t :=
  Config.mk (SpotifyConfig.mk "" "" "" "KMHD" "~/.config/kmhd2spotify/spotify_token.json")
            (KMHDConfig.mk "https://www.kmhd.org/pf/api/v3/content/fetch/playlist" 30)
            (ServerConfig.mk "" 8080).

End ConfigFixture.

(* ===================================================================== *)
(** * Facts about [float64] comparison and multiplication

    The comparisons of binary64 are specified through [SFcompare]; the facts
    below hold for every operand, NaN included (a comparison with NaN is
    false). *)

Ltac cmp_cases :=
  repeat match goal with
  | |- context [Z.compare ?a ?b] => destruct (Z.compare_spec a b); simpl
  | H : context [Z.compare ?a ?b] |- _ => destruct (Z.compare_spec a b); simpl in H
  | |- context [Pos.compare ?a ?b] => destruct (Pos.compare_spec a b); simpl
  | H : context [Pos.compare ?a ?b] |- _ => destruct (Pos.compare_spec a b); simpl in H
  end.

Ltac sf_cases x y z :=
  destruct x as [?s|?s| |?s ?m ?e], y as [?s|?s| |?s ?m ?e], z as [?s|?s| |?s ?m ?e];
  simpl; try congruence;
  repeat match goal with s : bool |- _ => destruct s end; simpl; try congruence;
  change (Pos.compare_cont Eq) with Pos.compare;
  intros; cmp_cases; try congruence; try lia.

Lemma SFcompare_refl_not_Lt x : SFcompare x x <> Some Lt.
Proof.
  destruct x as [s|s| |s m e]; simpl; try destruct s; try congruence;
    change (Pos.compare_cont Eq m m) with (Pos.compare m m);
    rewrite Z.compare_refl, Pos.compare_refl; simpl; congruence.
Qed.

Lemma SFcompare_Lt_trans x y z :
  SFcompare x y = Some Lt -> SFcompare y z = Some Lt -> SFcompare x z = Some Lt.
Proof. sf_cases x y z. Qed.

Lemma SFcompare_Lt_Eq x y z :
  SFcompare x z = Some Lt -> SFcompare y z = Some Eq -> SFcompare x y = Some Lt.
Proof. sf_cases x y z. Qed.


Module float64_facts.

Lemma ltb_Lt x y : (x <? y)%float = true <-> SFcompare (Prim2SF x) (Prim2SF y) = Some Lt.
Proof.
  rewrite FloatAxioms.ltb_spec. unfold SFltb.
  destruct (SFcompare (Prim2SF x) (Prim2SF y)) as [[]|]; split; congruence.
Qed.

Lemma eqb_Eq x y : (x =? y)%float = true <-> SFcompare (Prim2SF x) (Prim2SF y) = Some Eq.
Proof.
  rewrite FloatAxioms.eqb_spec. unfold SFeqb.
  destruct (SFcompare (Prim2SF x) (Prim2SF y)) as [[]|]; split; congruence.
Qed.

Lemma ltb_irrefl x : (x <? x)%float = false.
Proof.
  apply not_true_is_false. rewrite ltb_Lt. apply SFcompare_refl_not_Lt.
Qed.

Lemma ltb_trans x y z :
  (x <? y)%float = true -> (y <? z)%float = true -> (x <? z)%float = true.
Proof. rewrite !ltb_Lt. apply SFcompare_Lt_trans. Qed.

Lemma ltb_eqb_r x y z :
  (x <? z)%float = true -> (y =? z)%float = true -> (x <? y)%float = true.
Proof. rewrite !ltb_Lt, eqb_Eq. apply SFcompare_Lt_Eq. Qed.


Lemma mul_comm x y : (x * y)%float = (y * x)%float.
Proof.
  apply Prim2SF_inj. rewrite !FloatAxioms.mul_spec. unfold SF64mul, SFmul.
  destruct (Prim2SF x) as [sx|sx| |sx mx ex], (Prim2SF y) as [sy|sy| |sy my ey];
    try reflexivity; rewrite ?(xorb_comm sx sy); try reflexivity.
  now rewrite Pos.mul_comm, Z.add_comm.
Qed.

End float64_facts.

(* ===================================================================== *)
(** * Facts about [strings.TrimSpace] *)

Module strings_facts.
Import strings.

Lemma isEmpty_true s : isEmpty s = true <-> s = "".
Proof. destruct s; simpl; split; congruence. Qed.

Lemma eqb_empty s : String.eqb s "" = isEmpty s.
Proof. destruct s; reflexivity. Qed.

Lemma TrimLeft_blank s : isEmpty (TrimLeft s) = isBlank s.
Proof.
  induction s as [|c s IH]; simpl; [reflexivity|].
  destruct (isSpace c); simpl; auto.
Qed.

Lemma TrimRight_blank s : isEmpty (TrimRight s) = isBlank s.
Proof.
  induction s as [|c s IH]; simpl; [reflexivity|].
  rewrite IH. destruct (isSpace c), (isBlank s); reflexivity.
Qed.

Lemma isBlank_TrimLeft s : isBlank (TrimLeft s) = isBlank s.
Proof.
  induction s as [|c s IH]; simpl; [reflexivity|].
  destruct (isSpace c) eqn:E; simpl; [exact IH | now rewrite E].
Qed.

(** [TrimSpace] returns the empty string exactly on blank strings. *)
Lemma TrimSpace_blank s : String.eqb (TrimSpace s) "" = isBlank s.
Proof.
  unfold TrimSpace. now rewrite eqb_empty, TrimRight_blank, isBlank_TrimLeft.
Qed.

Lemma TrimLeft_first s c : firstByte (TrimLeft s) = Some c -> isSpace c = false.
Proof.
  induction s as [|a s IH]; simpl; [discriminate|].
  destruct (isSpace a) eqn:E; simpl; [exact IH | congruence].
Qed.

Lemma TrimRight_first s c : firstByte (TrimRight s) = Some c -> firstByte s = Some c.
Proof.
  destruct s as [|a s]; simpl; [discriminate|].
  destruct (isSpace a && isEmpty (TrimRight s)); simpl; congruence.
Qed.

Lemma TrimRight_last s c : lastByte (TrimRight s) = Some c -> isSpace c = false.
Proof.
  induction s as [|a s IH]; simpl; [discriminate|].
  destruct (isSpace a) eqn:Ea; simpl.
  - destruct (TrimRight s) as [|b t] eqn:Et; simpl; [discriminate|].
    exact IH.
  - destruct (TrimRight s) as [|b t] eqn:Et; simpl; [congruence|].
    exact IH.
Qed.

(** The result of [TrimSpace] has no whitespace at either end. *)
Lemma TrimSpace_isTrimmed s : isTrimmed (TrimSpace s).
Proof.
  unfold isTrimmed, TrimSpace. split; intros c H.
  - apply TrimRight_first in H. now apply TrimLeft_first in H.
  - now apply TrimRight_last in H.
Qed.

End strings_facts.

(* ===================================================================== *)
(** * The catalog matcher: scoring *)

Lemma weighted_code a s al :
  (a * 0.5 + s * 0.35 + al * 0.15)%float = weighted a s al.
Proof.
  unfold weighted.
  now rewrite (float64_facts.mul_comm a), (float64_facts.mul_comm s),
    (float64_facts.mul_comm al).
Qed.



Section MatcherFacts.

Variable fuzzyFind : string -> string -> option Z.


Local Open Scope float_scope.




End MatcherFacts.

(* ===================================================================== *)
(** * The catalog matcher: selection *)

Section MatcherRun.

Variable fuzzyFind : string -> string -> option Z.
Context {W : Type}.
Variable spotify : SpotifyService W.

Local Open Scope float_scope.

Lemma considerTrack_BestOf a sq alq seen i b t :
  BestOf fuzzyFind a sq alq seen i b ->
  exists i', BestOf fuzzyFind a sq alq (seen ++ [t]) i'
               (considerTrack fuzzyFind sq alq a b t).
Proof.
  intros [Hat Hs Hal Ho Hmax Hfirst].
  assert (Hi : (i < length seen)%nat) by (eapply lookup_lt_Some; eauto).
  unfold considerTrack. rewrite weighted_code. fold (trackOverall fuzzyFind a sq alq t).
  destruct (bestOverallConfidence b <? trackOverall fuzzyFind a sq alq t) eqn:Hlt.
  - exists (length seen). constructor; simpl; try reflexivity.
    + now rewrite lookup_app_r, Nat.sub_diag by lia.
    + intros j u Hj. apply lookup_app_Some in Hj as [Hj | [Hge Hj]].
      * apply not_true_is_false. intros Hc.
        pose proof (float64_facts.ltb_trans _ _ _ Hlt Hc) as Hbad.
        rewrite (Hmax _ _ Hj) in Hbad. discriminate.
      * destruct (j - length seen)%nat; simpl in Hj; [|discriminate].
        injection Hj as <-. apply float64_facts.ltb_irrefl.
    + intros j u Hlen Hj. rewrite lookup_app_l in Hj by lia.
      apply not_true_is_false. intros Hc.
      pose proof (float64_facts.ltb_eqb_r _ _ _ Hlt Hc) as Hbad.
      rewrite (Hmax _ _ Hj) in Hbad. discriminate.
  - exists i. constructor; try assumption.
    + now rewrite lookup_app_l by lia.
    + intros j u Hj. apply lookup_app_Some in Hj as [Hj | [Hge Hj]]; [eauto|].
      destruct (j - length seen)%nat; simpl in Hj; [|discriminate].
      now injection Hj as <-.
    + intros j u Hlen Hj. rewrite lookup_app_l in Hj by lia. eauto.
Qed.

Lemma fold_considerTrack_BestOf a sq alq rest : forall seen i b,
  BestOf fuzzyFind a sq alq seen i b ->
  exists i', BestOf fuzzyFind a sq alq (seen ++ rest) i'
               (fold_left (considerTrack fuzzyFind sq alq a) rest b).
Proof.
  induction rest as [|t rest IH]; intros seen i b Hb; simpl.
  - exists i. now rewrite app_nil_r.
  - destruct (considerTrack_BestOf _ _ _ _ _ _ t Hb) as [i' Hb'].
    destruct (IH _ _ _ Hb') as [i'' Hb''].
    exists i''. now rewrite <- app_assoc in Hb''.
Qed.

Lemma selectBest_BestOf a sq alq track0 rest :
  exists i, BestOf fuzzyFind a sq alq (track0 :: rest) i
              (selectBest fuzzyFind sq alq a track0 rest).
Proof.
  unfold selectBest. rewrite weighted_code.
  apply (fold_considerTrack_BestOf a sq alq rest [track0] 0%nat).
  constructor; simpl; try reflexivity.
  - intros [|j] t Hj; simpl in Hj; [|discriminate].
    injection Hj as <-. apply float64_facts.ltb_irrefl.
  - intros j t Hj. lia.
Qed.

(** What a successful run of the matcher went through. *)
Lemma FindBestSongMatchWithAlbum_Ok aq sq alq e m e' :
  FindBestSongMatchWithAlbum fuzzyFind spotify aq sq alq e = (Ok m, e') ->
  exists artist w1 track0 rest w2,
    strings.isBlank aq = false /\
    SearchArtist spotify aq (remote e) = (Ok artist, w1) /\
    GetArtistTopTracks spotify (Artist.ID artist) w1 = (Ok (track0 :: rest), w2) /\
    let a := calculateMatchConfidence fuzzyFind aq (Artist.Name artist) in
    m = if strings.isBlank sq
        then
          let al := calculateAlbumConfidence fuzzyFind alq (Some track0) in
          SongMatch.mk artist track0 aq "" alq a 1.0 al (a * 0.5 + 1.0 * 0.35 + al * 0.15)
        else
          let best := selectBest fuzzyFind sq alq a track0 rest in
          SongMatch.mk artist (bestTrack best) aq sq alq a (bestSongConfidence best)
            (bestAlbumConfidence best) (bestOverallConfidence best).
Proof.
  unfold FindBestSongMatchWithAlbum, bind, remoteCall, ret.
  rewrite !strings_facts.TrimSpace_blank.
  destruct (strings.isBlank aq) eqn:Haq; [discriminate|].
  destruct (SearchArtist spotify aq (remote e)) as [[artist|err] w1] eqn:Hs;
    [|discriminate].
  simpl.
  destruct (GetArtistTopTracks spotify (Artist.ID artist) w1)
    as [[[|track0 rest]|err] w2] eqn:Ht; try discriminate.
  intros H. exists artist, w1, track0, rest, w2.
  repeat (split; [reflexivity || assumption|]).
  cbv zeta. destruct (strings.isBlank sq); congruence.
Qed.

(** C1. For every match the catalog matcher returns, the returned overall
    confidence is the binary64 value of
    [0.5 * artistConfidence + 0.35 * songConfidence + 0.15 * albumConfidence]
    on the returned confidences; with artist confidence 0.9, song confidence
    0.6 and album confidence 0.5 that value is 0.735. *)
Theorem C1_weighting_law (artistQuery songQuery albumQuery : string)
    (e e' : Env W) (m : SongMatch.t) :
  FindBestSongMatchWithAlbum fuzzyFind spotify artistQuery songQuery albumQuery e = (Ok m, e') ->
  SongMatch.OverallConfidence m =
    0.5 * SongMatch.ArtistConfidence m + 0.35 * SongMatch.SongConfidence m
    + 0.15 * SongMatch.AlbumConfidence m
  /\ (SongMatch.ArtistConfidence m = 0.9 -> SongMatch.SongConfidence m = 0.6 ->
      SongMatch.AlbumConfidence m = 0.5 -> SongMatch.OverallConfidence m = 0.735).
Proof.
  intros H.
  assert (Hlaw : SongMatch.OverallConfidence m =
    weighted (SongMatch.ArtistConfidence m) (SongMatch.SongConfidence m)
      (SongMatch.AlbumConfidence m)).
  { apply FindBestSongMatchWithAlbum_Ok in H
      as (artist & w1 & track0 & rest & w2 & _ & _ & _ & Hm).
    cbv zeta in Hm. destruct (strings.isBlank songQuery); subst m; simpl.
    - exact (weighted_code _ 1.0 _).
    - destruct (selectBest_BestOf
        (calculateMatchConfidence fuzzyFind artistQuery (Artist.Name artist))
        songQuery albumQuery track0 rest) as [i [_ Hs Hal Ho _ _]].
      rewrite Ho, Hs, Hal. reflexivity. }
  split; [exact Hlaw|].
  intros Ha Hs Hal. rewrite Hlaw, Ha, Hs, Hal. reflexivity.
Qed.







End MatcherRun.

(** The weighting law on a run: query "Miles" / "blue" against the demo
    catalog selects "Blue in Green". *)
Lemma C1_weighting_law_witness :
  exists m e',
    FindBestSongMatchWithAlbum Demo.fuzzyFind Demo.service "Miles" "blue" "" Demo.env0
      = (Ok m, e') /\
    SongMatch.Track m = Demo.blueInGreen /\
    (SongMatch.OverallConfidence m =
       0.5 * SongMatch.ArtistConfidence m + 0.35 * SongMatch.SongConfidence m
       + 0.15 * SongMatch.AlbumConfidence m)%float.
Proof.
  eexists _, _. split; [vm_compute; reflexivity|]. split; [reflexivity|].
  refine (proj1 (C1_weighting_law Demo.fuzzyFind Demo.service "Miles" "blue" ""
                   Demo.env0 _ _ _)).
  vm_compute. reflexivity.
Defined.





(* ===================================================================== *)
(** * Cycle filtering: [filterNewSongs] *)

Section FilterFacts.

Variable now : Time.

Lemma filterSong_invalid st song :
  Song.IsValid song = false -> filterSong now st song = st.
Proof. unfold filterSong. now intros ->. Qed.

Lemma filterSong_seen st song :
  Song.IsValid song = true -> seenBefore st (songKey song) = true ->
  filterSong now st song = st.
Proof.
  unfold filterSong, seenBefore. intros -> H. simpl.
  destruct (default false (seenSongs st !! songKey song)); [reflexivity|].
  simpl in H. now rewrite H.
Qed.

Lemma filterSong_new st song :
  Song.IsValid song = true -> seenBefore st (songKey song) = false ->
  filterSong now st song =
    mkSeen (newSongs st ++ [song])
           (<[songKey song := true]> (seenSongs st))
           (<[songKey song := now]> (globalSeenSongs st)).
Proof.
  unfold filterSong, seenBefore. intros -> H. simpl.
  apply orb_false_iff in H as [-> ->]. reflexivity.
Qed.

Lemma seenBefore_new st song k :
  seenBefore
    (mkSeen (newSongs st ++ [song])
            (<[songKey song := true]> (seenSongs st))
            (<[songKey song := now]> (globalSeenSongs st))) k
  = String.eqb k (songKey song) || seenBefore st k.
Proof.
  unfold seenBefore. simpl.
  destruct (String.eqb_spec k (songKey song)) as [->|Hne].
  - rewrite !lookup_insert_eq. reflexivity.
  - rewrite !lookup_insert_ne by congruence. reflexivity.
Qed.

Lemma firstNew_ext f g songs :
  (forall k, f k = g k) -> firstNew f songs = firstNew g songs.
Proof.
  revert f g. induction songs as [|s songs IH]; intros f g H; simpl; [reflexivity|].
  rewrite H. destruct (g (songKey s)); [now apply IH|].
  f_equal. apply IH. intros k. now rewrite H.
Qed.

(** The songs the loop returns. *)
Lemma filter_newSongs songs : forall st,
  newSongs (fold_left (filterSong now) songs st)
  = newSongs st ++ firstNew (seenBefore st) (List.filter Song.IsValid songs).
Proof.
  induction songs as [|s songs IH]; intros st; simpl.
  - now rewrite app_nil_r.
  - destruct (Song.IsValid s) eqn:Hv.
    + simpl. destruct (seenBefore st (songKey s)) eqn:Hs.
      * rewrite filterSong_seen by assumption. apply IH.
      * rewrite filterSong_new by assumption. rewrite IH. simpl.
        rewrite <- app_assoc. simpl. do 2 f_equal.
        apply firstNew_ext. intros k. apply seenBefore_new.
    + rewrite filterSong_invalid by assumption. apply IH.
Qed.

(** Entries of the process-lifetime map are never overwritten, and marks of
    the cycle map are never removed. *)
Lemma filterSong_keeps st song k :
  (forall t, globalSeenSongs st !! k = Some t ->
     globalSeenSongs (filterSong now st song) !! k = Some t) /\
  (seenSongs st !! k = Some true ->
     seenSongs (filterSong now st song) !! k = Some true).
Proof.
  destruct (Song.IsValid song) eqn:Hv; [|now rewrite filterSong_invalid].
  destruct (seenBefore st (songKey song)) eqn:Hs; [now rewrite filterSong_seen|].
  rewrite filterSong_new by assumption. simpl.
  unfold seenBefore in Hs. apply orb_false_iff in Hs as [Hc Hg].
  apply bool_decide_eq_false in Hg.
  split.
  - intros t Ht. destruct (decide (songKey song = k)) as [<-|Hne].
    + exfalso. apply Hg. eauto.
    + now rewrite lookup_insert_ne.
  - intros Ht. destruct (decide (songKey song = k)) as [<-|Hne].
    + now rewrite lookup_insert_eq.
    + now rewrite lookup_insert_ne.
Qed.

Lemma filter_keeps songs k : forall st,
  (forall t, globalSeenSongs st !! k = Some t ->
     globalSeenSongs (fold_left (filterSong now) songs st) !! k = Some t) /\
  (seenSongs st !! k = Some true ->
     seenSongs (fold_left (filterSong now) songs st) !! k = Some true).
Proof.
  induction songs as [|s songs IH]; intros st; simpl; [auto|].
  destruct (filterSong_keeps st s k) as [Hg Hc].
  destruct (IH (filterSong now st s)) as [Hg' Hc']. split; auto.
Qed.

Lemma filterSong_inStep st song : inStep now st -> inStep now (filterSong now st song).
Proof.
  intros H.
  destruct (Song.IsValid song) eqn:Hv; [|now rewrite filterSong_invalid].
  destruct (seenBefore st (songKey song)) eqn:Hs; [now rewrite filterSong_seen|].
  rewrite filterSong_new by assumption. intros k. simpl.
  destruct (decide (songKey song = k)) as [<-|Hne].
  - rewrite !lookup_insert_eq. split; eauto.
  - rewrite !lookup_insert_ne by assumption. apply H.
Qed.

Lemma filter_inStep songs : forall st,
  inStep now st -> inStep now (fold_left (filterSong now) songs st).
Proof.
  induction songs as [|s songs IH]; intros st H; simpl; [assumption|].
  apply IH. now apply filterSong_inStep.
Qed.

(** After the loop every valid song of the list is seen. *)
Lemma filter_covers songs : forall st s,
  s ∈ songs -> Song.IsValid s = true ->
  seenBefore (fold_left (filterSong now) songs st) (songKey s) = true.
Proof.
  induction songs as [|x songs IH]; intros st s Hin Hv; [inversion Hin|].
  simpl. apply elem_of_cons in Hin as [->|Hin]; [|now apply IH].
  assert (H1 : seenBefore (filterSong now st x) (songKey x) = true).
  { destruct (seenBefore st (songKey x)) eqn:Hs.
    - now rewrite filterSong_seen.
    - rewrite filterSong_new by assumption. rewrite seenBefore_new.
      now rewrite String.eqb_refl. }
  unfold seenBefore in *. apply orb_true_iff in H1 as [H1|H1].
  - destruct (seenSongs (filterSong now st x) !! songKey x) as [[]|] eqn:E;
      try discriminate.
    destruct (filter_keeps songs (songKey x) (filterSong now st x)) as [_ Hc].
    now rewrite (Hc E).
  - apply bool_decide_eq_true in H1 as [t Ht].
    destruct (filter_keeps songs (songKey x) (filterSong now st x)) as [Hg _].
    rewrite (Hg _ Ht). apply orb_true_iff. right.
    apply bool_decide_eq_true. eauto.
Qed.

(** A list whose valid songs are all in the process-lifetime map passes
    through the loop without any effect. *)
Lemma filter_all_seen songs : forall st,
  (forall s, s ∈ songs -> Song.IsValid s = true ->
     is_Some (globalSeenSongs st !! songKey s)) ->
  fold_left (filterSong now) songs st = st.
Proof.
  induction songs as [|x songs IH]; intros st H; simpl; [reflexivity|].
  assert (Hx : filterSong now st x = st).
  { destruct (Song.IsValid x) eqn:Hv; [|now apply filterSong_invalid].
    apply filterSong_seen; [assumption|].
    unfold seenBefore. apply orb_true_iff. right. apply bool_decide_eq_true.
    apply H; [apply list_elem_of_here | assumption]. }
  rewrite Hx. apply IH. intros s Hin. apply H. now apply list_elem_of_further.
Qed.

End FilterFacts.

Lemma firstNew_NoDup songs : forall isSeen,
  NoDup (map songKey songs) ->
  (forall s, s ∈ songs -> isSeen (songKey s) = false) ->
  firstNew isSeen songs = songs.
Proof.
  induction songs as [|x songs IH]; intros isSeen Hnd Hs; simpl; [reflexivity|].
  rewrite Hs by apply list_elem_of_here.
  simpl in Hnd. apply NoDup_cons in Hnd as [Hx Hnd].
  f_equal. apply IH; [assumption|].
  intros s Hin. rewrite Hs by now apply list_elem_of_further.
  rewrite orb_false_r. apply String.eqb_neq. intros Heq.
  apply Hx. rewrite <- Heq. apply list_elem_of_In, in_map. now apply list_elem_of_In.
Qed.

(** C2, as amended. In one process whose process-lifetime map starts empty,
    running two sync cycles over identical feed content, each with a fresh
    cycle map: the first cycle's [filterNewSongs] returns, in feed order, the
    first valid song of each distinct "artist - title" key (every valid song
    when the keys of the valid songs are pairwise distinct) and records the
    key of every valid song in both the cycle map and the process-lifetime
    map; the second cycle's [filterNewSongs] returns zero songs, leaves its
    cycle map empty and the process-lifetime map unchanged. *)
Theorem C2_cross_cycle_dedup (now1 now2 : Time) (songs : list Song.t) :
  let cycle1 := filterNewSongs now1 songs ∅ ∅ in
  let cycle2 := filterNewSongs now2 songs ∅ (globalSeenSongs cycle1) in
  newSongs cycle1 = firstPerKey songs /\
  (NoDup (map songKey (List.filter Song.IsValid songs)) ->
     newSongs cycle1 = List.filter Song.IsValid songs) /\
  (forall s, s ∈ songs -> Song.IsValid s = true ->
     seenSongs cycle1 !! songKey s = Some true /\
     globalSeenSongs cycle1 !! songKey s = Some now1) /\
  newSongs cycle2 = [] /\
  seenSongs cycle2 = ∅ /\
  globalSeenSongs cycle2 = globalSeenSongs cycle1.
Proof.
  intros cycle1 cycle2.
  assert (Hnew : newSongs cycle1 = firstPerKey songs).
  { unfold cycle1, filterNewSongs, firstPerKey. rewrite filter_newSongs. simpl.
    apply firstNew_ext. intros k. unfold seenBefore. simpl.
    rewrite !lookup_empty. reflexivity. }
  assert (Hcov : forall s, s ∈ songs -> Song.IsValid s = true ->
     seenSongs cycle1 !! songKey s = Some true /\
     globalSeenSongs cycle1 !! songKey s = Some now1).
  { intros s Hin Hv.
    assert (Hstep : inStep now1 cycle1).
    { apply filter_inStep. intros k. simpl. rewrite !lookup_empty. split.
      - intros [? ?]. discriminate.
      - discriminate. }
    pose proof (filter_covers now1 songs (mkSeen [] ∅ ∅) s Hin Hv) as Hs.
    fold (filterNewSongs now1 songs ∅ ∅) in Hs. fold cycle1 in Hs.
    destruct (Hstep (songKey s)) as [H1 H2].
    apply H1. unfold seenBefore in Hs. apply orb_true_iff in Hs as [Hs|Hs].
    - now apply H2.
    - now apply bool_decide_eq_true in Hs. }
  assert (H2 : cycle2 = mkSeen [] ∅ (globalSeenSongs cycle1)).
  { unfold cycle2, filterNewSongs. apply filter_all_seen. simpl.
    intros s Hin Hv. destruct (Hcov s Hin Hv) as [_ ->]. eauto. }
  split; [exact Hnew|]. split.
  { intros Hnd. rewrite Hnew. unfold firstPerKey.
    apply firstNew_NoDup; [assumption | reflexivity]. }
  split; [exact Hcov|].
  rewrite H2. simpl. auto.
Qed.

(** C2 as stated fails on a feed that holds the same title twice: the second
    play is a valid song of the feed and the first cycle does not return it. *)
Lemma C2_counterexample_repeated_play :
  Demo.eveningPlay ∈ Demo.feed /\
  Song.IsValid Demo.eveningPlay = true /\
  newSongs (filterNewSongs 0%Z Demo.feed ∅ ∅) = [Demo.morningPlay; Demo.giantSteps] /\
  Demo.eveningPlay ∉ newSongs (filterNewSongs 0%Z Demo.feed ∅ ∅).
Proof.
  assert (Hnew : newSongs (filterNewSongs 0%Z Demo.feed ∅ ∅)
                 = [Demo.morningPlay; Demo.giantSteps]).
  { vm_compute. reflexivity. }
  split; [unfold Demo.feed; set_solver|]. split; [reflexivity|].
  split; [exact Hnew|]. rewrite Hnew.
  intros H. apply list_elem_of_In in H. simpl in H.
  destruct H as [H|[H|[]]]; discriminate.
Qed.

(** On a feed with pairwise distinct keys the first cycle returns every
    valid song. *)
Lemma C2_cross_cycle_dedup_witness :
  newSongs (filterNewSongs 0%Z [Demo.morningPlay; Demo.noTitle; Demo.giantSteps] ∅ ∅)
  = [Demo.morningPlay; Demo.giantSteps] /\
  newSongs (filterNewSongs 5%Z [Demo.morningPlay; Demo.noTitle; Demo.giantSteps] ∅
              (globalSeenSongs
                 (filterNewSongs 0%Z [Demo.morningPlay; Demo.noTitle; Demo.giantSteps] ∅ ∅)))
  = [].
Proof.
  destruct (C2_cross_cycle_dedup 0%Z 5%Z [Demo.morningPlay; Demo.noTitle; Demo.giantSteps])
    as (_ & Hall & _ & Hnone & _).
  split; [|exact Hnone].
  apply Hall. apply (bool_decide_unpack _). vm_compute. reflexivity.
Defined.

(* ===================================================================== *)
(** * The feed client: retries and parsing *)

Section FeedFacts.

Variable unmarshalComplete : string -> option CompleteTrack.t.
Variable unmarshalMinimal : string -> option MinimalTrack.t.
Variable unmarshalMap : string -> result (gmap string JSONValue).
Variable decodeAPIResponse : string -> result (list string).
Variable timeParse : string -> string -> option Time.
Variable timeNow : Time.
Variable buildAPIURL : Time -> string.
Variable httpNewRequest : string -> option error.
Variable Do : nat -> DoResult.

Local Abbreviation mapTrackToSong' := (mapTrackToSong timeParse timeNow).
Local Abbreviation parseTrackObject' :=
  (parseTrackObject unmarshalComplete unmarshalMinimal unmarshalMap timeParse timeNow).
Local Abbreviation parseEntry' :=
  (parseEntry unmarshalComplete unmarshalMinimal unmarshalMap timeParse timeNow).
Local Abbreviation parseResponse' :=
  (parseResponse unmarshalComplete unmarshalMinimal unmarshalMap timeParse timeNow).
Local Abbreviation FetchPlaylist' :=
  (FetchPlaylist unmarshalComplete unmarshalMinimal unmarshalMap decodeAPIResponse
     timeParse timeNow buildAPIURL httpNewRequest Do).

(** The loop retries exactly on transient failures. *)
Lemma mustRetry_isTransient r : mustRetry r = isTransient r.
Proof.
  destruct r as [err|resp]; simpl; [reflexivity|].
  unfold StatusBadGateway, StatusGatewayTimeout.
  destruct (Response.StatusCode resp =? 502)%Z, (Response.StatusCode resp =? 504)%Z;
    reflexivity.
Qed.

(** The three-attempt loop, by cases on the outcomes of the requests. *)
Lemma requestLoop_three :
  requestLoop Do 3 4 1 None =
    if isTransient (Do 1) then
      if isTransient (Do 2) then
        ([EvDo 1; EvSleep (2 * Second); EvDo 2; EvSleep (4 * Second); EvDo 3],
         Some (Do 3))
      else ([EvDo 1; EvSleep (2 * Second); EvDo 2], Some (Do 2))
    else ([EvDo 1], Some (Do 1)).
Proof.
  simpl. rewrite !mustRetry_isTransient.
  destruct (isTransient (Do 1)); simpl; [|reflexivity].
  destruct (isTransient (Do 2)); simpl; [|reflexivity].
  destruct (isTransient (Do 3)); reflexivity.
Qed.

(** More fuel does not change the loop: four evaluations of its condition
    are all it makes. *)
Lemma requestLoop_fuel n : requestLoop Do 3 (4 + n) 1 None = requestLoop Do 3 4 1 None.
Proof.
  rewrite requestLoop_three. simpl. rewrite !mustRetry_isTransient.
  destruct (isTransient (Do 1)); simpl; [|reflexivity].
  destruct (isTransient (Do 2)); simpl; [|reflexivity].
  destruct n; simpl; destruct (isTransient (Do 3)); reflexivity.
Qed.

Local Abbreviation afterLoop' := (afterLoop decodeAPIResponse parseResponse').

Lemma FetchPlaylist_built date :
  httpNewRequest (buildAPIURL date) = None ->
  FetchPlaylist' date =
    if isTransient (Do 1) then
      if isTransient (Do 2) then
        ([EvDo 1; EvSleep (2 * Second); EvDo 2; EvSleep (4 * Second); EvDo 3],
         afterLoop' (Do 3))
      else ([EvDo 1; EvSleep (2 * Second); EvDo 2], afterLoop' (Do 2))
    else ([EvDo 1], afterLoop' (Do 1)).
Proof.
  intros Hreq. unfold FetchPlaylist. rewrite Hreq.
  change (requestLoop Do 3 (S 3) 1 None) with (requestLoop Do 3 4 1 None).
  rewrite requestLoop_three. unfold afterLoop, accepted, StatusOK.
  destruct (isTransient (Do 1)); [destruct (isTransient (Do 2))|]; simpl;
    f_equal;
    match goal with |- context [match ?d with DoError _ => _ | DoResponse _ => _ end] =>
      destruct d as [err|resp]; [reflexivity|];
      destruct (Response.StatusCode resp =? 200)%Z; reflexivity
    end.
Qed.

Lemma afterLoop_transient r : isTransient r = true -> isOk (afterLoop' r) = false.
Proof.
  destruct r as [err|resp]; simpl; [reflexivity|]. intros H.
  destruct (Z.eqb_spec (Response.StatusCode resp) 200) as [E|_]; [|reflexivity].
  rewrite E in H. discriminate.
Qed.

(** C3. Each [FetchPlaylist] call issues at most 3 HTTP requests.  When the
    request can be built: the second request is issued exactly when the first
    fails transiently (network error, HTTP 502 or HTTP 504), after a wait of
    2 seconds, and the third exactly when the second fails transiently too,
    after a wait of 4 seconds, and nothing is waited or requested after the
    third; a 200 response to the first request that does not fail
    transiently, on or before the third, is accepted (its body is decoded
    and parsed); three transient failures in a row, or a first non-transient
    response with a status other than 200, make the call return an error. *)
Theorem C3_retry_budget (date : Time) :
  let events := fst (FetchPlaylist' date) in
  let r := snd (FetchPlaylist' date) in
  (length (List.filter isRequest events) <= 3)%nat /\
  (httpNewRequest (buildAPIURL date) = None ->
   events =
     (if isTransient (Do 1) then
        if isTransient (Do 2) then
          [EvDo 1; EvSleep (2 * Second); EvDo 2; EvSleep (4 * Second); EvDo 3]
        else [EvDo 1; EvSleep (2 * Second); EvDo 2]
      else [EvDo 1]) /\
   (forall k resp, (1 <= k <= 3)%nat ->
      (forall j, (1 <= j < k)%nat -> isTransient (Do j) = true) ->
      Do k = DoResponse resp ->
      (Response.StatusCode resp = 200%Z ->
         r = accepted decodeAPIResponse parseResponse' resp) /\
      (Response.StatusCode resp <> 200%Z -> Response.StatusCode resp <> 502%Z ->
       Response.StatusCode resp <> 504%Z -> isOk r = false)) /\
   (isTransient (Do 1) = true -> isTransient (Do 2) = true ->
    isTransient (Do 3) = true -> isOk r = false)).
Proof.
  intros events r. subst events r. split.
  - unfold FetchPlaylist.
    destruct (httpNewRequest (buildAPIURL date)); [simpl; lia|].
    change (requestLoop Do 3 (S 3) 1 None) with (requestLoop Do 3 4 1 None).
    rewrite requestLoop_three.
    destruct (isTransient (Do 1)); [destruct (isTransient (Do 2))|]; simpl; lia.
  - intros Hreq. rewrite (FetchPlaylist_built date Hreq).
    split; [|split].
    + destruct (isTransient (Do 1)); [destruct (isTransient (Do 2))|]; reflexivity.
    + intros k resp Hk Hprev Hdo.
      assert (Hfinal :
        snd (if isTransient (Do 1) then
               if isTransient (Do 2) then
                 ([EvDo 1; EvSleep (2 * Second); EvDo 2; EvSleep (4 * Second); EvDo 3],
                  afterLoop' (Do 3))
               else ([EvDo 1; EvSleep (2 * Second); EvDo 2], afterLoop' (Do 2))
             else ([EvDo 1], afterLoop' (Do 1)))
        = if isTransient (Do k) && negb (k =? 3)%nat
          then snd (if isTransient (Do 1) then
               if isTransient (Do 2) then
                 ([EvDo 1; EvSleep (2 * Second); EvDo 2; EvSleep (4 * Second); EvDo 3],
                  afterLoop' (Do 3))
               else ([EvDo 1; EvSleep (2 * Second); EvDo 2], afterLoop' (Do 2))
             else ([EvDo 1], afterLoop' (Do 1)))
          else afterLoop' (Do k)).
      { destruct (isTransient (Do k) && negb (k =? 3)%nat) eqn:Hgo; [reflexivity|].
        assert (Hk' : k = 1%nat \/ k = 2%nat \/ k = 3%nat) by lia.
        destruct Hk' as [-> | [-> | ->]].
        - simpl in Hgo. rewrite andb_true_r in Hgo. now rewrite Hgo.
        - simpl in Hgo. rewrite andb_true_r in Hgo.
          rewrite (Hprev 1%nat) by lia. now rewrite Hgo.
        - now rewrite (Hprev 1%nat), (Hprev 2%nat) by lia. }
      split.
      * intros H200. rewrite Hfinal.
        assert (Hnt : isTransient (Do k) = false).
        { rewrite Hdo. simpl. rewrite H200. reflexivity. }
        rewrite Hnt. simpl. rewrite Hdo. simpl. rewrite H200. reflexivity.
      * intros Hn200 Hn502 Hn504. rewrite Hfinal.
        assert (Hnt : isTransient (Do k) = false).
        { rewrite Hdo. simpl. apply orb_false_iff. split; now apply Z.eqb_neq. }
        rewrite Hnt. simpl. rewrite Hdo. simpl.
        apply Z.eqb_neq in Hn200. now rewrite Hn200.
    + intros H1 H2 H3. rewrite H1, H2. simpl. now apply afterLoop_transient.
Qed.

End FeedFacts.

Section ParseFacts.

Variable unmarshalComplete : string -> option CompleteTrack.t.
Variable unmarshalMinimal : string -> option MinimalTrack.t.
Variable unmarshalMap : string -> result (gmap string JSONValue).
Variable decodeAPIResponse : string -> result (list string).
Variable timeParse : string -> string -> option Time.
Variable timeNow : Time.
Variable buildAPIURL : Time -> string.
Variable httpNewRequest : string -> option error.
Variable Do : nat -> DoResult.

Local Abbreviation mapTrackToSong' := (mapTrackToSong timeParse timeNow).
Local Abbreviation parseTrackObject' :=
  (parseTrackObject unmarshalComplete unmarshalMinimal unmarshalMap timeParse timeNow).
Local Abbreviation parseEntry' :=
  (parseEntry unmarshalComplete unmarshalMinimal unmarshalMap timeParse timeNow).
Local Abbreviation parseResponse' :=
  (parseResponse unmarshalComplete unmarshalMinimal unmarshalMap timeParse timeNow).
Local Abbreviation FetchPlaylist' :=
  (FetchPlaylist unmarshalComplete unmarshalMinimal unmarshalMap decodeAPIResponse
     timeParse timeNow buildAPIURL httpNewRequest Do).

(** Every song [parseTrackObject] returns comes out of [mapTrackToSong]. *)
Lemma parseTrackObject_Ok raw song :
  parseTrackObject' raw = Ok song ->
  exists artistName trackName collectionName startTime,
    song = mapTrackToSong' artistName trackName collectionName startTime raw.
Proof.
  unfold parseTrackObject. intros H.
  repeat match type of H with
  | (match ?x with _ => _ end) = _ => destruct x eqn:?
  | (if ?b then _ else _) = _ => destruct b eqn:?
  end; try discriminate; injection H as <-; eauto.
Qed.

Local Abbreviation emittedFrom' := (emittedFrom timeParse timeNow).

Lemma parseEntry_emitted apiResponse coll raw :
  raw ∈ apiResponse ->
  (forall s, s ∈ SongCollection.Songs coll -> emittedFrom' apiResponse s) ->
  forall s, s ∈ SongCollection.Songs (parseEntry' coll raw) -> emittedFrom' apiResponse s.
Proof.
  intros Hraw Hcoll s. unfold parseEntry.
  destruct (parseTrackObject' raw) as [song|err] eqn:Hp; [|apply Hcoll].
  destruct (Song.IsValid song) eqn:Hv; [|apply Hcoll].
  simpl. intros Hin. apply elem_of_app in Hin as [Hin|Hin]; [now apply Hcoll|].
  apply list_elem_of_singleton in Hin as ->.
  apply parseTrackObject_Ok in Hp as (a & t & c & st & ->).
  exists raw, a, t, c, st. split; [assumption|]. split; [reflexivity|].
  unfold Song.IsValid in Hv. simpl in Hv.
  rewrite !strings_facts.TrimSpace_blank in Hv.
  apply andb_true_iff in Hv as [Ha Ht].
  split; now apply negb_true_iff.
Qed.

Lemma parseResponse_emitted apiResponse s :
  s ∈ SongCollection.Songs (parseResponse' apiResponse) -> emittedFrom' apiResponse s.
Proof.
  unfold parseResponse.
  assert (Hgen : forall l coll,
    (forall raw, raw ∈ l -> raw ∈ apiResponse) ->
    (forall s, s ∈ SongCollection.Songs coll -> emittedFrom' apiResponse s) ->
    forall s, s ∈ SongCollection.Songs (fold_left parseEntry' l coll) ->
              emittedFrom' apiResponse s).
  { induction l as [|raw l IH]; intros coll Hl Hcoll; simpl; [exact Hcoll|].
    apply IH.
    - intros raw' Hin. apply Hl. now apply list_elem_of_further.
    - apply parseEntry_emitted; [apply Hl, list_elem_of_here | exact Hcoll]. }
  apply Hgen; [auto|]. simpl. intros s' Hin. inversion Hin.
Qed.

Lemma FetchPlaylist_Ok date coll :
  snd (FetchPlaylist' date) = Ok coll ->
  exists apiResponse, coll = parseResponse' apiResponse.
Proof.
  unfold FetchPlaylist.
  destruct (httpNewRequest (buildAPIURL date)); [discriminate|].
  destruct (requestLoop Do 3 4 1 None) as [events [[err|resp]|]]; simpl;
    try discriminate.
  destruct (negb (Response.StatusCode resp =? StatusOK)%Z); [discriminate|].
  destruct (decodeAPIResponse (Response.Body resp)) as [apiResponse|err];
    [|discriminate].
  intros H. injection H as <-. eauto.
Qed.

(** C10. Every song in the collection returned by the feed client
    ([parseResponse], and [FetchPlaylist] through it) has an artist, a title
    and an album free of leading and trailing whitespace, and a non-empty
    artist and title; it stems from a feed entry whose artist name and track
    name are not blank, so an entry whose [artistName] or [trackName] holds
    only whitespace is never emitted; yet the validity predicate accepts any
    record whose artist and title are non-empty, whitespace-only included. *)
Theorem C10_emitted_songs_trimmed (coll : SongCollection.t) (s : Song.t) :
  (exists apiResponse, coll = parseResponse' apiResponse)
  \/ (exists date, snd (FetchPlaylist' date) = Ok coll) ->
  s ∈ SongCollection.Songs coll ->
  strings.isTrimmed (Song.Artist s) /\
  strings.isTrimmed (Song.Title s) /\
  strings.isTrimmed (Song.Album s) /\
  Song.Artist s <> "" /\ Song.Title s <> "" /\
  (exists raw artistName trackName collectionName startTime,
     s = mapTrackToSong' artistName trackName collectionName startTime raw /\
     strings.isBlank artistName = false /\ strings.isBlank trackName = false) /\
  (forall artist title album playedAt rawText,
     artist <> "" -> title <> "" ->
     Song.IsValid (Song.mk artist title album playedAt rawText) = true).
Proof.
  intros Hcoll Hin.
  assert (Hparsed : exists apiResponse, coll = parseResponse' apiResponse).
  { destruct Hcoll as [H|[date H]]; [exact H | now apply FetchPlaylist_Ok in H]. }
  destruct Hparsed as [apiResponse ->].
  apply parseResponse_emitted in Hin as (raw & a & t & c & st & _ & -> & Ha & Ht).
  simpl.
  split; [apply strings_facts.TrimSpace_isTrimmed|].
  split; [apply strings_facts.TrimSpace_isTrimmed|].
  split; [apply strings_facts.TrimSpace_isTrimmed|].
  split.
  { intros E. rewrite <- strings_facts.TrimSpace_blank, E in Ha. discriminate. }
  split.
  { intros E. rewrite <- strings_facts.TrimSpace_blank, E in Ht. discriminate. }
  split; [eauto 10|].
  intros artist title album playedAt rawText Hartist Htitle.
  unfold Song.IsValid. simpl.
  apply String.eqb_neq in Hartist, Htitle. now rewrite Hartist, Htitle.
Qed.

End ParseFacts.

(** The demo feed holds an entry whose artist name is three spaces: the
    record with that artist would be valid, and the client emits only the two
    other entries, trimmed. *)
Lemma C10_emitted_songs_trimmed_witness :
  Song.IsValid (Song.mk "   " "Blue in Green" "" 0%Z "") = true /\
  exists coll s,
    snd (Demo.fetch Demo.flaky) = Ok coll /\
    map Song.Artist (SongCollection.Songs coll) = ["Miles Davis"; "John Coltrane"] /\
    s ∈ SongCollection.Songs coll /\
    Song.RawText s = " Miles Davis |So What|Kind of Blue" /\
    strings.isTrimmed (Song.Artist s) /\ Song.Artist s <> "" /\ Song.Title s <> "".
Proof.
  split; [reflexivity|].
  eexists _, _. split; [vm_compute; reflexivity|].
  split; [reflexivity|]. split; [apply list_elem_of_here|]. split; [reflexivity|].
  destruct (C10_emitted_songs_trimmed Demo.unmarshalComplete Demo.unmarshalMinimal
              Demo.unmarshalMap Demo.decodeAPIResponse Demo.timeParse 42%Z
              Demo.buildAPIURL Demo.httpNewRequest Demo.flaky
              (SongCollection.mk
                 [Song.mk "Miles Davis" "So What" "Kind of Blue" 42%Z
                    " Miles Davis |So What|Kind of Blue";
                  Song.mk "John Coltrane" "Giant Steps" "" 42%Z
                    "John Coltrane|Giant Steps |"] 42%Z "kmhd_api")
              (Song.mk "Miles Davis" "So What" "Kind of Blue" 42%Z
                 " Miles Davis |So What|Kind of Blue"))
    as (Ha & _ & _ & Hne & Hnt & _).
  - right. exists 0%Z. vm_compute. reflexivity.
  - apply list_elem_of_here.
  - auto.
Defined.

(** A server that answers 502 twice and 200 to the third request is served
    within one call, after waits of 2 and 4 seconds. *)
Lemma C3_retry_budget_witness :
  fst (Demo.fetch Demo.flaky)
  = [EvDo 1; EvSleep (2 * Second); EvDo 2; EvSleep (4 * Second); EvDo 3] /\
  isOk (snd (Demo.fetch Demo.flaky)) = true /\
  fst (Demo.fetch Demo.down)
  = [EvDo 1; EvSleep (2 * Second); EvDo 2; EvSleep (4 * Second); EvDo 3] /\
  isOk (snd (Demo.fetch Demo.down)) = false.
Proof.
  destruct (C3_retry_budget Demo.unmarshalComplete Demo.unmarshalMinimal
              Demo.unmarshalMap Demo.decodeAPIResponse Demo.timeParse 42%Z
              Demo.buildAPIURL Demo.httpNewRequest Demo.flaky 0%Z)
    as [_ Hflaky].
  destruct (Hflaky eq_refl) as (Hev & Hacc & _).
  destruct (C3_retry_budget Demo.unmarshalComplete Demo.unmarshalMinimal
              Demo.unmarshalMap Demo.decodeAPIResponse Demo.timeParse 42%Z
              Demo.buildAPIURL Demo.httpNewRequest Demo.down 0%Z)
    as [_ Hdown].
  destruct (Hdown eq_refl) as (Hev' & _ & Hthree).
  split; [exact Hev|]. split.
  - destruct (Hacc 3%nat (Response.mk 200 "200 OK" Demo.body)) as [H200 _];
      [lia | | reflexivity |].
    + intros j Hj. assert (Hj' : j = 1%nat \/ j = 2%nat) by lia.
      destruct Hj' as [-> | ->]; reflexivity.
    + unfold Demo.fetch. rewrite (H200 eq_refl). reflexivity.
  - split; [exact Hev'|]. apply Hthree; reflexivity.
Defined.

(* ===================================================================== *)
(** * The sync loop: [syncSongsToSpotify] *)



Section SyncFacts.

Variable fuzzyFind : string -> string -> option Z.
Context {W : Type}.
Variable spotify : SpotifyService W.





End SyncFacts.

(* ===================================================================== *)
(** * The duplicate service: [CheckDuplicates] *)

Section DuplicateFacts.

Context {W : Type}.
Variable spotify : SpotifyService W.
Variable timeNow : Time.

(** On a non-empty list the service is called once, with every track id. *)
Lemma CheckDuplicates_calls playlistID track tracks (e : Env W) :
  calls (snd (CheckDuplicates spotify timeNow playlistID (track :: tracks) e))
  = calls e ++ [CallCheckTracksInPlaylist playlistID (map Track.ID (track :: tracks))].
Proof.
  unfold CheckDuplicates, bind, remoteCall, ret. simpl.
  destruct (CheckTracksInPlaylist spotify playlistID
              (Track.ID track :: map Track.ID tracks) (remote e)) as [[r|err] w];
    reflexivity.
Qed.

(** C9. For every playlist id, [CheckDuplicates] called with an empty track
    list returns a non-error result with [HasDuplicates = false] and
    [Message = "No tracks to check"], and does not invoke the destination
    service: the log of remote calls and the remote state are unchanged. *)
Theorem C9_CheckDuplicates_empty (playlistID : string) (e : Env W) :
  exists result,
    fst (CheckDuplicates spotify timeNow playlistID [] e) = Ok result /\
    DuplicateResult.HasDuplicates result = false /\
    DuplicateResult.Message result = "No tracks to check" /\
    calls (snd (CheckDuplicates spotify timeNow playlistID [] e)) = calls e /\
    snd (CheckDuplicates spotify timeNow playlistID [] e) = e.
Proof.
  eexists. split; [reflexivity|]. repeat split.
Qed.

End DuplicateFacts.

(* ===================================================================== *)
(** * Runs of the embedding on the demo catalog *)

Example TrimSpace_run :
  strings.TrimSpace (String (ascii_of_nat 9) "  So What  ") = "So What".
Proof. reflexivity. Qed.

Example ToLower_run : strings.ToLower "Kind Of BLUE [1959]" = "kind of blue [1959]".
Proof. reflexivity. Qed.

Example Contains_run :
  strings.Contains "miles davis" "davis" = true /\
  strings.Contains "miles davis" "" = true /\
  strings.Contains "miles" "miles davis" = false.
Proof. repeat split. Qed.

Example ofInt_run :
  float64.ofInt 11 = 11%float /\ float64.ofInt (-3) = (-3)%float /\
  float64.ofInt (2 ^ 53 + 1) = 9007199254740992%float.
Proof. repeat split; vm_compute; reflexivity. Qed.

(** The four branches of [calculateMatchConfidence]. *)
Example calculateMatchConfidence_run :
  calculateMatchConfidence Demo.fuzzyFind " MILES davis" "Miles Davis" = 1.0%float /\
  calculateMatchConfidence Demo.fuzzyFind "Miles" "Miles Davis"
  = (0.8 + 0.2 * (5 / 11))%float /\
  calculateMatchConfidence Demo.fuzzyFind "Miles Davis Quintet" "Miles Davis"
  = (0.7 + 0.2 * (11 / 19))%float /\
  calculateMatchConfidence Demo.fuzzyFind "mls dvs" "Miles Davis"
  = (7 / 14 * 0.7)%float /\
  calculateMatchConfidence Demo.fuzzyFind "Coltrane" "Miles Davis" = 0.1%float.
Proof. repeat split; vm_compute; reflexivity. Qed.

Example calculateAlbumConfidence_run :
  calculateAlbumConfidence Demo.fuzzyFind "  " (Some Demo.milestones) = 0.5%float /\
  calculateAlbumConfidence Demo.fuzzyFind "Milestones" (Some Demo.untitled) = 0.5%float /\
  calculateAlbumConfidence Demo.fuzzyFind "Milestones" None = 0.5%float /\
  calculateAlbumConfidence Demo.fuzzyFind "milestones" (Some Demo.milestones) = 1.0%float.
Proof. repeat split; vm_compute; reflexivity. Qed.

(** One cycle over the demo feed: the first play is added, the unknown
    artist and the record without a title are skipped; had the second play
    passed the filter, the playlist check would skip it. *)
Example syncSongsToSpotify_run :
  fst (syncSongsToSpotify Demo.fuzzyFind Demo.service Demo.feed Demo.playlist Demo.env0)
  = mkTally 1 3 /\
  remote (snd (syncSongsToSpotify Demo.fuzzyFind Demo.service Demo.feed Demo.playlist
                 Demo.env0)) = ["t1"] /\
  announced (stdout (snd (syncSongsToSpotify Demo.fuzzyFind Demo.service Demo.feed
                            Demo.playlist Demo.env0)))
  = map Song.String_ Demo.feed.
Proof. repeat split; vm_compute; reflexivity. Qed.

(** [CheckDuplicates] on a playlist that holds the first of two tracks. *)
Example CheckDuplicates_run :
  CheckDuplicates Demo.service 7%Z "p1" [Demo.soWhat; Demo.milestones]
    (mkEnv ["t1"] [] [])
  = (Ok (DuplicateResult.mk true [Demo.soWhat] 7%Z ""
           "Found 1 duplicate track(s): So What"),
     mkEnv ["t1"] [CallCheckTracksInPlaylist "p1" ["t1"; "t3"]] []).
Proof. vm_compute. reflexivity. Qed.

Example CheckDuplicates_empty_run :
  CheckDuplicates Demo.service 7%Z "p1" [] (mkEnv ["t1"] [] [])
  = (Ok (DuplicateResult.mk false [] 0%Z "" "No tracks to check"), mkEnv ["t1"] [] []).
Proof. reflexivity. Qed.

(* ===================================================================== *)
(** * Further facts about the [strings] functions *)

Module strings_more.
Import strings.

Lemma lowerByte_idem c : lowerByte (lowerByte c) = lowerByte c.
Proof. destruct c as [[] [] [] [] [] [] [] []]; reflexivity. Qed.

Lemma isSpace_lowerByte c : isSpace (lowerByte c) = isSpace c.
Proof. destruct c as [[] [] [] [] [] [] [] []]; reflexivity. Qed.

Lemma ToLower_idem s : ToLower (ToLower s) = ToLower s.
Proof.
  induction s as [|c s IH]; simpl; [reflexivity|].
  now rewrite lowerByte_idem, IH.
Qed.

Lemma ToLower_TrimLeft s : ToLower (TrimLeft s) = TrimLeft (ToLower s).
Proof.
  induction s as [|c s IH]; simpl; [reflexivity|].
  rewrite isSpace_lowerByte. destruct (isSpace c); [exact IH | reflexivity].
Qed.

Lemma isEmpty_ToLower s : isEmpty (ToLower s) = isEmpty s.
Proof. destruct s; reflexivity. Qed.

Lemma ToLower_TrimRight s : ToLower (TrimRight s) = TrimRight (ToLower s).
Proof.
  induction s as [|c s IH]; simpl; [reflexivity|].
  rewrite isSpace_lowerByte, <- IH, isEmpty_ToLower.
  destruct (isSpace c && isEmpty (TrimRight s)); reflexivity.
Qed.

(** Lower-casing and trimming commute. *)
Lemma ToLower_TrimSpace s : ToLower (TrimSpace s) = TrimSpace (ToLower s).
Proof. unfold TrimSpace. now rewrite ToLower_TrimRight, ToLower_TrimLeft. Qed.

Lemma TrimLeft_fixed s :
  (forall c, firstByte s = Some c -> isSpace c = false) -> TrimLeft s = s.
Proof.
  destruct s as [|a s]; simpl; [reflexivity|].
  intros H. now rewrite (H a eq_refl).
Qed.

Lemma TrimRight_idem s : TrimRight (TrimRight s) = TrimRight s.
Proof.
  induction s as [|c s IH]; simpl; [reflexivity|].
  destruct (isSpace c && isEmpty (TrimRight s)) eqn:E; [reflexivity|].
  simpl. rewrite IH, E. reflexivity.
Qed.

(** Trimming twice is trimming once. *)
Lemma TrimSpace_idem s : TrimSpace (TrimSpace s) = TrimSpace s.
Proof.
  unfold TrimSpace at 1.
  rewrite TrimLeft_fixed by apply (strings_facts.TrimSpace_isTrimmed s).
  unfold TrimSpace. apply TrimRight_idem.
Qed.

Lemma prefix_empty s : String.prefix "" s = true.
Proof. destruct s; reflexivity. Qed.


End strings_more.

Lemma normalize_ToLower s : normalize (strings.ToLower s) = normalize s.
Proof.
  unfold normalize.
  now rewrite <- strings_more.ToLower_TrimSpace, strings_more.ToLower_idem.
Qed.

Lemma normalize_TrimSpace s : normalize (strings.TrimSpace s) = normalize s.
Proof. unfold normalize. now rewrite strings_more.TrimSpace_idem. Qed.


Lemma filter_sublist {A} (p : A -> bool) (l : list A) : sublist (List.filter p l) l.
Proof.
  induction l as [|x l IH]; simpl; [constructor|].
  destruct (p x); now constructor.
Qed.



(* ===================================================================== *)
(** * The matcher: what a confidence depends on *)

Section MatcherInvariance.

Variable fuzzyFind : string -> string -> option Z.

Lemma calculateMatchConfidence_normalize q q' c c' :
  normalize q = normalize q' -> normalize c = normalize c' ->
  calculateMatchConfidence fuzzyFind q c = calculateMatchConfidence fuzzyFind q' c'.
Proof.
  unfold normalize, calculateMatchConfidence. intros -> ->. reflexivity.
Qed.

(** X1. [calculateMatchConfidence] does not see the case of its arguments
    nor the whitespace around them: lower-casing or trimming the query or
    the candidate leaves the confidence unchanged. *)
Theorem X1_confidence_ignores_case_and_padding (query candidate : string) :
  calculateMatchConfidence fuzzyFind (strings.ToLower query) candidate
  = calculateMatchConfidence fuzzyFind query candidate /\
  calculateMatchConfidence fuzzyFind query (strings.ToLower candidate)
  = calculateMatchConfidence fuzzyFind query candidate /\
  calculateMatchConfidence fuzzyFind (strings.TrimSpace query) candidate
  = calculateMatchConfidence fuzzyFind query candidate /\
  calculateMatchConfidence fuzzyFind query (strings.TrimSpace candidate)
  = calculateMatchConfidence fuzzyFind query candidate.
Proof.
  repeat split; apply calculateMatchConfidence_normalize;
    auto using normalize_ToLower, normalize_TrimSpace.
Qed.

End MatcherInvariance.

(* ===================================================================== *)
(** * The search command and the playlist filter *)









(* ===================================================================== *)
(** * The currently playing song *)

Lemma playedWithinDay_spec now song :
  playedWithinDay now song = true <->
  (0 <= Sub now (Song.PlayedAt song) < 24 * Hour)%Z.
Proof. unfold playedWithinDay. rewrite andb_true_iff, Z.leb_le, Z.ltb_lt. tauto. Qed.

Lemma closerSong_closestOf now seen acc song :
  closestOf now seen acc -> closestOf now (seen ++ [song]) (closerSong now acc song).
Proof.
  destruct acc as [m [current|]]; simpl.
  - intros (-> & Hcur & i & Hat & Hmin & Hfirst).
    assert (Hi : (i < length seen)%nat) by (eapply lookup_lt_Some; eauto).
    apply playedWithinDay_spec in Hcur as Hcur'.
    destruct (0 <=? Sub now (Song.PlayedAt song))%Z eqn:H0; simpl.
    + destruct (Sub now (Song.PlayedAt song) <? Sub now (Song.PlayedAt current))%Z eqn:Hlt.
      * apply Z.leb_le in H0. apply Z.ltb_lt in Hlt.
        split; [reflexivity|]. split; [apply playedWithinDay_spec; lia|].
        exists (length seen). split; [now rewrite lookup_app_r, Nat.sub_diag by lia|].
        split.
        -- intros s Hin Hs. apply elem_of_app in Hin as [Hin|Hin].
           ++ specialize (Hmin s Hin Hs). lia.
           ++ apply list_elem_of_singleton in Hin as ->. lia.
        -- intros j s Hj Hat' Hs. rewrite lookup_app_l in Hat' by lia.
           assert (Hin : s ∈ seen) by (eapply list_elem_of_lookup_2; eauto).
           specialize (Hmin s Hin Hs). lia.
      * apply Z.ltb_ge in Hlt.
        split; [reflexivity|]. split; [assumption|].
        exists i. split; [now rewrite lookup_app_l by lia|]. split.
        -- intros s Hin Hs. apply elem_of_app in Hin as [Hin|Hin]; [auto|].
           apply list_elem_of_singleton in Hin as ->. lia.
        -- intros j s Hj Hat' Hs. rewrite lookup_app_l in Hat' by lia. eauto.
    + split; [reflexivity|]. split; [assumption|].
      exists i. split; [now rewrite lookup_app_l by lia|]. split.
      * intros s Hin Hs. apply elem_of_app in Hin as [Hin|Hin]; [auto|].
        apply list_elem_of_singleton in Hin as ->.
        apply playedWithinDay_spec in Hs. apply Z.leb_gt in H0. lia.
      * intros j s Hj Hat' Hs. rewrite lookup_app_l in Hat' by lia. eauto.
  - intros (-> & Hnone).
    destruct (0 <=? Sub now (Song.PlayedAt song))%Z eqn:H0; simpl.
    + destruct (Sub now (Song.PlayedAt song) <? 24 * Hour)%Z eqn:Hlt.
      * split; [reflexivity|].
        split; [unfold playedWithinDay; now rewrite H0, Hlt|].
        exists (length seen). split; [now rewrite lookup_app_r, Nat.sub_diag by lia|].
        split.
        -- intros s Hin Hs. apply elem_of_app in Hin as [Hin|Hin].
           ++ rewrite (Hnone s Hin) in Hs. discriminate.
           ++ apply list_elem_of_singleton in Hin as ->. lia.
        -- intros j s Hj Hat' Hs. rewrite lookup_app_l in Hat' by lia.
           assert (Hin : s ∈ seen) by (eapply list_elem_of_lookup_2; eauto).
           rewrite (Hnone s Hin) in Hs. discriminate.
      * split; [reflexivity|].
        intros s Hin. apply elem_of_app in Hin as [Hin|Hin]; [auto|].
        apply list_elem_of_singleton in Hin as ->.
        unfold playedWithinDay. now rewrite H0, Hlt.
    + split; [reflexivity|].
      intros s Hin. apply elem_of_app in Hin as [Hin|Hin]; [auto|].
      apply list_elem_of_singleton in Hin as ->.
      unfold playedWithinDay. now rewrite H0.
Qed.

Lemma fold_closerSong_closestOf now songs : forall seen acc,
  closestOf now seen acc ->
  closestOf now (seen ++ songs) (fold_left (closerSong now) songs acc).
Proof.
  induction songs as [|s songs IH]; intros seen acc H; simpl.
  - now rewrite app_nil_r.
  - replace (seen ++ s :: songs) with ((seen ++ [s]) ++ songs)
      by now rewrite <- app_assoc.
    apply IH. now apply closerSong_closestOf.
Qed.

(** X4. On a non-empty collection [GetCurrentlyPlaying] returns a song of
    the collection: when some song was played within the 24 hours before
    now, the one played most recently (the first such in feed order), never
    one announced for the future; otherwise the first song of the
    collection. *)
Theorem X4_GetCurrentlyPlaying_most_recent (collection : SongCollection.t) (now : Time) :
  SongCollection.Songs collection <> [] ->
  exists song i,
    GetCurrentlyPlaying (Ok collection) now = Ok song /\
    SongCollection.Songs collection !! i = Some song /\
    ((exists s, s ∈ SongCollection.Songs collection /\ playedWithinDay now s = true) ->
       playedWithinDay now song = true /\
       (forall s, s ∈ SongCollection.Songs collection -> playedWithinDay now s = true ->
          (Sub now (Song.PlayedAt song) <= Sub now (Song.PlayedAt s))%Z) /\
       (forall j s, (j < i)%nat -> SongCollection.Songs collection !! j = Some s ->
          playedWithinDay now s = true ->
          (Sub now (Song.PlayedAt song) < Sub now (Song.PlayedAt s))%Z)) /\
    ((forall s, s ∈ SongCollection.Songs collection -> playedWithinDay now s = false) ->
       i = 0%nat).
Proof.
  intros Hne. unfold GetCurrentlyPlaying.
  destruct (SongCollection.Songs collection) as [|first rest] eqn:Hsongs; [congruence|].
  pose proof (fold_closerSong_closestOf now (first :: rest) [] ((24 * Hour)%Z, None)) as H.
  simpl app in H.
  destruct (fold_left (closerSong now) (first :: rest) ((24 * Hour)%Z, None))
    as [m [current|]].
  - destruct H as (-> & Hcur & i & Hat & Hmin & Hfirst).
    { split; [reflexivity|]. intros s Hin. inversion Hin. }
    exists current, i. split; [reflexivity|]. split; [assumption|]. split.
    + intros _. auto.
    + intros Hnone. rewrite Hnone in Hcur; [discriminate|].
      eapply list_elem_of_lookup_2; eauto.
  - destruct H as (_ & Hnone).
    { split; [reflexivity|]. intros s Hin. inversion Hin. }
    exists first, 0%nat. split; [reflexivity|]. split; [reflexivity|]. split.
    + intros (s & Hin & Hs). rewrite (Hnone s Hin) in Hs. discriminate.
    + reflexivity.
Qed.

(** At 1200 the play of 1100 is the current one, although listed third and
    followed by a play announced for 1700; a failed fetch and an empty
    collection are errors. *)
Lemma X4_GetCurrentlyPlaying_most_recent_witness :
  GetCurrentlyPlaying (Ok Fixtures.collection) 1200%Z = Ok Demo.noTitle /\
  isOk (GetCurrentlyPlaying (Err "down") 1200%Z) = false /\
  isOk (GetCurrentlyPlaying (Ok (SongCollection.mk [] 0%Z "kmhd_api")) 1200%Z) = false /\
  exists song i,
    GetCurrentlyPlaying (Ok Fixtures.collection) 1200%Z = Ok song /\
    SongCollection.Songs Fixtures.collection !! i = Some song.
Proof.
  split; [vm_compute; reflexivity|]. split; [reflexivity|]. split; [reflexivity|].
  destruct (X4_GetCurrentlyPlaying_most_recent Fixtures.collection 1200%Z)
    as (song & i & Hrun & Hat & _); [discriminate|].
  exists song, i. auto.
Defined.

(* ===================================================================== *)
(** * The scheduler's delay *)

Lemma wrap64_id z : (minDuration <= z <= maxDuration)%Z -> wrap64 z = z.
Proof.
  unfold wrap64, minDuration, maxDuration. intros H.
  rewrite Z.mod_small by lia. lia.
Qed.

(** X5. When the random source keeps its contract (a value in [[0, max)]) or
    fails after 1970, and the base interval leaves room for an hour below
    the largest duration, [calculateNextSyncTime] returns the base interval
    plus a whole number of seconds in [[0, 3600)]: never less than the base
    interval, and less than an hour more. *)
Theorem X5_calculateNextSyncTime_bounds (randInt : Z -> result Z) (unixNano baseInterval : Z) :
  (forall n, randInt 3600%Z = Ok n -> (0 <= n < 3600)%Z) ->
  (0 <= unixNano)%Z ->
  (minDuration <= baseInterval)%Z ->
  (baseInterval + 3600 * Second <= maxDuration)%Z ->
  exists seconds,
    (0 <= seconds < 3600)%Z /\
    calculateNextSyncTime randInt unixNano baseInterval
    = (baseInterval + seconds * Second)%Z /\
    (baseInterval <= calculateNextSyncTime randInt unixNano baseInterval
     < baseInterval + 3600 * Second)%Z.
Proof.
  intros Hrand Hclock Hlo Hhi.
  set (n := generateSecureRandomInt randInt unixNano 3600).
  assert (Hn : (0 <= n < 3600)%Z).
  { unfold n, generateSecureRandomInt.
    destruct (randInt 3600%Z) as [k|err] eqn:E; [now apply Hrand|].
    apply Z.rem_bound_pos; lia. }
  exists n. split; [exact Hn|].
  assert (Heq : calculateNextSyncTime randInt unixNano baseInterval
                = (baseInterval + n * Second)%Z).
  { unfold calculateNextSyncTime. fold n.
    unfold Second, minDuration, maxDuration in *.
    rewrite (wrap64_id (n * 1000000000)) by (unfold minDuration, maxDuration; lia).
    apply wrap64_id. unfold minDuration, maxDuration. lia. }
  split; [exact Heq|]. rewrite Heq. unfold Second. lia.
Qed.

Lemma X5_calculateNextSyncTime_bounds_witness :
  calculateNextSyncTime Fixtures.randomOk 0 Hour = (Hour + 1234 * Second)%Z /\
  calculateNextSyncTime Fixtures.randomDown 7199 Hour = (Hour + 3599 * Second)%Z /\
  exists seconds,
    (0 <= seconds < 3600)%Z /\
    calculateNextSyncTime Fixtures.randomOk 0 Hour = (Hour + seconds * Second)%Z.
Proof.
  split; [reflexivity|]. split; [reflexivity|].
  destruct (X5_calculateNextSyncTime_bounds Fixtures.randomOk 0 Hour)
    as (seconds & Hs & Heq & _).
  - intros n H. injection H as <-. lia.
  - lia.
  - vm_compute. discriminate.
  - vm_compute. discriminate.
  - exists seconds. auto.
Defined.

(* ===================================================================== *)
(** * The monthly playlist *)

Section MonthlyFacts.

Context {W : Type}.
Variable GetUserPlaylists : string -> W -> result (list Playlist.t) * W.
Variable CreatePlaylist : string -> string -> bool -> W -> result Playlist.t * W.
Variable year month : nat.
Variable monthName : string.




End MonthlyFacts.


(** Reading back a printed number. *)
Lemma readDecimal_zero s : readDecimal (String "0" s) = readDecimal s.
Proof.
  unfold readDecimal. simpl.
  destruct (NilEmpty.uint_of_string s) as [d|]; reflexivity.
Qed.

Lemma readDecimal_itoa n : readDecimal (itoa n) = Some n.
Proof.
  unfold readDecimal, itoa.
  pose proof (DecimalNat.Unsigned.of_to n) as Hn.
  destruct (Nat.to_uint n) as [|d|d|d|d|d|d|d|d|d|d] eqn:E;
    try (change (NilZero.string_of_uint ?x) with (NilEmpty.string_of_uint x);
         rewrite NilEmpty.usu; simpl; now rewrite Hn).
  simpl in *. now rewrite <- Hn.
Qed.

Lemma readDecimal_padded width n : readDecimal (padded width n) = Some n.
Proof.
  unfold padded. induction (width - String.length (itoa n))%nat as [|k IH].
  - apply readDecimal_itoa.
  - change (zeros (S k) +:+ itoa n) with (String "0" (zeros k +:+ itoa n)).
    now rewrite readDecimal_zero.
Qed.

Lemma length_zeros n : String.length (zeros n) = n.
Proof. induction n; simpl; auto. Qed.

Lemma length_append s t : String.length (s +:+ t) = (String.length s + String.length t)%nat.
Proof. induction s as [|c s IH]; simpl; auto. Qed.

Lemma itoa_year_length : forall n, (n < 100 * 100)%nat -> (String.length (itoa n) <= 4)%nat.
Proof.
  assert (H : forallb (fun n => String.length (itoa n) <=? 4)%nat (seq 0 (100 * 100)) = true)
    by (vm_compute; reflexivity).
  intros n Hn. rewrite forallb_forall in H.
  apply Nat.leb_le, H, in_seq. lia.
Qed.

Lemma padded_year_length n : (n < 100 * 100)%nat -> String.length (padded 4 n) = 4%nat.
Proof.
  intros Hn. apply itoa_year_length in Hn.
  unfold padded. rewrite length_append, length_zeros. lia.
Qed.

Lemma append_cancel_l p s t : p +:+ s = p +:+ t -> s = t.
Proof. induction p as [|c p IH]; simpl; [auto|]. intros [= H]. auto. Qed.

Lemma append_split s1 : forall s2 t1 t2,
  String.length s1 = String.length s2 -> s1 +:+ t1 = s2 +:+ t2 -> s1 = s2 /\ t1 = t2.
Proof.
  induction s1 as [|c s1 IH]; intros [|d s2] t1 t2 Hlen H; simpl in *;
    try discriminate; [auto|].
  injection H as -> H. destruct (IH s2 t1 t2) as [-> ->]; auto.
Qed.

(** X7. The monthly playlist name determines its month: with one prefix and
    four-digit years, two names are equal only for the same year and the
    same month; and the year and month can be read back from the digits of
    the name. *)
Theorem X7_monthlyPlaylistName_injective (prefix : string) (year month year' month' : nat) :
  (year < 100 * 100)%nat -> (year' < 100 * 100)%nat ->
  monthlyPlaylistName prefix year month = monthlyPlaylistName prefix year' month' ->
  year = year' /\ month = month' /\
  readDecimal (padded 4 year) = Some year /\ readDecimal (padded 2 month) = Some month.
Proof.
  intros Hy Hy' H. unfold monthlyPlaylistName in H.
  apply append_cancel_l, append_cancel_l in H.
  apply append_split in H as [Hyear H];
    [|now rewrite !padded_year_length].
  apply append_cancel_l in H. rename H into Hmonth.
  pose proof (readDecimal_padded 4 year) as R1.
  pose proof (readDecimal_padded 4 year') as R2.
  pose proof (readDecimal_padded 2 month) as R3.
  pose proof (readDecimal_padded 2 month') as R4.
  rewrite Hyear in R1. rewrite Hmonth in R3.
  split; [congruence|]. split; [congruence|].
  split; apply readDecimal_padded.
Qed.

Lemma X7_monthlyPlaylistName_injective_witness :
  monthlyPlaylistName "KMHD" 2025 3 = "KMHD-2025-03" /\
  monthlyPlaylistName "KMHD" 987 12 = "KMHD-0987-12" /\
  (2025 = 2025 /\ 3 = 3 /\
   readDecimal (padded 4 2025) = Some 2025 /\ readDecimal (padded 2 3) = Some 3)%nat.
Proof.
  split; [reflexivity|]. split; [reflexivity|].
  apply (X7_monthlyPlaylistName_injective "KMHD" 2025 3 2025 3); [lia | lia | reflexivity].
Defined.

(* ===================================================================== *)
(** * The matcher: calls, errors and the query-less search *)

Lemma SFcompare_Le_Lt_trans x y z :
  SFcompare x y = Some Lt \/ SFcompare x y = Some Eq ->
  SFcompare y z = Some Lt -> SFcompare x z = Some Lt.
Proof.
  destruct x as [?s|?s| |?s ?m ?e], y as [?s|?s| |?s ?m ?e], z as [?s|?s| |?s ?m ?e];
    simpl; try (intros [?|?]; congruence);
    repeat match goal with s : bool |- _ => destruct s end; simpl;
    try (intros [?|?]; congruence);
    change (Pos.compare_cont Eq) with Pos.compare;
    intros [?|?] ?; cmp_cases; try congruence; try lia.
Qed.

Lemma leb_ltb_trans x y z :
  (x <=? y)%float = true -> (y <? z)%float = true -> (x <? z)%float = true.
Proof.
  rewrite !float64_facts.ltb_Lt, FloatAxioms.leb_spec. unfold SFleb.
  intros H. apply SFcompare_Le_Lt_trans.
  destruct (SFcompare (Prim2SF x) (Prim2SF y)) as [[]|]; auto; discriminate.
Qed.

(** X10. No match is both of high and of low confidence, whatever its
    overall confidence, NaN included; the thresholds are those of the
    float64 comparisons [>= 0.8] and [< 0.5]. *)
Theorem X10_high_and_low_confidence_exclude (sm : SongMatch.t) :
  SongMatch.IsHighConfidence sm && SongMatch.IsLowConfidence sm = false.
Proof.
  unfold SongMatch.IsHighConfidence, SongMatch.IsLowConfidence.
  destruct (0.8 <=? SongMatch.OverallConfidence sm)%float eqn:Hhi; [|reflexivity].
  destruct (SongMatch.OverallConfidence sm <? 0.5)%float eqn:Hlo; [|reflexivity].
  pose proof (leb_ltb_trans _ _ _ Hhi Hlo) as H. vm_compute in H. discriminate.
Qed.

Section MatcherCalls.

Variable fuzzyFind : string -> string -> option Z.
Context {W : Type}.
Variable spotify : SpotifyService W.


(** X9. Without an album query ([FindBestSongMatch]) every match reports the
    neutral album confidence 0.5 and the empty album query; without a song
    query the match is the artist's first track, with song confidence 1.0
    and the empty song query, whatever the title of that track. *)
Theorem X9_FindBestSongMatch_defaults (artistQuery songQuery : string) (e e' : Env W)
    (m : SongMatch.t) :
  FindBestSongMatch fuzzyFind spotify artistQuery songQuery e = (Ok m, e') ->
  SongMatch.AlbumQuery m = "" /\
  SongMatch.AlbumConfidence m = 0.5%float /\
  SongMatch.ArtistQuery m = artistQuery /\
  (strings.isBlank songQuery = true ->
     SongMatch.SongQuery m = "" /\
     SongMatch.SongConfidence m = 1.0%float /\
     exists w1 rest w2,
       GetArtistTopTracks spotify (Artist.ID (SongMatch.Artist m)) w1
       = (Ok (SongMatch.Track m :: rest), w2)).
Proof.
  unfold FindBestSongMatch. intros H.
  apply FindBestSongMatchWithAlbum_Ok in H
    as (artist & w1 & track0 & rest & w2 & _ & _ & Htop & Hm).
  cbv zeta in Hm. destruct (strings.isBlank songQuery) eqn:Hsq; subst m; simpl.
  - split; [reflexivity|]. split; [reflexivity|]. split; [reflexivity|].
    intros _. split; [reflexivity|]. split; [reflexivity|]. eauto.
  - destruct (selectBest_BestOf fuzzyFind
        (calculateMatchConfidence fuzzyFind artistQuery (Artist.Name artist))
        songQuery "" track0 rest) as [i [_ _ Hal _ _ _]].
    rewrite Hal. split; [reflexivity|]. split; [reflexivity|]. split; [reflexivity|].
    discriminate.
Qed.

End MatcherCalls.

Lemma X9_FindBestSongMatch_defaults_witness :
  exists m e',
    FindBestSongMatch Demo.fuzzyFind Demo.service "Miles Davis" "  " Demo.env0 = (Ok m, e') /\
    SongMatch.Track m = Demo.soWhat /\
    SongMatch.AlbumConfidence m = 0.5%float /\
    SongMatch.AlbumQuery m = "".
Proof.
  eexists _, _. split; [vm_compute; reflexivity|]. split; [reflexivity|].
  destruct (X9_FindBestSongMatch_defaults Demo.fuzzyFind Demo.service "Miles Davis" "  "
              Demo.env0 _ _ ltac:(vm_compute; reflexivity)) as (Hq & Hal & _).
  split; assumption.
Defined.

(* ===================================================================== *)
(** * The sync loop: its remote calls *)




Section SyncCalls.

Variable fuzzyFind : string -> string -> option Z.
Context {W : Type}.
Variable spotify : SpotifyService W.





End SyncCalls.

(* ===================================================================== *)
(** * Cycle filtering on any maps, and one cycle *)

Lemma firstNew_sublist songs : forall isSeen, sublist (firstNew isSeen songs) songs.
Proof.
  induction songs as [|s songs IH]; intros isSeen; simpl; [constructor|].
  destruct (isSeen (songKey s)); constructor; apply IH.
Qed.

Lemma firstNew_unseen songs : forall isSeen s,
  s ∈ firstNew isSeen songs -> isSeen (songKey s) = false.
Proof.
  induction songs as [|x songs IH]; intros isSeen s; simpl; [inversion 1|].
  destruct (isSeen (songKey x)) eqn:Hx; [apply IH|].
  intros Hin. apply elem_of_cons in Hin as [->|Hin]; [exact Hx|].
  apply IH in Hin. now apply orb_false_iff in Hin.
Qed.

Lemma firstNew_NoDup_keys songs : forall isSeen, NoDup (map songKey (firstNew isSeen songs)).
Proof.
  induction songs as [|x songs IH]; intros isSeen; simpl; [constructor|].
  destruct (isSeen (songKey x)); [apply IH|].
  simpl. apply NoDup_cons. split; [|apply IH].
  intros Hin. apply list_elem_of_In, in_map_iff in Hin as (s & Hkey & Hin).
  apply list_elem_of_In, firstNew_unseen in Hin.
  rewrite Hkey, String.eqb_refl in Hin. discriminate.
Qed.

Section FilterMore.

Variable now : Time.

(** The process-lifetime map after the loop: the old entries, and the keys
    of the new songs stamped [now]. *)
Lemma filter_global songs : forall st k,
  globalSeenSongs (fold_left (filterSong now) songs st) !! k
  = match globalSeenSongs st !! k with
    | Some t => Some t
    | None =>
        if bool_decide
             (k ∈ map songKey (firstNew (seenBefore st) (List.filter Song.IsValid songs)))
        then Some now else None
    end.
Proof.
  induction songs as [|s songs IH]; intros st k; simpl.
  - destruct (globalSeenSongs st !! k); reflexivity.
  - destruct (Song.IsValid s) eqn:Hv.
    2:{ rewrite filterSong_invalid by assumption. apply IH. }
    simpl. destruct (seenBefore st (songKey s)) eqn:Hs.
    { rewrite filterSong_seen by assumption. apply IH. }
    rewrite filterSong_new by assumption. rewrite IH. simpl.
    rewrite (firstNew_ext _ (fun k0 => String.eqb k0 (songKey s) || seenBefore st k0))
      by (intros k0; apply seenBefore_new).
    destruct (decide (songKey s = k)) as [<-|Hne].
    + rewrite lookup_insert_eq.
      unfold seenBefore in Hs. apply orb_false_iff in Hs as [_ Hg].
      apply bool_decide_eq_false in Hg.
      destruct (globalSeenSongs st !! songKey s) eqn:E; [exfalso; apply Hg; eauto|].
      rewrite bool_decide_eq_true_2; [reflexivity | apply list_elem_of_here].
    + rewrite lookup_insert_ne by assumption.
      destruct (globalSeenSongs st !! k); [reflexivity|].
      apply f_equal with (f := fun b : bool => if b then Some now else None).
      apply bool_decide_ext. rewrite elem_of_cons. intuition congruence.
Qed.

Lemma filterSong_marksInProcess st song :
  marksInProcess st -> marksInProcess (filterSong now st song).
Proof.
  intros H.
  destruct (Song.IsValid song) eqn:Hv; [|now rewrite filterSong_invalid].
  destruct (seenBefore st (songKey song)) eqn:Hs; [now rewrite filterSong_seen|].
  rewrite filterSong_new by assumption. intros k. simpl.
  destruct (decide (songKey song = k)) as [<-|Hne].
  - rewrite !lookup_insert_eq. eauto.
  - rewrite !lookup_insert_ne by assumption. apply H.
Qed.

Lemma filter_marksInProcess songs : forall st,
  marksInProcess st -> marksInProcess (fold_left (filterSong now) songs st).
Proof.
  induction songs as [|s songs IH]; intros st H; simpl; [assumption|].
  apply IH. now apply filterSong_marksInProcess.
Qed.

(** A list whose valid songs are all seen passes through the loop without
    any effect. *)
Lemma filter_nothing_new songs : forall st,
  (forall s, s ∈ songs -> Song.IsValid s = true -> seenBefore st (songKey s) = true) ->
  fold_left (filterSong now) songs st = st.
Proof.
  induction songs as [|x songs IH]; intros st H; simpl; [reflexivity|].
  assert (Hx : filterSong now st x = st).
  { destruct (Song.IsValid x) eqn:Hv; [|now apply filterSong_invalid].
    apply filterSong_seen; [assumption|]. apply H; [apply list_elem_of_here | assumption]. }
  rewrite Hx. apply IH. intros s Hin. apply H. now apply list_elem_of_further.
Qed.

(** X12. Whatever the two maps hold, [filterNewSongs] returns a
    subsequence of its input: valid songs only, with pairwise distinct
    "artist - title" keys, none of which was marked in the cycle map or
    present in the process-lifetime map.  The process-lifetime map keeps
    every entry it had, first-seen time included, and gains exactly the keys
    of the returned songs, stamped with the current time. *)
Theorem X12_filterNewSongs_any_maps (songs : list Song.t)
    (seen : gmap string bool) (global : gmap string Time) :
  let st := filterNewSongs now songs seen global in
  sublist (newSongs st) songs /\
  (forall s, s ∈ newSongs st ->
     Song.IsValid s = true /\
     default false (seen !! songKey s) = false /\ global !! songKey s = None) /\
  NoDup (map songKey (newSongs st)) /\
  (forall k t, global !! k = Some t -> globalSeenSongs st !! k = Some t) /\
  (forall k, global !! k = None ->
     globalSeenSongs st !! k
     = if bool_decide (k ∈ map songKey (newSongs st)) then Some now else None).
Proof.
  intros st. subst st. unfold filterNewSongs.
  rewrite filter_newSongs. simpl.
  set (init := mkSeen [] seen global).
  split.
  { etransitivity; [apply firstNew_sublist | apply filter_sublist]. }
  split.
  { intros s Hin. split.
    - pose proof (elem_of_sublist _ _ s Hin (firstNew_sublist _ _)) as Hin'.
      apply list_elem_of_In, filter_In in Hin'. tauto.
    - apply firstNew_unseen in Hin. unfold seenBefore in Hin. simpl in Hin.
      apply orb_false_iff in Hin as [Hc Hg]. split; [exact Hc|].
      apply bool_decide_eq_false in Hg.
      destruct (global !! songKey s) eqn:E; [exfalso; apply Hg; eauto | reflexivity]. }
  split; [apply firstNew_NoDup_keys|].
  split.
  - intros k t Hk. rewrite filter_global. simpl. now rewrite Hk.
  - intros k Hk. rewrite filter_global. simpl. now rewrite Hk.
Qed.

End FilterMore.

Section CycleFacts.

Variable fuzzyFind : string -> string -> option Z.
Context {W : Type}.
Variable spotify : SpotifyService W.

Lemma length_zero_nil {A} (l : list A) : Nat.eqb (length l) 0 = true <-> l = [].
Proof. destruct l; simpl; split; congruence. Qed.

Lemma runSingleSync_idle (scraped : result SongCollection.t) (now : Time)
    (targetPlaylist : Playlist.t) (c : Cycle W) :
  match scraped with
  | Err _ => True
  | Ok songCollection =>
      forall s, s ∈ SongCollection.Songs songCollection -> Song.IsValid s = true ->
        seenBefore (mkSeen [] (cycleSeen c) (processSeen c)) (songKey s) = true
  end ->
  runSingleSync fuzzyFind spotify scraped now targetPlaylist c = c.
Proof.
  unfold runSingleSync. destruct scraped as [songCollection|err]; [|reflexivity].
  intros Hseen.
  destruct (Nat.eqb (length (SongCollection.Songs songCollection)) 0); [reflexivity|].
  unfold filterNewSongs. rewrite filter_nothing_new by assumption. simpl.
  now destruct c.
Qed.

(** X13. A cycle changes nothing at all (no remote call, no output, both
    maps as they were) when the fetch fails, when the feed is empty, and
    when every valid song of the feed is already marked in the cycle map or
    present in the process-lifetime map. *)
Theorem X13_idle_cycle (now : Time) (targetPlaylist : Playlist.t) (c : Cycle W) :
  (forall err, runSingleSync fuzzyFind spotify (Err err) now targetPlaylist c = c) /\
  (forall songCollection,
     SongCollection.Songs songCollection = [] ->
     runSingleSync fuzzyFind spotify (Ok songCollection) now targetPlaylist c = c) /\
  (forall songCollection,
     (forall s, s ∈ SongCollection.Songs songCollection -> Song.IsValid s = true ->
        seenBefore (mkSeen [] (cycleSeen c) (processSeen c)) (songKey s) = true) ->
     runSingleSync fuzzyFind spotify (Ok songCollection) now targetPlaylist c = c).
Proof.
  split; [reflexivity|]. split.
  - intros songCollection Hnil. apply runSingleSync_idle.
    rewrite Hnil. intros s Hin. inversion Hin.
  - intros songCollection Hseen. now apply runSingleSync_idle.
Qed.

Lemma runSingleSync_process songCollection now targetPlaylist global (e : Env W) :
  processSeen (runSingleSync fuzzyFind spotify (Ok songCollection) now targetPlaylist
                 (mkCycle ∅ global e))
  = globalSeenSongs
      (filterNewSongs now (SongCollection.Songs songCollection) ∅ global).
Proof.
  unfold runSingleSync. simpl.
  destruct (SongCollection.Songs songCollection) as [|s songs] eqn:Hsongs;
    [reflexivity|].
  simpl Nat.eqb. cbv iota.
  destruct (Nat.eqb (length (newSongs (filterNewSongs now (s :: songs) ∅ global))) 0);
    [reflexivity|].
  destruct (syncSongsToSpotify fuzzyFind spotify _ targetPlaylist e). reflexivity.
Qed.

(** X14. Two cycles in a row over the same feed, each with a fresh cycle
    map, whatever the process-lifetime map held before: the second cycle
    makes no remote call, prints nothing and leaves the process-lifetime map
    as the first cycle left it. *)
Theorem X14_second_cycle_is_idle (songCollection : SongCollection.t) (now1 now2 : Time)
    (targetPlaylist : Playlist.t) (global : gmap string Time) (e : Env W) :
  let first := runSingleSync fuzzyFind spotify (Ok songCollection) now1 targetPlaylist
                 (mkCycle ∅ global e) in
  let second := runSingleSync fuzzyFind spotify (Ok songCollection) now2 targetPlaylist
                  (mkCycle ∅ (processSeen first) (cycleEnv first)) in
  cycleEnv second = cycleEnv first /\
  processSeen second = processSeen first /\
  cycleSeen second = ∅.
Proof.
  intros first second.
  assert (Hidle : second = mkCycle ∅ (processSeen first) (cycleEnv first)).
  { unfold second. apply runSingleSync_idle. simpl. intros s Hin Hv.
    unfold first. rewrite runSingleSync_process.
    unfold filterNewSongs.
    pose proof (filter_covers now1 (SongCollection.Songs songCollection)
                  (mkSeen [] ∅ global) s Hin Hv) as Hcov.
    assert (Hmarks : marksInProcess
              (fold_left (filterSong now1) (SongCollection.Songs songCollection)
                 (mkSeen [] ∅ global))).
    { apply filter_marksInProcess. intros k. simpl. rewrite lookup_empty. discriminate. }
    unfold seenBefore in *. simpl. rewrite lookup_empty. simpl.
    apply orb_true_iff in Hcov as [Hc|Hg]; [|exact Hg].
    apply bool_decide_eq_true. now apply Hmarks. }
  rewrite Hidle. auto.
Qed.

End CycleFacts.

(* ===================================================================== *)
(** * The duplicate service on a non-empty list, and per artist *)

Lemma flagged_nil_l flags : flagged [] flags = [].
Proof. reflexivity. Qed.

Lemma collectDuplicates_flagged tracks flags : forall i,
  collectDuplicates tracks i flags = flagged (drop i tracks) flags.
Proof.
  induction flags as [|flag flags IH]; intros i; simpl.
  - now destruct (drop i tracks).
  - destruct (tracks !! i) as [track|] eqn:Hi.
    + rewrite (drop_S _ _ _ Hi). simpl. rewrite IH. now destruct flag.
    + apply lookup_ge_None in Hi. rewrite drop_ge by lia. simpl.
      assert (H : collectDuplicates tracks (S i) flags = []).
      { rewrite IH, drop_ge by lia. reflexivity. }
      destruct flag; exact H.
Qed.

Lemma flagged_sublist tracks : forall flags, sublist (flagged tracks flags) tracks.
Proof.
  induction tracks as [|t tracks IH]; intros [|[] flags]; simpl;
    try constructor; try apply IH; apply sublist_nil_l.
Qed.

Lemma flagged_nonempty tracks : forall flags,
  flagged tracks flags <> [] <->
  exists i track, flags !! i = Some true /\ tracks !! i = Some track.
Proof.
  induction tracks as [|t tracks IH]; intros flags.
  - simpl. split; [congruence|]. intros (i & track & _ & H). now rewrite lookup_nil in H.
  - destruct flags as [|[] flags]; simpl.
    + split; [congruence|]. intros (i & track & H & _). now rewrite lookup_nil in H.
    + split; [|discriminate]. intros _. exists 0%nat, t. auto.
    + rewrite IH. split.
      * intros (i & track & H1 & H2). exists (S i), track. auto.
      * intros ([|i] & track & H1 & H2); simpl in *; [discriminate|]. eauto.
Qed.

Section DuplicateMore.

Context {W : Type}.
Variable spotify : SpotifyService W.
Variable timeNow : Time.
Variable formatTime : Time -> string.

(** X15. On a non-empty track list [CheckDuplicates] asks the catalog once,
    for all track ids in order, and prints nothing.  A failing check is an
    error.  Otherwise the duplicates are exactly the tracks whose flag is
    set, in their order (surplus flags and unflagged tracks are ignored
    without failure), [HasDuplicates] says whether there is one, and the
    check is stamped with the current time. *)
Theorem X15_CheckDuplicates_reports_flagged (playlistID : string) (tracks : list Track.t)
    (e : Env W) :
  tracks <> [] ->
  let run := CheckDuplicates spotify timeNow playlistID tracks e in
  calls (snd run)
  = calls e ++ [CallCheckTracksInPlaylist playlistID (map Track.ID tracks)] /\
  stdout (snd run) = stdout e /\
  (forall err w, CheckTracksInPlaylist spotify playlistID (map Track.ID tracks) (remote e)
                 = (Err err, w) ->
     fst run = Err ("failed to check tracks in playlist: " +:+ err)) /\
  (forall flags w, CheckTracksInPlaylist spotify playlistID (map Track.ID tracks) (remote e)
                   = (Ok flags, w) ->
     exists result,
       fst run = Ok result /\
       DuplicateResult.DuplicateTracks result = flagged tracks flags /\
       sublist (DuplicateResult.DuplicateTracks result) tracks /\
       (DuplicateResult.HasDuplicates result = true <->
        exists i track, flags !! i = Some true /\ tracks !! i = Some track) /\
       (DuplicateResult.HasDuplicates result = false ->
        DuplicateResult.Message result = "No duplicate tracks found") /\
       DuplicateResult.LastAdded result = timeNow).
Proof.
  intros Hne run. subst run.
  destruct tracks as [|track tracks]; [congruence|].
  unfold CheckDuplicates, bind, remoteCall, ret.
  change (Nat.eqb (length (track :: tracks)) 0) with false. cbv iota zeta beta.
  destruct (CheckTracksInPlaylist spotify playlistID (map Track.ID (track :: tracks))
              (remote e)) as [[flags|err] w] eqn:Hcheck; cbn [fst snd calls stdout].
  - split; [reflexivity|]. split; [reflexivity|]. split; [intros ? ? [=]|].
    intros flags' w' [= <- <-]. eexists. split; [reflexivity|].
    cbn [DuplicateResult.DuplicateTracks DuplicateResult.HasDuplicates
         DuplicateResult.Message DuplicateResult.LastAdded].
    rewrite (collectDuplicates_flagged (track :: tracks) flags 0).
    change (drop 0 (track :: tracks)) with (track :: tracks).
    split; [reflexivity|]. split; [apply flagged_sublist|].
    split; [|split; [|reflexivity]].
    + rewrite <- flagged_nonempty.
      destruct (flagged (track :: tracks) flags); cbn [length Nat.ltb Nat.leb];
        split; [discriminate | congruence | discriminate | reflexivity].
    + destruct (flagged (track :: tracks) flags); cbn [length Nat.ltb Nat.leb];
        [reflexivity | discriminate].
  - split; [reflexivity|]. split; [reflexivity|].
    split; [now intros ? ? [= <- <-]|]. intros ? ? [=].
Qed.

(** X16. [CheckArtistInPlaylist] looks the artist's tracks up first.  When
    the lookup fails or finds no track, the playlist is not consulted: an
    error in the first case, "no duplicates" in the second.  Otherwise the
    duplicates are those [CheckDuplicates] finds among these tracks, and the
    artist name is that of the first artist of the first track, empty when
    that track names none. *)
Theorem X16_CheckArtistInPlaylist (playlistID artistID : string) (e : Env W) :
  let run := CheckArtistInPlaylist spotify timeNow formatTime playlistID artistID e in
  let lookup := GetArtistTopTracks spotify artistID (remote e) in
  let e1 := mkEnv (snd lookup) (calls e ++ [CallGetArtistTopTracks artistID]) (stdout e) in
  (forall err, fst lookup = Err err ->
     run = (Err ("failed to get artist top tracks: " +:+ err), e1)) /\
  (fst lookup = Ok [] ->
     run = (Ok (DuplicateResult.mk false [] 0%Z "" "Artist has no tracks"), e1)) /\
  (forall track0 rest, fst lookup = Ok (track0 :: rest) ->
     let check := CheckDuplicates spotify timeNow playlistID (track0 :: rest) e1 in
     snd run = snd check /\
     (forall err, fst check = Err err -> fst run = Err err) /\
     (forall found, fst check = Ok found ->
        exists result,
          fst run = Ok result /\
          DuplicateResult.HasDuplicates result = DuplicateResult.HasDuplicates found /\
          DuplicateResult.DuplicateTracks result = DuplicateResult.DuplicateTracks found /\
          DuplicateResult.LastAdded result = DuplicateResult.LastAdded found /\
          DuplicateResult.ArtistName result
          = match Track.Artists track0 with
            | artist0 :: _ => Artist.Name artist0
            | [] => ""
            end)).
Proof.
  intros run lookup e1. subst run lookup e1.
  unfold CheckArtistInPlaylist, bind, ret. unfold remoteCall.
  destruct (GetArtistTopTracks spotify artistID (remote e)) as [[[|track0 rest]|err] w1];
    simpl.
  - split; [intros ? [=]|]. split; [reflexivity|]. intros ? ? [=].
  - split; [intros ? [=]|]. split; [intros [=]|].
    intros ? ? [= <- <-].
    destruct (CheckDuplicates spotify timeNow playlistID (track0 :: rest)
                (mkEnv w1 (calls e ++ [CallGetArtistTopTracks artistID]) (stdout e)))
      as [[found|err] e2]; simpl.
    + split; [reflexivity|]. split; [intros ? [=]|].
      intros ? [= <-]. eexists. split; [reflexivity|]. simpl. auto.
    + split; [reflexivity|]. split; [now intros ? [= <-]|]. intros ? [=].
  - split; [now intros ? [= <-]|]. split; [intros [=]|]. intros ? ? [=].
Qed.

End DuplicateMore.

Lemma X15_CheckDuplicates_reports_flagged_witness :
  fst (CheckDuplicates Demo.service 7%Z "p1" [Demo.soWhat; Demo.milestones]
         (mkEnv ["t3"] [] []))
  = Ok (DuplicateResult.mk true [Demo.milestones] 7%Z ""
          "Found 1 duplicate track(s): Milestones") /\
  calls (snd (CheckDuplicates Demo.service 7%Z "p1" [Demo.soWhat; Demo.milestones]
                (mkEnv ["t3"] [] [])))
  = [CallCheckTracksInPlaylist "p1" ["t1"; "t3"]].
Proof.
  split; [vm_compute; reflexivity|].
  destruct (X15_CheckDuplicates_reports_flagged Demo.service 7%Z "p1"
              [Demo.soWhat; Demo.milestones] (mkEnv ["t3"] [] [])) as [Hcalls _];
    [discriminate|].
  exact Hcalls.
Defined.

(* ===================================================================== *)
(** * Adding an artist's top tracks ([internal/playlist/playlist.go]) *)

Section PlaylistFacts.

Context {W : Type}.
Variable spotify : SpotifyService W.

Lemma addTopTracks_calls artist tracks playlistID (e : Env W) :
  calls (snd (addTopTracks spotify artist tracks playlistID e))
  = calls e ++ [CallAddTracksToPlaylist playlistID (map Track.ID tracks)].
Proof.
  unfold addTopTracks, bind, remoteCall, ret.
  destruct (AddTracksToPlaylist spotify playlistID (map Track.ID tracks) (remote e))
    as [[err|] w]; reflexivity.
Qed.

Lemma addTopTracks_result artist tracks playlistID (e : Env W) :
  let run := addTopTracks spotify artist tracks playlistID e in
  AddResult.TracksAdded (fst (fst run)) = tracks /\
  AddResult.WasDuplicate (fst (fst run)) = false /\
  (AddResult.Success (fst (fst run)) = true <-> snd (fst run) = None).
Proof.
  unfold addTopTracks, bind, remoteCall, ret.
  destruct (AddTracksToPlaylist spotify playlistID (map Track.ID tracks) (remote e))
    as [[err|] w]; simpl; (split; [reflexivity|]; split; [reflexivity|]);
    split; congruence.
Qed.

(** X17. With [force] set the duplicate detector is not consulted: the call
    behaves, in its result and in every remote call it makes, as the
    unforced call of a service that has no detector. *)
Theorem X17_force_bypasses_detector (duplicate : option (DuplicateDetector W))
    (artistName playlistID : string) (e : Env W) :
  AddArtistToPlaylist spotify duplicate artistName playlistID true e
  = AddArtistToPlaylist spotify None artistName playlistID false e.
Proof.
  unfold AddArtistToPlaylist, bind, ret. unfold remoteCall.
  destruct (SearchArtist spotify artistName (remote e)) as [[artist|err] w1];
    [|reflexivity].
  destruct (GetArtistTopTracks spotify (Artist.ID artist) w1) as [[[|track0 rest]|err] w2];
    reflexivity.
Qed.

(** X18. When the result says [WasDuplicate], the artist was found and has
    top tracks, the detector ran right after these two lookups and reported
    duplicates, and nothing happened after it: no track is written, the
    result carries the detector's message, no tracks and no error, and
    [Success] is false. *)
Theorem X18_duplicate_veto (detector : DuplicateDetector W)
    (artistName playlistID : string) (force : bool) (e : Env W) :
  AddResult.WasDuplicate
    (fst (fst (AddArtistToPlaylist spotify (Some detector) artistName playlistID force e)))
  = true ->
  force = false /\
  exists artist tracks w1 w2 found,
    SearchArtist spotify artistName (remote e) = (Ok artist, w1) /\
    GetArtistTopTracks spotify (Artist.ID artist) w1 = (Ok tracks, w2) /\
    tracks <> [] /\
    detector playlistID (Artist.ID artist)
      (mkEnv w2 (calls e ++ [CallSearchArtist artistName]
                   ++ [CallGetArtistTopTracks (Artist.ID artist)]) (stdout e))
    = (Ok (Some found),
       snd (AddArtistToPlaylist spotify (Some detector) artistName playlistID force e)) /\
    DuplicateResult.HasDuplicates found = true /\
    fst (AddArtistToPlaylist spotify (Some detector) artistName playlistID force e)
    = (AddResult.mk false artist [] noPlaylist true (DuplicateResult.Message found), None).
Proof.
  unfold AddArtistToPlaylist, bind, ret. unfold remoteCall.
  destruct (SearchArtist spotify artistName (remote e)) as [[artist|err] w1] eqn:Hsearch;
    cbv beta iota zeta; cbn [remote calls stdout]; [|cbn; discriminate].
  destruct (GetArtistTopTracks spotify (Artist.ID artist) w1) as [[[|track0 rest]|err] w2]
    eqn:Htop; cbv beta iota zeta; [cbn; discriminate| |cbn; discriminate].
  cbn [calls stdout remote]. rewrite <- app_assoc.
  destruct force; cbn [negb].
  - intros H. exfalso. revert H.
    rewrite (proj1 (proj2 (addTopTracks_result _ _ _ _))). discriminate.
  - destruct (detector playlistID (Artist.ID artist) _) as [[[found|]|derr] e3] eqn:Hdet;
      try (intros H; exfalso; revert H;
           rewrite (proj1 (proj2 (addTopTracks_result _ _ _ _))); discriminate).
    destruct (DuplicateResult.HasDuplicates found) eqn:Hdup.
    + intros _. split; [reflexivity|].
      exists artist, (track0 :: rest), w1, w2, found.
      split; [reflexivity|]. split; [exact Htop|]. split; [discriminate|].
      split; [exact Hdet|]. split; [exact Hdup|]. reflexivity.
    + intros H. exfalso. revert H.
      rewrite (proj1 (proj2 (addTopTracks_result _ _ _ _))). discriminate.
Qed.

(** X19. [Success] is reported only for a write that went through: then no
    error is returned, the call was no duplicate, and the last remote call
    is the single batch write of the ids of all tracks of [TracksAdded], in
    their order, to the given playlist.  An error is never returned with
    [Success]; without error and without success no track is listed. *)
Theorem X19_success_means_written (duplicate : option (DuplicateDetector W))
    (artistName playlistID : string) (force : bool) (e : Env W) :
  let run := AddArtistToPlaylist spotify duplicate artistName playlistID force e in
  let result := fst (fst run) in
  (AddResult.Success result = true ->
     snd (fst run) = None /\
     AddResult.WasDuplicate result = false /\
     AddResult.TracksAdded result <> [] /\
     exists before,
       calls (snd run)
       = before ++ [CallAddTracksToPlaylist playlistID
                      (map Track.ID (AddResult.TracksAdded result))]) /\
  (snd (fst run) <> None -> AddResult.Success result = false) /\
  (AddResult.Success result = false -> snd (fst run) = None ->
     AddResult.TracksAdded result = []).
Proof.
  assert (Hadd : forall artist track0 rest (e1 : Env W),
    let run := addTopTracks spotify artist (track0 :: rest) playlistID e1 in
    let result := fst (fst run) in
    (AddResult.Success result = true ->
       snd (fst run) = None /\
       AddResult.WasDuplicate result = false /\
       AddResult.TracksAdded result <> [] /\
       exists before,
         calls (snd run)
         = before ++ [CallAddTracksToPlaylist playlistID
                        (map Track.ID (AddResult.TracksAdded result))]) /\
    (snd (fst run) <> None -> AddResult.Success result = false) /\
    (AddResult.Success result = false -> snd (fst run) = None ->
       AddResult.TracksAdded result = [])).
  { intros artist track0 rest e1 run result. subst run result.
    pose proof (addTopTracks_calls artist (track0 :: rest) playlistID e1) as Hc.
    destruct (addTopTracks_result artist (track0 :: rest) playlistID e1)
      as (Ht & Hd & Hs).
    split; [|split].
    - intros Hok. split; [now apply Hs|]. split; [exact Hd|].
      rewrite Ht. split; [discriminate|]. eexists. exact Hc.
    - intros Herr. apply not_true_is_false. intros Hok. apply Herr, Hs, Hok.
    - intros Hno Hnone. apply Hs in Hnone. congruence. }
  intros run result. subst run result.
  unfold AddArtistToPlaylist, bind, ret. unfold remoteCall.
  destruct (SearchArtist spotify artistName (remote e)) as [[artist|err] w1];
    cbv beta iota zeta; cbn [remote calls stdout].
  2:{ cbn. split; [discriminate|]. split; [reflexivity|]. discriminate. }
  destruct (GetArtistTopTracks spotify (Artist.ID artist) w1) as [[[|track0 rest]|err] w2];
    cbv beta iota zeta.
  1,3: cbn; (split; [discriminate|]; split; [reflexivity|]; try discriminate; reflexivity).
  cbn [calls stdout remote].
  destruct (if negb force then duplicate else None) as [detector|]; [|apply Hadd].
  destruct (detector playlistID (Artist.ID artist) _) as [[[found|]|derr] e3];
    try apply Hadd.
  destruct (DuplicateResult.HasDuplicates found); [|apply Hadd].
  cbn. split; [discriminate|]. split; reflexivity.
Qed.

End PlaylistFacts.

Lemma X18_duplicate_veto_witness :
  calls (snd (AddArtistToPlaylist Demo.service
                (Some (duplicateService Demo.service 7%Z (fun _ => "today")))
                "Miles Davis" "p1" false (mkEnv ["t3"] [] [])))
  = [CallSearchArtist "Miles Davis"; CallGetArtistTopTracks "a1";
     CallGetArtistTopTracks "a1"; CallCheckTracksInPlaylist "p1" ["t1"; "t2"; "t3"; "t4"]] /\
  AddResult.TracksAdded
    (fst (fst (AddArtistToPlaylist Demo.service
                 (Some (duplicateService Demo.service 7%Z (fun _ => "today")))
                 "Miles Davis" "p1" false (mkEnv ["t3"] [] []))))
  = [].
Proof.
  split; [vm_compute; reflexivity|].
  destruct (X18_duplicate_veto Demo.service
              (duplicateService Demo.service 7%Z (fun _ => "today"))
              "Miles Davis" "p1" false (mkEnv ["t3"] [] []))
    as (_ & artist & tracks & w1 & w2 & found & _ & _ & _ & _ & _ & Hres);
    [vm_compute; reflexivity|].
  rewrite Hres. reflexivity.
Defined.

(* ===================================================================== *)
(** * The catalog client (package [spotify]) *)

Lemma held_spec items trackID :
  held items trackID = true <->
  trackID <> "" /\ exists name, Some (trackID, name) ∈ items.
Proof.
  unfold held. rewrite existsb_exists. split.
  - intros ([[itemID name]|] & Hin & H); [|discriminate].
    apply andb_true_iff in H as [Hne Heq].
    apply String.eqb_eq in Heq. subst itemID.
    apply negb_true_iff, String.eqb_neq in Hne.
    split; [exact Hne|]. exists name. now apply list_elem_of_In.
  - intros (Hne & name & Hin). exists (Some (trackID, name)).
    split; [now apply list_elem_of_In|].
    apply andb_true_iff. split; [|apply String.eqb_refl].
    now apply negb_true_iff, String.eqb_neq.
Qed.

Lemma existingTrackIDs_held items trackID :
  default false (existingTrackIDs items !! trackID) = held items trackID.
Proof.
  unfold existingTrackIDs.
  assert (Hgen : forall existingTracks : gmap string bool,
    default false
      (fold_left
         (fun existingTracks item =>
            match item with
            | Some (itemID, _) =>
                if negb (String.eqb itemID "") then <[itemID := true]> existingTracks
                else existingTracks
            | None => existingTracks
            end) items existingTracks !! trackID)
    = held items trackID || default false (existingTracks !! trackID)).
  { induction items as [|[[itemID name]|] items IH]; intros existingTracks;
      [reflexivity| |exact (IH existingTracks)].
    cbn [fold_left]. rewrite IH. unfold held. cbn [existsb]. fold (held items trackID).
    destruct (String.eqb itemID "") eqn:Hempty; cbn [negb andb orb]; [reflexivity|].
    destruct (String.eqb_spec itemID trackID) as [->|Hne].
    - rewrite lookup_insert_eq. cbn. now rewrite orb_true_r.
    - rewrite lookup_insert_ne by exact Hne. reflexivity. }
  rewrite Hgen, lookup_empty. cbn. apply orb_false_r.
Qed.

Section ClientFacts.

Variable isAuthenticated : bool.
Variable refreshToken : option error.
Variable getPlaylistItems : string -> result (list PlaylistItem).
Variable libTopTracks : string -> result (list FullTrack.t).

(** X20. The client answers a membership question about no track at once,
    without authentication.  Any answer it gives has one flag per track id
    asked about, in order; for a non-empty question the client was
    authenticated, its token refreshed and the playlist items read, and the
    flag of an id is set exactly when the id is not empty and some item with
    a track carries it. *)
Theorem X20_client_membership_flags (playlistID : string) (trackIDs : list string) :
  Client_CheckTracksInPlaylist isAuthenticated refreshToken getPlaylistItems playlistID []
  = Ok [] /\
  forall flags,
    Client_CheckTracksInPlaylist isAuthenticated refreshToken getPlaylistItems
      playlistID trackIDs = Ok flags ->
    length flags = length trackIDs /\
    (trackIDs <> [] ->
     isAuthenticated = true /\ refreshToken = None /\
     exists items,
       getPlaylistItems playlistID = Ok items /\
       forall i trackID, trackIDs !! i = Some trackID ->
         exists flag, flags !! i = Some flag /\
           (flag = true <->
            trackID <> "" /\ exists name, Some (trackID, name) ∈ items)).
Proof.
  split; [reflexivity|]. intros flags. unfold Client_CheckTracksInPlaylist.
  destruct (Nat.eqb_spec (length trackIDs) 0) as [Hzero|Hsome].
  - intros [= <-]. destruct trackIDs; [|discriminate].
    split; [reflexivity|]. congruence.
  - destruct isAuthenticated; [|discriminate]. cbn [negb].
    destruct refreshToken as [err|]; [discriminate|].
    destruct (getPlaylistItems playlistID) as [items|err]; [|discriminate].
    intros [= <-]. split; [now rewrite length_map|]. intros _.
    split; [reflexivity|]. split; [reflexivity|]. exists items. split; [reflexivity|].
    intros i trackID Hi. rewrite list_lookup_fmap, Hi. cbn [fmap option_fmap option_map].
    eexists. split; [reflexivity|].
    rewrite existingTrackIDs_held. apply held_spec.
Qed.

(** X21. The library write of [AddTracksToPlaylist] is reached only with a
    non-empty id list, by an authenticated client whose token refresh went
    through: what the library would answer otherwise never shows in the
    result, and the call succeeds exactly when these three hold and the
    library reports no error.  An empty list is refused before
    authentication is looked at. *)
Theorem X21_client_write_guards (playlistID : string) (trackIDs : list string)
    (libAddTracks libAddTracks' : string -> list string -> option error) :
  ((trackIDs <> [] -> isAuthenticated = true -> refreshToken = None ->
    libAddTracks playlistID trackIDs = libAddTracks' playlistID trackIDs) ->
   Client_AddTracksToPlaylist isAuthenticated refreshToken libAddTracks playlistID trackIDs
   = Client_AddTracksToPlaylist isAuthenticated refreshToken libAddTracks' playlistID
       trackIDs) /\
  (Client_AddTracksToPlaylist isAuthenticated refreshToken libAddTracks playlistID trackIDs
   = None <->
   trackIDs <> [] /\ isAuthenticated = true /\ refreshToken = None /\
   libAddTracks playlistID trackIDs = None) /\
  Client_AddTracksToPlaylist isAuthenticated refreshToken libAddTracks playlistID []
  = Some "no tracks provided to add".
Proof.
  unfold Client_AddTracksToPlaylist. split; [|split; [|reflexivity]].
  - intros Hsame. destruct trackIDs as [|trackID0 trackIDs']; [reflexivity|].
    change (Nat.eqb (length (trackID0 :: trackIDs')) 0) with false. cbv iota.
    destruct isAuthenticated; [|reflexivity]. cbn [negb].
    destruct refreshToken as [err|]; [reflexivity|].
    rewrite Hsame by (reflexivity || discriminate). reflexivity.
  - destruct trackIDs as [|trackID0 trackIDs'].
    + cbn. split; [discriminate|]. intros [H _]. congruence.
    + change (Nat.eqb (length (trackID0 :: trackIDs')) 0) with false. cbv iota.
      destruct isAuthenticated; cbn [negb].
      2:{ split; [discriminate|]. intros (_ & H & _). discriminate. }
      destruct refreshToken as [err|].
      { split; [discriminate|]. intros (_ & _ & H & _). discriminate. }
      destruct (libAddTracks playlistID (trackID0 :: trackIDs')) as [err|].
      * split; [discriminate|]. intros (_ & _ & _ & H). discriminate.
      * split; [|reflexivity]. intros _.
        split; [discriminate|]. split; [reflexivity|]. split; reflexivity.
Qed.

(** X22. The tracks [GetArtistTopTracks] returns are the first five the
    library lists for the artist, all of them when there are fewer, each
    converted on its own: ids and names keep their order. *)
Theorem X22_client_top_tracks_first_five (artistID : string) (tracks : list Track.t) :
  Client_GetArtistTopTracks isAuthenticated refreshToken libTopTracks artistID = Ok tracks ->
  exists topTracks,
    libTopTracks artistID = Ok topTracks /\
    tracks = map convertTrack (take 5 topTracks) /\
    length tracks = Nat.min (length topTracks) 5 /\
    map Track.ID tracks = take 5 (map FullTrack.ID topTracks) /\
    map Track.Name tracks = take 5 (map FullTrack.Name topTracks).
Proof.
  unfold Client_GetArtistTopTracks.
  destruct isAuthenticated; [|discriminate]. cbn [negb].
  destruct refreshToken as [err|]; [discriminate|].
  destruct (libTopTracks artistID) as [topTracks|err]; [|discriminate].
  intros H. exists topTracks. split; [reflexivity|].
  assert (Htracks : tracks = map convertTrack (take 5 topTracks)).
  { destruct (Nat.eqb_spec (length topTracks) 0) as [Hzero|Hsome].
    - injection H as <-. destruct topTracks; [reflexivity | discriminate].
    - destruct (Nat.ltb_spec (length topTracks) 5) as [Hlt|Hge];
        injection H as <-; [|reflexivity].
      rewrite !take_ge by lia. reflexivity. }
  subst tracks. split; [reflexivity|].
  split; [rewrite length_map, length_take; lia|].
  rewrite !map_map. split; rewrite firstn_map; reflexivity.
Qed.

End ClientFacts.

Lemma X22_client_top_tracks_first_five_witness :
  map Track.ID
    (match Client_GetArtistTopTracks true None ClientFixture.libTopTracks "a1" with
     | Ok tracks => tracks
     | Err _ => []
     end)
  = ["t1"; "t2"; "t3"; "t4"; "t5"].
Proof.
  destruct (X22_client_top_tracks_first_five true None ClientFixture.libTopTracks "a1"
              (map convertTrack (take 5 (map ClientFixture.fullTrack
                                           ["1"; "2"; "3"; "4"; "5"; "6"]))))
    as (topTracks & Hlib & _ & _ & Hids & _); [reflexivity|].
  injection Hlib as <-. reflexivity.
Defined.

(* ===================================================================== *)
(** * More on the feed client ([internal/api/kmhd.go]) *)

Section ParseMore.

Variable unmarshalComplete : string -> option CompleteTrack.t.
Variable unmarshalMinimal : string -> option MinimalTrack.t.
Variable unmarshalMap : string -> result (gmap string JSONValue).
Variable decodeAPIResponse : string -> result (list string).
Variable timeParse : string -> string -> option Time.
Variable timeNow : Time.
Variable buildAPIURL : Time -> string.
Variable httpNewRequest : string -> option error.
Variable Do : nat -> DoResult.

Lemma mapTrackToSong_RawText artistName trackName collectionName startTime rawJSON :
  Song.RawText (mapTrackToSong timeParse timeNow artistName trackName collectionName
                  startTime rawJSON) = rawJSON.
Proof. reflexivity. Qed.

Lemma parseTrackObject_RawText raw song :
  parseTrackObject unmarshalComplete unmarshalMinimal unmarshalMap timeParse timeNow raw
  = Ok song ->
  Song.RawText song = raw.
Proof.
  intros H. apply parseTrackObject_Ok in H as (a & t & c & st & ->). reflexivity.
Qed.

Lemma fold_parseEntry apiResponse : forall collection,
  fold_left
    (parseEntry unmarshalComplete unmarshalMinimal unmarshalMap timeParse timeNow)
    apiResponse collection
  = SongCollection.mk
      (SongCollection.Songs collection
       ++ flat_map
            (entrySongs (parseTrackObject unmarshalComplete unmarshalMinimal unmarshalMap
                           timeParse timeNow))
            apiResponse)
      (SongCollection.LastUpdated collection) (SongCollection.Source collection).
Proof.
  induction apiResponse as [|raw apiResponse IH]; intros [songs updated source].
  - cbn. now rewrite app_nil_r.
  - cbn [fold_left flat_map]. rewrite IH. unfold parseEntry, entrySongs.
    destruct (parseTrackObject _ _ _ _ _ raw) as [song|err]; cbn;
      [destruct (Song.IsValid song); cbn|]; rewrite <- ?app_assoc; reflexivity.
Qed.

Lemma parseResponse_songs apiResponse :
  SongCollection.Songs
    (parseResponse unmarshalComplete unmarshalMinimal unmarshalMap timeParse timeNow
       apiResponse)
  = flat_map
      (entrySongs (parseTrackObject unmarshalComplete unmarshalMinimal unmarshalMap
                     timeParse timeNow))
      apiResponse.
Proof. unfold parseResponse. rewrite fold_parseEntry. reflexivity. Qed.

(** X23. [parseResponse] treats the entries of the feed one by one: the songs
    of a feed in two parts are those of the first part followed by those of
    the second, an entry that does not parse only drops out, the raw texts
    of the songs are entries of the feed in feed order, so there are at most
    as many songs as entries, and the collection is stamped with the current
    time and the source [kmhd_api]. *)
Theorem X23_parseResponse_entrywise (first second : list string) (raw : string) :
  let parse := parseResponse unmarshalComplete unmarshalMinimal unmarshalMap timeParse
                 timeNow in
  SongCollection.Songs (parse (first ++ second))
  = SongCollection.Songs (parse first) ++ SongCollection.Songs (parse second) /\
  (isOk (parseTrackObject unmarshalComplete unmarshalMinimal unmarshalMap timeParse timeNow
           raw) = false ->
   SongCollection.Songs (parse (first ++ raw :: second))
   = SongCollection.Songs (parse (first ++ second))) /\
  sublist (map Song.RawText (SongCollection.Songs (parse first))) first /\
  (length (SongCollection.Songs (parse first)) <= length first)%nat /\
  SongCollection.LastUpdated (parse first) = timeNow /\
  SongCollection.Source (parse first) = "kmhd_api".
Proof.
  intros parse. subst parse. rewrite !parseResponse_songs.
  assert (Hsub : forall l,
    sublist
      (map Song.RawText
         (flat_map
            (entrySongs (parseTrackObject unmarshalComplete unmarshalMinimal unmarshalMap
                           timeParse timeNow)) l)) l).
  { induction l as [|entry l IH]; [constructor|].
    cbn [flat_map]. unfold entrySongs at 1.
    destruct (parseTrackObject _ _ _ _ _ entry) as [song|err] eqn:Hparse;
      [|now apply sublist_cons].
    destruct (Song.IsValid song); [|now apply sublist_cons].
    cbn. rewrite (parseTrackObject_RawText _ _ Hparse). now apply sublist_skip. }
  split; [apply flat_map_app|]. split; [|split; [apply Hsub|split]].
  - intros Hbad. rewrite !flat_map_app. f_equal. cbn [flat_map].
    unfold entrySongs at 1.
    destruct (parseTrackObject _ _ _ _ _ raw); [discriminate | reflexivity].
  - rewrite <- (length_map Song.RawText). apply sublist_length, Hsub.
  - unfold parseResponse. rewrite fold_parseEntry. split; reflexivity.
Qed.

(** X24. [mapTrackToSong] dates a song with the current time when the entry
    has no start time or no known layout parses it; otherwise with the
    instant read by the first layout of the list that parses the start
    time. *)
Theorem X24_playedAt_first_layout_or_now
    (artistName trackName collectionName startTime rawJSON : string) :
  let song := mapTrackToSong timeParse timeNow artistName trackName collectionName
                startTime rawJSON in
  (startTime = "" -> Song.PlayedAt song = timeNow) /\
  ((forall layout, layout ∈ timestampFormats -> timeParse layout startTime = None) ->
   Song.PlayedAt song = timeNow) /\
  (forall before layout after parsedTime,
     startTime <> "" ->
     timestampFormats = before ++ layout :: after ->
     (forall earlier, earlier ∈ before -> timeParse earlier startTime = None) ->
     timeParse layout startTime = Some parsedTime ->
     Song.PlayedAt song = parsedTime).
Proof.
  intros song. subst song. unfold mapTrackToSong. cbn [Song.PlayedAt].
  split; [intros ->; reflexivity|]. split.
  - intros Hnone. destruct (negb (String.eqb startTime "")); [|reflexivity].
    unfold parseISO8601Timestamp. revert Hnone. generalize timestampFormats.
    intros formats. induction formats as [|layout formats IH]; intros Hnone;
      [reflexivity|].
    rewrite (Hnone layout) by apply list_elem_of_here.
    apply IH. intros l Hl. apply Hnone. now apply list_elem_of_further.
  - intros before layout after parsedTime Hne Hsplit Hbefore Hparse.
    apply String.eqb_neq in Hne. rewrite Hne. cbn [negb].
    unfold parseISO8601Timestamp. rewrite Hsplit. clear Hsplit.
    induction before as [|earlier before IH]; cbn [app].
    + rewrite Hparse. reflexivity.
    + rewrite (Hbefore earlier) by apply list_elem_of_here.
      apply IH. intros l Hl. apply Hbefore. now apply list_elem_of_further.
Qed.

(** X25. [parseTrackObject] rejects an entry exactly when none of its three
    decodings yields both an artist name and a track name: the complete and
    the minimal record fail to decode or lack one, and the generic map fails
    to decode or holds no non-empty string under one of the two keys.  The
    first decoding with both names decides the song. *)
Theorem X25_parseTrackObject_rejects (raw : string) :
  let parse := parseTrackObject unmarshalComplete unmarshalMinimal unmarshalMap timeParse
                 timeNow in
  let complete :=
    match unmarshalComplete raw with
    | Some track => named (CompleteTrack.ArtistName track) (CompleteTrack.TrackName track)
    | None => false
    end in
  let minimal :=
    match unmarshalMinimal raw with
    | Some track => named (MinimalTrack.ArtistName track) (MinimalTrack.TrackName track)
    | None => false
    end in
  let generic :=
    match unmarshalMap raw with
    | Ok rawMap => named (asString rawMap "artistName") (asString rawMap "trackName")
    | Err _ => false
    end in
  isOk (parse raw) = complete || minimal || generic /\
  (forall track, unmarshalComplete raw = Some track -> complete = true ->
     parse raw
     = Ok (mapTrackToSong timeParse timeNow (CompleteTrack.ArtistName track)
             (CompleteTrack.TrackName track) (CompleteTrack.CollectionName track)
             (CompleteTrack.StartTime track) raw)) /\
  (forall track, unmarshalMinimal raw = Some track -> complete = false ->
     minimal = true ->
     parse raw
     = Ok (mapTrackToSong timeParse timeNow (MinimalTrack.ArtistName track)
             (MinimalTrack.TrackName track) (MinimalTrack.CollectionName track)
             (MinimalTrack.StartTime track) raw)).
Proof.
  intros parse complete minimal generic. subst parse complete minimal generic.
  unfold parseTrackObject, named.
  destruct (unmarshalComplete raw) as [c|];
    [destruct (String.eqb (CompleteTrack.ArtistName c) ""),
              (String.eqb (CompleteTrack.TrackName c) "")|];
    cbn [negb andb orb];
    (destruct (unmarshalMinimal raw) as [m|];
      [destruct (String.eqb (MinimalTrack.ArtistName m) ""),
                (String.eqb (MinimalTrack.TrackName m) "")|];
      cbn [negb andb orb];
      (split; [|split; [intros ? [= <-]; (discriminate || reflexivity)
                       |intros ? [= <-]; try discriminate;
                        intros _; (discriminate || reflexivity)]]);
      try reflexivity;
      destruct (unmarshalMap raw) as [rawMap|err]; try reflexivity;
      destruct (String.eqb (asString rawMap "artistName") ""),
               (String.eqb (asString rawMap "trackName") ""); reflexivity).
Qed.

(** X26. [FetchPlaylist] returns a collection only out of a 200 response:
    the request could be built, some request among the first three was
    answered with status 200 after transient failures only, it is the last
    event of the call, its body was decoded, the collection is the parse of
    the decoded entries, and the call slept [k (k - 1)] seconds in all when
    that request was the [k]-th: never more than six. *)
Theorem X26_FetchPlaylist_success_source (date : Time) (coll : SongCollection.t) :
  snd (FetchPlaylist unmarshalComplete unmarshalMinimal unmarshalMap decodeAPIResponse
         timeParse timeNow buildAPIURL httpNewRequest Do date) = Ok coll ->
  httpNewRequest (buildAPIURL date) = None /\
  exists k resp apiResponse,
    (1 <= k <= 3)%nat /\
    (forall j, (1 <= j < k)%nat -> isTransient (Do j) = true) /\
    Do k = DoResponse resp /\
    Response.StatusCode resp = 200%Z /\
    decodeAPIResponse (Response.Body resp) = Ok apiResponse /\
    coll = parseResponse unmarshalComplete unmarshalMinimal unmarshalMap timeParse timeNow
             apiResponse /\
    last (fst (FetchPlaylist unmarshalComplete unmarshalMinimal unmarshalMap
                 decodeAPIResponse timeParse timeNow buildAPIURL httpNewRequest Do date))
    = Some (EvDo k) /\
    slept (fst (FetchPlaylist unmarshalComplete unmarshalMinimal unmarshalMap
                  decodeAPIResponse timeParse timeNow buildAPIURL httpNewRequest Do date))
    = (Z.of_nat (k * (k - 1)) * Second)%Z.
Proof.
  destruct (httpNewRequest (buildAPIURL date)) as [err|] eqn:Hreq.
  { unfold FetchPlaylist. rewrite Hreq. discriminate. }
  rewrite (FetchPlaylist_built _ _ _ _ _ _ _ _ _ _ Hreq).
  assert (Hafter : forall r,
    afterLoop decodeAPIResponse
      (parseResponse unmarshalComplete unmarshalMinimal unmarshalMap timeParse timeNow) r
    = Ok coll ->
    exists resp apiResponse,
      r = DoResponse resp /\ Response.StatusCode resp = 200%Z /\
      decodeAPIResponse (Response.Body resp) = Ok apiResponse /\
      coll = parseResponse unmarshalComplete unmarshalMinimal unmarshalMap timeParse
               timeNow apiResponse).
  { intros [err|resp]; cbn; [discriminate|].
    destruct (Z.eqb_spec (Response.StatusCode resp) 200) as [H200|_]; [|discriminate].
    unfold accepted.
    destruct (decodeAPIResponse (Response.Body resp)) as [apiResponse|err] eqn:Hdec;
      [|discriminate].
    intros [= <-]. exists resp, apiResponse. auto. }
  intros Hok. split; [reflexivity|].
  destruct (isTransient (Do 1)) eqn:H1; [destruct (isTransient (Do 2)) eqn:H2|];
    cbn [fst snd] in *; apply Hafter in Hok as (resp & apiResponse & Hdo & H200 & Hdec & ->).
  - exists 3%nat, resp, apiResponse. split; [lia|]. split.
    { intros j Hj. assert (Hj' : j = 1%nat \/ j = 2%nat) by lia.
      destruct Hj' as [-> | ->]; assumption. }
    split; [exact Hdo|]. split; [exact H200|]. split; [exact Hdec|].
    split; [reflexivity|]. split; reflexivity.
  - exists 2%nat, resp, apiResponse. split; [lia|]. split.
    { intros j Hj. assert (Hj' : j = 1%nat) by lia. now subst j. }
    split; [exact Hdo|]. split; [exact H200|]. split; [exact Hdec|].
    split; [reflexivity|]. split; reflexivity.
  - exists 1%nat, resp, apiResponse. split; [lia|]. split; [intros j Hj; lia|].
    split; [exact Hdo|]. split; [exact H200|]. split; [exact Hdec|].
    split; [reflexivity|]. split; reflexivity.
Qed.

End ParseMore.

Lemma X26_FetchPlaylist_success_source_witness :
  slept (fst (Demo.fetch Demo.flaky)) = (6 * Second)%Z /\
  exists coll,
    snd (Demo.fetch Demo.flaky) = Ok coll /\
    coll = parseResponse Demo.unmarshalComplete Demo.unmarshalMinimal Demo.unmarshalMap
             Demo.timeParse 42%Z (Demo.splitOn ";" Demo.body).
Proof.
  split; [reflexivity|].
  eexists. split; [vm_compute; reflexivity|].
  destruct (X26_FetchPlaylist_success_source Demo.unmarshalComplete Demo.unmarshalMinimal
              Demo.unmarshalMap Demo.decodeAPIResponse Demo.timeParse 42%Z
              Demo.buildAPIURL Demo.httpNewRequest Demo.flaky 0%Z
              (SongCollection.mk
                 [Song.mk "Miles Davis" "So What" "Kind of Blue" 42%Z
                    " Miles Davis |So What|Kind of Blue";
                  Song.mk "John Coltrane" "Giant Steps" "" 42%Z
                    "John Coltrane|Giant Steps |"] 42%Z "kmhd_api"))
    as (_ & k & resp & apiResponse & _ & _ & _ & _ & _ & Hcoll & _);
    [vm_compute; reflexivity|].
  vm_compute. reflexivity.
Defined.

(** The song of an entry that starts at the one instant the fixture reads is
    dated with that instant, read by the sixth layout. *)
Example mapTrackToSong_dated_run :
  Song.PlayedAt (mapTrackToSong TimeFixture.timeParse 42%Z "Miles Davis" "So What" ""
                   "2025-10-01T08:00:00Z" "{}") = 1759305600%Z /\
  Song.PlayedAt (mapTrackToSong TimeFixture.timeParse 42%Z "Miles Davis" "So What" ""
                   "yesterday" "{}") = 42%Z.
Proof. split; reflexivity. Qed.

(* ===================================================================== *)
(** * The browser identification and the configuration *)

Section UserAgentFacts.

Variable httpGet : string -> DoResult.
Variable decodeVersions : string -> result (list string).

(** X27. Whatever the version service answers, the identification sent is
    the Chrome identification of the given system for some version: the
    first version listed when the service answers 200 with a decodable,
    non-empty list for the platform of that system, and version 119.0.0.0
    otherwise; the fallback text is the identification built for that
    version.  A system other than linux, darwin and windows is treated as
    linux throughout. *)
Theorem X27_user_agent_is_versioned (goos : string) :
  getFallbackUserAgent goos = GetChromeUserAgentWithVersionForOS "119.0.0.0" goos /\
  (exists version,
     GetLatestChromeUserAgentForOS httpGet decodeVersions goos
     = GetChromeUserAgentWithVersionForOS version goos /\
     ((exists resp rest,
         httpGet (versionHistoryURL (getChromeAPIplatform goos)) = DoResponse resp /\
         Response.StatusCode resp = 200%Z /\
         decodeVersions (Response.Body resp) = Ok (version :: rest))
      \/ (version = "119.0.0.0" /\
          GetLatestChromeUserAgentForOS httpGet decodeVersions goos
          = getFallbackUserAgent goos))) /\
  (goos <> "linux" -> goos <> "darwin" -> goos <> "windows" ->
   getChromeAPIplatform goos = getChromeAPIplatform "linux" /\
   GetLatestChromeUserAgentForOS httpGet decodeVersions goos
   = GetLatestChromeUserAgentForOS httpGet decodeVersions "linux" /\
   forall version,
     GetChromeUserAgentWithVersionForOS version goos
     = GetChromeUserAgentWithVersionForOS version "linux").
Proof.
  assert (Hfallback : forall os,
    getFallbackUserAgent os = GetChromeUserAgentWithVersionForOS "119.0.0.0" os).
  { intros os. unfold getFallbackUserAgent, GetChromeUserAgentWithVersionForOS.
    destruct (String.eqb os "linux"), (String.eqb os "darwin"), (String.eqb os "windows");
      reflexivity. }
  split; [apply Hfallback|]. split.
  - unfold GetLatestChromeUserAgentForOS.
    destruct (httpGet (versionHistoryURL (getChromeAPIplatform goos))) as [err|resp] eqn:Hget;
      [exists "119.0.0.0"; split; [apply Hfallback|]; right; split; reflexivity|].
    unfold StatusOK.
    destruct (Z.eqb_spec (Response.StatusCode resp) 200) as [H200|Hother]; cbn [negb];
      [|exists "119.0.0.0"; split; [apply Hfallback|]; right; split; reflexivity].
    destruct (decodeVersions (Response.Body resp)) as [[|latestVersion rest]|err] eqn:Hdec;
      try (exists "119.0.0.0"; split; [apply Hfallback|]; right; split; reflexivity).
    exists latestVersion. split; [reflexivity|]. left. exists resp, rest. auto.
  - intros Hlinux Hdarwin Hwindows.
    apply String.eqb_neq in Hlinux, Hdarwin, Hwindows.
    assert (Hplatform : getChromeAPIplatform goos = getChromeAPIplatform "linux").
    { unfold getChromeAPIplatform. rewrite Hlinux, Hdarwin, Hwindows. reflexivity. }
    assert (Hagent : forall version,
      GetChromeUserAgentWithVersionForOS version goos
      = GetChromeUserAgentWithVersionForOS version "linux").
    { intros version. unfold GetChromeUserAgentWithVersionForOS.
      rewrite Hlinux, Hdarwin, Hwindows. reflexivity. }
    split; [exact Hplatform|]. split; [|exact Hagent].
    unfold GetLatestChromeUserAgentForOS.
    rewrite Hplatform, !Hfallback, !Hagent.
    destruct (httpGet _) as [err|resp]; [reflexivity|].
    destruct (negb _); [reflexivity|].
    destruct (decodeVersions _) as [[|latestVersion rest]|err];
      rewrite ?Hagent; reflexivity.
Qed.

End UserAgentFacts.

Lemma formatInt_nat (z : Z) : (0 <= z)%Z -> formatInt z = itoa (Z.to_nat z).
Proof.
  intros Hz. unfold formatInt. destruct (Z.ltb_spec z 0) as [Hneg|_]; [lia | reflexivity].
Qed.

(** X28. [validateConfig] accepts a configuration exactly when the server
    port lies between 1 and 65535, the feed endpoint is not empty and the
    timeout is positive.  Missing catalog credentials never make it fail:
    they only print warnings, two lines for a missing client id and one for
    a missing secret, and the error does not depend on the catalog section
    at all. *)
Theorem X28_validateConfig_accepts (conf : Config.t) (other : SpotifyConfig.t) :
  (snd (validateConfig conf) = None <->
   (1 <= ServerConfig.Port (Config.Server conf) <= 65535)%Z /\
   KMHDConfig.APIEndpoint (Config.KMHD conf) <> "" /\
   (0 < KMHDConfig.HTTPTimeout (Config.KMHD conf))%Z) /\
  snd (validateConfig (Config.mk other (Config.KMHD conf) (Config.Server conf)))
  = snd (validateConfig conf) /\
  length (fst (validateConfig conf))
  = ((if String.eqb (SpotifyConfig.ClientID (Config.Spotify conf)) "" then 2 else 0)
     + (if String.eqb (SpotifyConfig.ClientSecret (Config.Spotify conf)) "" then 1 else 0))%nat.
Proof.
  destruct conf as [spotifyConf [endpoint timeout] [host port]].
  unfold validateConfig. cbn [Config.Server Config.KMHD Config.Spotify ServerConfig.Port
    KMHDConfig.APIEndpoint KMHDConfig.HTTPTimeout fst snd].
  split; [|split; [reflexivity|]].
  - destruct (Z.ltb_spec port 1) as [Hlow|Hlow],
             (Z.ltb_spec 65535 port) as [Hhigh|Hhigh],
             (String.eqb_spec endpoint "") as [Hempty|Hempty],
             (Z.leb_spec timeout 0) as [Htime|Htime];
      cbn [orb app length Nat.ltb Nat.leb];
      (split; [try discriminate; intros _; repeat split; (lia || assumption)
              |intros (Hport & Hendpoint & Hpositive);
               try reflexivity; (lia || congruence)]).
  - destruct (String.eqb (SpotifyConfig.ClientID spotifyConf) ""),
             (String.eqb (SpotifyConfig.ClientSecret spotifyConf) ""); reflexivity.
Qed.

(** X29. For a configuration that [validateConfig] accepts, none of the
    defaults built into [Address] and [NewKMHDAPIClient] for the port, the
    endpoint and the timeout is used: the address ends in the configured
    port, in decimal, the client reads the configured endpoint, and its
    timeout is the configured number of seconds as long as that number fits
    the nanosecond count of a duration. *)
Theorem X29_valid_config_needs_no_defaults (conf : Config.t) :
  snd (validateConfig conf) = None ->
  Address (Config.Server conf)
  = (if String.eqb (ServerConfig.Host (Config.Server conf)) "" then "127.0.0.1"
     else ServerConfig.Host (Config.Server conf))
    +:+ ":" +:+ itoa (Z.to_nat (ServerConfig.Port (Config.Server conf))) /\
  KMHDAPIClient.baseURL (NewKMHDAPIClient (Config.KMHD conf))
  = KMHDConfig.APIEndpoint (Config.KMHD conf) /\
  ((KMHDConfig.HTTPTimeout (Config.KMHD conf) <= 9223372036)%Z ->
   KMHDAPIClient.Timeout (NewKMHDAPIClient (Config.KMHD conf))
   = (KMHDConfig.HTTPTimeout (Config.KMHD conf) * Second)%Z).
Proof.
  destruct conf as [spotifyConf [endpoint timeout] [host port]].
  unfold validateConfig, Address, NewKMHDAPIClient.
  cbn [Config.Server Config.KMHD Config.Spotify ServerConfig.Port ServerConfig.Host
    KMHDConfig.APIEndpoint KMHDConfig.HTTPTimeout KMHDAPIClient.baseURL
    KMHDAPIClient.Timeout fst snd].
  destruct (Z.ltb_spec port 1) as [Hlow|Hlow],
           (Z.ltb_spec 65535 port) as [Hhigh|Hhigh],
           (String.eqb_spec endpoint "") as [Hempty|Hempty],
           (Z.leb_spec timeout 0) as [Htime|Htime];
    cbn [orb app length Nat.ltb Nat.leb]; try discriminate.
  intros _. split; [|split; [reflexivity|]].
  - destruct (Z.eqb_spec port 0) as [Hzero|_]; [lia|].
    rewrite formatInt_nat by lia. reflexivity.
  - intros Hfits. unfold wrap64, Second.
    rewrite (Z.mod_small (timeout + 2 ^ 63) (2 ^ 64)) by lia.
    replace (timeout + 2 ^ 63 - 2 ^ 63)%Z with timeout by lia.
    rewrite Z.mod_small by lia. lia.
Qed.

Lemma X29_valid_config_needs_no_defaults_witness :
  Address (Config.Server ConfigFixture.conf) = "127.0.0.1:8080" /\
  KMHDAPIClient.Timeout (NewKMHDAPIClient (Config.KMHD ConfigFixture.conf))
  = (30 * Second)%Z.
Proof.
  destruct (X29_valid_config_needs_no_defaults ConfigFixture.conf)
    as (Haddress & _ & Htimeout); [reflexivity|].
  split; [rewrite Haddress; reflexivity|].
  rewrite Htimeout; [reflexivity|]. cbn. lia.
Defined.

(** A timeout of 9223372037 seconds passes validation and overflows the
    duration: the client is built with a negative timeout. *)
Example NewKMHDAPIClient_overflow_run :
  snd (validateConfig
         (Config.mk (Config.Spotify ConfigFixture.conf)
                    (KMHDConfig.mk "https://www.kmhd.org/pf/api/v3/content/fetch/playlist"
                       9223372037)
                    (Config.Server ConfigFixture.conf))) = None /\
  (KMHDAPIClient.Timeout
     (NewKMHDAPIClient
        (KMHDConfig.mk "https://www.kmhd.org/pf/api/v3/content/fetch/playlist" 9223372037))
   < 0)%Z.
Proof. split; [reflexivity|]. vm_compute. reflexivity. Qed.
